(** * ce-analytics: value codec, config gate and dashboard controller

    A shallow embedding of the analytics custom element:

    - [src/customElement/value.ts]   ([parseValue], [isValidValue]),
    - [src/customElement/config.ts]  ([isConfig]),
    - [src/components/AnalyticsDashboard.tsx]
      ([generateFakeAnalytics] and the [AnalyticsDashboard] component,
      with its [formatTime] and the trends of its cards, [StatCard] and
      [Chart]),

    together with the parts of the ECMAScript runtime these functions
    call: [JSON.parse], [JSON.stringify], [Number::toString], the [Date]
    algorithms, [Date.parse] on dates, and [Math.floor]/[Math.round].

    Conventions of the model.

    - A JavaScript string is its sequence of UTF-16 code units, each an [N].
    - A JavaScript exception is an explicit outcome, [Throw], of the
      [Completion] type; [try]/[catch] is [try_catch].
    - A JavaScript number that reaches JSON is the finite decimal that
      [Number::toString] prints for it: a sign, the significant digits and
      the position of the decimal point.  [JSON.parse] keeps the decimal
      of a literal as it is; its rounding to binary64 is not modelled.
      Integer-valued fields of the typed records are [Z].  The negative
      zero is identified with zero.
    - Intermediate floating-point arithmetic of the generator is exact
      arithmetic on [Q] followed by a rounding operator [fl], about which
      the theorems only assume what binary64 round-to-nearest provides.
      Where the presentation computes with a number of a snapshot, the
      number is the double nearest to its decimal ([to_double]).
    - [Math.random] reads a stream of rationals and the local time zone
      is the function [LocalTZA] of the host; with [fl] they form the
      [Runtime] of a call.  [new Date()] reads the clock of the component.
    - The component is a state machine over the events of its event
      loop: the mount, a click, the passing of time and the firing of a
      timer; a render is part of the step that causes it. *)

From Stdlib Require Import Ascii String.
From Stdlib Require Import List Bool Arith NArith ZArith QArith Qround Qabs Lia Lqa.
From Stdlib Require Import Decimal DecimalFacts DecimalN.
Import ListNotations.

Set Implicit Arguments.

(* ================================================================== *)
(** * Part I: definitions *)
(* ================================================================== *)

(** ** JavaScript strings *)

Definition jsstring := list N.

(** The code units of an ASCII literal. *)
Fixpoint lit (s : string) : jsstring :=
  match s with
  | EmptyString => []
  | String a r => N_of_ascii a :: lit r
  end.

Fixpoint jsstring_eqb (a b : jsstring) : bool :=
  match a, b with
  | [], [] => true
  | x :: a', y :: b' => N.eqb x y && jsstring_eqb a' b'
  | _, _ => false
  end.

(** ** Completions: normal results and thrown exceptions *)

Inductive JsError : Type :=
| SyntaxError
| TypeError.

Inductive Completion (A : Type) : Type :=
| Normal (a : A)
| Throw (e : JsError).

Arguments Normal {A} a.
Arguments Throw {A} e.

Definition bind {A B} (c : Completion A) (k : A -> Completion B) : Completion B :=
  match c with
  | Normal a => k a
  | Throw e => Throw e
  end.

(** [try { body } catch (e) { handler }] *)
Definition try_catch {A} (body : Completion A) (handler : JsError -> Completion A)
  : Completion A :=
  match body with
  | Normal a => Normal a
  | Throw e => handler e
  end.

Notation "x <- c ;; k" := (bind c (fun x => k))
  (at level 61, c at next level, right associativity).

(** ** Numbers as JSON sees them

    [Number::toString] describes a finite non-zero number by integers
    [n], [k] and [s] with [k >= 1], [10^(k-1) <= s < 10^k], the value
    being [s * 10^(n-k)] and [k] as small as possible.  [sig_digits] are
    the [k] decimal digits of [s] and [point] is [n]. *)

Record number : Type := mkNumber {
  negative : bool;
  sig_digits : list digits;
  point : Z
}.

Definition number_zero : number := mkNumber false [] 0.

Definition digit_value (d : digits) : N :=
  match d with
  | d0 => 0 | d1 => 1 | d2 => 2 | d3 => 3 | d4 => 4
  | d5 => 5 | d6 => 6 | d7 => 7 | d8 => 8 | d9 => 9
  end%N.

Definition digit_char (d : digits) : N := (48 + digit_value d)%N.

Definition char_digit (c : N) : option digits :=
  if (c =? 48)%N then Some d0 else if (c =? 49)%N then Some d1
  else if (c =? 50)%N then Some d2 else if (c =? 51)%N then Some d3
  else if (c =? 52)%N then Some d4 else if (c =? 53)%N then Some d5
  else if (c =? 54)%N then Some d6 else if (c =? 55)%N then Some d7
  else if (c =? 56)%N then Some d8 else if (c =? 57)%N then Some d9
  else None.

Definition is_d0 (d : digits) : bool :=
  match d with d0 => true | _ => false end.

(** Leading zeros of a digit sequence: how many, and what is left. *)
Fixpoint count_zeros (l : list digits) : nat :=
  match l with
  | d :: r => if is_d0 d then S (count_zeros r) else O
  | [] => O
  end.

Fixpoint drop_zeros (l : list digits) : list digits :=
  match l with
  | d :: r => if is_d0 d then drop_zeros r else l
  | [] => []
  end.

(** Trailing zeros removed. *)
Fixpoint strip_trailing (l : list digits) : list digits :=
  match l with
  | [] => []
  | d :: r =>
      match strip_trailing r with
      | [] => if is_d0 d then [] else [d]
      | r' => d :: r'
      end
  end.

(** [k] is as small as possible and [s] has exactly [k] digits: no zero
    at either end; zero is [number_zero]. *)
Definition canonical (x : number) : Prop :=
  drop_zeros (sig_digits x) = sig_digits x /\
  strip_trailing (sig_digits x) = sig_digits x /\
  (sig_digits x = [] -> negative x = false /\ point x = 0%Z).

(** The mathematical value of the literal [int_part . frac_part e exp]. *)
Definition number_of_literal (neg : bool) (int_part frac_part : list digits) (exp : Z)
  : number :=
  let all := int_part ++ frac_part in
  match strip_trailing (drop_zeros all) with
  | [] => number_zero
  | s => mkNumber neg s
           (Z.of_nat (length int_part) - Z.of_nat (count_zeros all) + exp)
  end.

Definition decimal_digits (n : N) : list digits := to_list (N.to_uint n).
Definition digits_to_N (l : list digits) : N := N.of_uint (of_list l).

(** An integer-valued number. *)
Definition number_of_Z (z : Z) : number :=
  number_of_literal (z <? 0)%Z (decimal_digits (Z.to_N (Z.abs z))) [] 0.

(** [x / 10^d], exact on decimals. *)
Definition number_shift (x : number) (d : Z) : number :=
  match sig_digits x with
  | [] => x
  | _ => mkNumber (negative x) (sig_digits x) (point x - d)
  end.

(** [Number::toString(x, 10)] for finite [x]. *)
Definition Number_toString (x : number) : jsstring :=
  match sig_digits x with
  | [] => lit "0"
  | d :: ds =>
      let s := map digit_char (d :: ds) in
      let k := Z.of_nat (length s) in
      let n := point x in
      (if negative x then lit "-" else []) ++
      if ((k <=? n) && (n <=? 21))%Z then
        s ++ repeat (digit_char d0) (Z.to_nat (n - k))
      else if ((0 <? n) && (n <=? 21))%Z then
        firstn (Z.to_nat n) s ++ lit "." ++ skipn (Z.to_nat n) s
      else if ((-6 <? n) && (n <=? 0))%Z then
        lit "0." ++ repeat (digit_char d0) (Z.to_nat (- n)) ++ s
      else
        let e := (n - 1)%Z in
        let es := (if (e <? 0)%Z then lit "-" else lit "+")
                    ++ map digit_char (decimal_digits (Z.to_N (Z.abs e))) in
        match ds with
        | [] => [digit_char d] ++ lit "e" ++ es
        | _ => [digit_char d] ++ lit "." ++ map digit_char ds ++ lit "e" ++ es
        end
  end.

(** ** JSON values *)

Unset Elimination Schemes.
Inductive json : Type :=
| JNull
| JBool (b : bool)
| JNumber (x : number)
| JString (s : jsstring)
| JArray (elements : list json)
| JObject (members : list (jsstring * json)).
Set Elimination Schemes.

(** *** Lexical elements of the JSON grammar *)

Definition is_ws (c : N) : bool :=
  ((c =? 32) || (c =? 9) || (c =? 10) || (c =? 13))%N.

Fixpoint skip_ws (s : jsstring) : jsstring :=
  match s with
  | c :: r => if is_ws c then skip_ws r else s
  | [] => []
  end.

Fixpoint strip_prefix (p s : jsstring) : option jsstring :=
  match p, s with
  | [], _ => Some s
  | x :: p', y :: s' => if (x =? y)%N then strip_prefix p' s' else None
  | _ :: _, [] => None
  end.

Fixpoint span_digits (s : jsstring) : list digits * jsstring :=
  match s with
  | c :: r =>
      match char_digit c with
      | Some d => let (ds, rest) := span_digits r in (d :: ds, rest)
      | None => ([], s)
      end
  | [] => ([], [])
  end.

(** JSONNumber: [-]? int frac? exp? *)
Definition lex_sign (s : jsstring) : bool * jsstring :=
  match s with
  | c :: r => if (c =? 45)%N then (true, r) else (false, s)
  | [] => (false, [])
  end.

Definition lex_int (s : jsstring) : option (list digits * jsstring) :=
  match s with
  | c :: r =>
      match char_digit c with
      | Some d =>
          if is_d0 d then Some ([d0], r)
          else let (ds, rest) := span_digits r in Some (d :: ds, rest)
      | None => None
      end
  | [] => None
  end.

Definition lex_frac (s : jsstring) : option (list digits * jsstring) :=
  match s with
  | c :: r =>
      if (c =? 46)%N then
        match span_digits r with
        | ([], _) => None
        | (ds, rest) => Some (ds, rest)
        end
      else Some ([], s)
  | [] => Some ([], [])
  end.

Definition lex_exp (s : jsstring) : option (Z * jsstring) :=
  match s with
  | c :: r =>
      if ((c =? 101) || (c =? 69))%N then
        let (neg, r1) :=
          match r with
          | c1 :: r' =>
              if (c1 =? 45)%N then (true, r')
              else if (c1 =? 43)%N then (false, r')
              else (false, r)
          | [] => (false, [])
          end in
        match span_digits r1 with
        | ([], _) => None
        | (ds, rest) =>
            let e := Z.of_N (digits_to_N ds) in
            Some (if neg then (- e)%Z else e, rest)
        end
      else Some (0%Z, s)
  | [] => Some (0%Z, [])
  end.

Definition parse_number (s : jsstring) : option (number * jsstring) :=
  let (neg, s1) := lex_sign s in
  match lex_int s1 with
  | None => None
  | Some (ip, s2) =>
      match lex_frac s2 with
      | None => None
      | Some (fp, s3) =>
          match lex_exp s3 with
          | None => None
          | Some (e, s4) => Some (number_of_literal neg ip fp e, s4)
          end
      end
  end.

(** JSONString: the characters up to the closing quote, escapes decoded. *)
Definition hex_value (c : N) : option N :=
  if ((48 <=? c) && (c <=? 57))%N then Some (c - 48)%N
  else if ((97 <=? c) && (c <=? 102))%N then Some (c - 87)%N
  else if ((65 <=? c) && (c <=? 70))%N then Some (c - 55)%N
  else None.

Definition hex4_value (a b c d : N) : option N :=
  match hex_value a, hex_value b, hex_value c, hex_value d with
  | Some x, Some y, Some z, Some w => Some (((x * 16 + y) * 16 + z) * 16 + w)%N
  | _, _, _, _ => None
  end.

Definition single_escape (c : N) : option N :=
  if (c =? 34)%N then Some 34%N            (* quotation mark *)
  else if (c =? 92)%N then Some 92%N       (* reverse solidus *)
  else if (c =? 47)%N then Some 47%N       (* solidus *)
  else if (c =? 98)%N then Some 8%N        (* backspace *)
  else if (c =? 102)%N then Some 12%N      (* form feed *)
  else if (c =? 110)%N then Some 10%N      (* line feed *)
  else if (c =? 114)%N then Some 13%N      (* carriage return *)
  else if (c =? 116)%N then Some 9%N       (* tab *)
  else None.

Fixpoint parse_string_body (s : jsstring) : option (jsstring * jsstring) :=
  match s with
  | [] => None
  | c :: r =>
      if (c =? 34)%N then Some ([], r)
      else if (c =? 92)%N then
        match r with
        | [] => None
        | e :: r1 =>
            if (e =? 117)%N then
              match r1 with
              | h1 :: h2 :: h3 :: h4 :: r2 =>
                  match hex4_value h1 h2 h3 h4, parse_string_body r2 with
                  | Some u, Some (str, rest) => Some (u :: str, rest)
                  | _, _ => None
                  end
              | _ => None
              end
            else
              match single_escape e, parse_string_body r1 with
              | Some u, Some (str, rest) => Some (u :: str, rest)
              | _, _ => None
              end
        end
      else if (c <? 32)%N then None
      else
        match parse_string_body r with
        | Some (str, rest) => Some (c :: str, rest)
        | None => None
        end
  end.

(** *** Objects

    [JSON.parse] defines the members of an object one after the other
    with CreateDataProperty: a repeated name overwrites the value and
    keeps the place of its first occurrence.  The members of a [JObject]
    are kept in the order of their creation; the reordering of
    array-index names by property enumeration is not modelled, and no
    definition below depends on the order. *)

Fixpoint has_key (k : jsstring) (o : list (jsstring * json)) : bool :=
  match o with
  | [] => false
  | (k', _) :: r => jsstring_eqb k k' || has_key k r
  end.

Fixpoint obj_set (o : list (jsstring * json)) (k : jsstring) (v : json)
  : list (jsstring * json) :=
  match o with
  | [] => [(k, v)]
  | (k', v') :: r =>
      if jsstring_eqb k k' then (k', v) :: r else (k', v') :: obj_set r k v
  end.

Definition build_object (ms : list (jsstring * json)) : list (jsstring * json) :=
  fold_left (fun o kv => obj_set o (fst kv) (snd kv)) ms [].


(** *** The recursive-descent parser of [JSON.parse]

    [fuel] bounds the number of nested calls; [JSON_parse] supplies
    enough of it for every input (see [parse_value_fuel_enough]). *)

Definition lbrace := 123%N.
Definition rbrace := 125%N.
Definition lbracket := 91%N.
Definition rbracket := 93%N.
Definition comma := 44%N.
Definition colon := 58%N.
Definition dquote := 34%N.

Fixpoint parse_value (fuel : nat) (s : jsstring) {struct fuel}
  : option (json * jsstring) :=
  match fuel with
  | O => None
  | S fuel' =>
      match skip_ws s with
      | [] => None
      | c :: r =>
          if (c =? lbrace)%N then
            match skip_ws r with
            | [] => None
            | c' :: r' =>
                if (c' =? rbrace)%N then Some (JObject [], r')
                else
                  match parse_members fuel' (c' :: r') with
                  | Some (ms, rest) => Some (JObject (build_object ms), rest)
                  | None => None
                  end
            end
          else if (c =? lbracket)%N then
            match skip_ws r with
            | [] => None
            | c' :: r' =>
                if (c' =? rbracket)%N then Some (JArray [], r')
                else
                  match parse_elements fuel' (c' :: r') with
                  | Some (vs, rest) => Some (JArray vs, rest)
                  | None => None
                  end
            end
          else if (c =? dquote)%N then
            match parse_string_body r with
            | Some (str, rest) => Some (JString str, rest)
            | None => None
            end
          else
            match strip_prefix (lit "null") (c :: r) with
            | Some rest => Some (JNull, rest)
            | None =>
            match strip_prefix (lit "true") (c :: r) with
            | Some rest => Some (JBool true, rest)
            | None =>
            match strip_prefix (lit "false") (c :: r) with
            | Some rest => Some (JBool false, rest)
            | None =>
            match parse_number (c :: r) with
            | Some (x, rest) => Some (JNumber x, rest)
            | None => None
            end end end end
      end
  end

with parse_elements (fuel : nat) (s : jsstring) {struct fuel}
  : option (list json * jsstring) :=
  match fuel with
  | O => None
  | S fuel' =>
      match parse_value fuel' s with
      | None => None
      | Some (v, r) =>
          match skip_ws r with
          | [] => None
          | c :: r' =>
              if (c =? comma)%N then
                match parse_elements fuel' r' with
                | Some (vs, rest) => Some (v :: vs, rest)
                | None => None
                end
              else if (c =? rbracket)%N then Some ([v], r')
              else None
          end
      end
  end

with parse_members (fuel : nat) (s : jsstring) {struct fuel}
  : option (list (jsstring * json) * jsstring) :=
  match fuel with
  | O => None
  | S fuel' =>
      match skip_ws s with
      | [] => None
      | q :: r0 =>
          if (q =? dquote)%N then
            match parse_string_body r0 with
            | None => None
            | Some (k, r1) =>
                match skip_ws r1 with
                | [] => None
                | c1 :: r2 =>
                    if (c1 =? colon)%N then
                      match parse_value fuel' r2 with
                      | None => None
                      | Some (v, r3) =>
                          match skip_ws r3 with
                          | [] => None
                          | c :: r' =>
                              if (c =? comma)%N then
                                match parse_members fuel' r' with
                                | Some (ms, rest) => Some ((k, v) :: ms, rest)
                                | None => None
                                end
                              else if (c =? rbrace)%N then Some ([(k, v)], r')
                              else None
                          end
                      end
                    else None
                end
            end
          else None
      end
  end.

Definition parse_value_fuel (s : jsstring) : nat := S (2 * List.length s).

(** [JSON.parse(text)] without a reviver: one value, then only white
    space; anything else is a SyntaxError. *)
Definition JSON_parse (text : jsstring) : Completion json :=
  match parse_value (parse_value_fuel text) text with
  | Some (v, rest) =>
      match skip_ws rest with
      | [] => Normal v
      | _ :: _ => Throw SyntaxError
      end
  | None => Throw SyntaxError
  end.

(** *** [JSON.stringify] (no replacer, no indentation) *)

Definition hex_char (n : N) : N :=
  if (n <? 10)%N then (48 + n)%N else (87 + n)%N.

(** UnicodeEscape: a reverse solidus, [u] and four lowercase hex digits. *)
Definition unicode_escape (c : N) : jsstring :=
  [92; 117;
   hex_char (c / 4096); hex_char ((c / 256) mod 16);
   hex_char ((c / 16) mod 16); hex_char (c mod 16)]%N.

Definition is_lead (c : N) : bool := ((55296 <=? c) && (c <=? 56319))%N.
Definition is_trail (c : N) : bool := ((56320 <=? c) && (c <=? 57343))%N.

Definition quote_char (c : N) : jsstring :=
  if (c =? 8)%N then [92; 98]%N
  else if (c =? 9)%N then [92; 116]%N
  else if (c =? 10)%N then [92; 110]%N
  else if (c =? 12)%N then [92; 102]%N
  else if (c =? 13)%N then [92; 114]%N
  else if (c =? 34)%N then [92; 34]%N
  else if (c =? 92)%N then [92; 92]%N
  else if (c <? 32)%N || is_lead c || is_trail c then unicode_escape c
  else [c].

(** A surrogate pair is one code point and is copied; a lone surrogate
    is escaped. *)
Fixpoint quote_body (s : jsstring) : jsstring :=
  match s with
  | [] => []
  | c :: r =>
      match r with
      | c2 :: r2 =>
          if is_lead c && is_trail c2 then c :: c2 :: quote_body r2
          else quote_char c ++ quote_body r
      | [] => quote_char c
      end
  end.

Definition QuoteJSONString (s : jsstring) : jsstring :=
  dquote :: quote_body s ++ [dquote].

Fixpoint JSON_stringify (v : json) : jsstring :=
  match v with
  | JNull => lit "null"
  | JBool true => lit "true"
  | JBool false => lit "false"
  | JNumber x => Number_toString x
  | JString s => QuoteJSONString s
  | JArray l =>
      lbracket ::
      (fix elems (l : list json) : jsstring :=
         match l with
         | [] => []
         | x :: r =>
             JSON_stringify x ++
             match r with [] => [] | _ :: _ => comma :: elems r end
         end) l ++ [rbracket]
  | JObject ms =>
      lbrace ::
      (fix membs (ms : list (jsstring * json)) : jsstring :=
         match ms with
         | [] => []
         | (k, x) :: r =>
             QuoteJSONString k ++ colon :: JSON_stringify x ++
             match r with [] => [] | _ :: _ => comma :: membs r end
         end) ms ++ [rbrace]
  end.

(** ** [src/customElement/value.ts] *)

Record HistoryEntry : Type := mkEntry {
  date : jsstring;
  views : Z
}.

Record AnalyticsData : Type := mkAnalyticsData {
  pageViews : Z;
  uniqueVisitors : Z;
  bounceRate : number;
  avgTimeOnPage : number;
  lastUpdated : jsstring;
  pageViewsHistory : list HistoryEntry
}.

Record Value : Type := mkValue {
  analyticsData : option AnalyticsData
}.

(** The objects of these types as JavaScript values, with the members in
    the order in which the object literals of the source list them. *)
Definition HistoryEntry_to_json (e : HistoryEntry) : json :=
  JObject [(lit "date", JString (date e));
           (lit "views", JNumber (number_of_Z (views e)))].

Definition AnalyticsData_to_json (d : AnalyticsData) : json :=
  JObject [(lit "pageViews", JNumber (number_of_Z (pageViews d)));
           (lit "uniqueVisitors", JNumber (number_of_Z (uniqueVisitors d)));
           (lit "bounceRate", JNumber (bounceRate d));
           (lit "avgTimeOnPage", JNumber (avgTimeOnPage d));
           (lit "lastUpdated", JString (lastUpdated d));
           (lit "pageViewsHistory",
             JArray (map HistoryEntry_to_json (pageViewsHistory d)))].

Definition Value_to_json (v : Value) : json :=
  JObject [(lit "analyticsData",
             match analyticsData v with
             | None => JNull
             | Some d => AnalyticsData_to_json d
             end)].

(** The result type [Value | null | "invalidValue"] of [parseValue].  The
    parsed object is returned as it is: the [Value] type is asserted by
    the signature, not checked. *)
Inductive Parsed : Type :=
| ParsedNull
| InvalidValue
| ParsedValue (v : json).

(** [const isValidValue = (obj) => "analyticsData" in obj;]

    The [in] operator throws a TypeError when its right operand is not
    an object.  On an object it looks the name up among the own
    properties and along the prototype chain; ["analyticsData"] is
    neither an array index, nor [length], nor a property of
    [Object.prototype] or [Array.prototype], so only the own members of
    an object can provide it. *)
Definition isValidValue (obj : json) : Completion bool :=
  match obj with
  | JObject ms => Normal (has_key (lit "analyticsData") ms)
  | JArray _ => Normal false
  | JNull | JBool _ | JNumber _ | JString _ => Throw TypeError
  end.

(** [[
export const parseValue = (input: string | null): Value | null | "invalidValue" => {
  if (input === null) { return null; }
  try {
    const parsedValue = JSON.parse(input);
    return isValidValue(parsedValue) ? parsedValue : "invalidValue";
  }
  catch (e) { return "invalidValue"; }
};
]] *)
Definition parseValue (input : option jsstring) : Completion Parsed :=
  match input with
  | None => Normal ParsedNull
  | Some input =>
      try_catch
        (parsedValue <- JSON_parse input ;;
         valid <- isValidValue parsedValue ;;
         Normal (if valid then ParsedValue parsedValue else InvalidValue))
        (fun e => Normal InvalidValue)
  end.

(** ** [src/customElement/config.ts]

    [export const isConfig = (value: Readonly<Record<string, unknown>> | null) =>
       value !== null;] *)
Definition isConfig (value : option (list (jsstring * json))) : bool :=
  match value with
  | None => false
  | Some _ => true
  end.

(** ** The [Date] algorithms of ECMAScript

    A time value is a number of milliseconds since the epoch, in UTC.
    Time values are taken in the range of valid dates, where TimeClip is
    the identity. *)

Module JsDate.
Local Open Scope Z_scope.

Definition msPerDay : Z := 86400000.
Definition msPerHour : Z := 3600000.
Definition msPerMinute : Z := 60000.
Definition msPerSecond : Z := 1000.

Definition Day (t : Z) : Z := t / msPerDay.
Definition TimeWithinDay (t : Z) : Z := t mod msPerDay.

Definition is_leap (y : Z) : bool :=
  ((y mod 4 =? 0) && negb (y mod 100 =? 0)) || (y mod 400 =? 0).

Definition DayFromYear (y : Z) : Z :=
  365 * (y - 1970) + (y - 1969) / 4 - (y - 1901) / 100 + (y - 1601) / 400.

(** The largest [y] with [DayFromYear y <= Day t]
    (see [YearFromTime_spec]). *)
Definition YearFromTime (t : Z) : Z :=
  let d := Day t in
  let y := 1970 + (d * 400) / 146097 in
  if d <? DayFromYear y then y - 1
  else if DayFromYear (y + 1) <=? d then y + 1
  else y.

Definition InLeapYear (t : Z) : Z :=
  if is_leap (YearFromTime t) then 1 else 0.

Definition DayWithinYear (t : Z) : Z := Day t - DayFromYear (YearFromTime t).

(** The day within the year on which month [m] (0 to 11) starts. *)
Definition month_start (m leap : Z) : Z :=
  if m =? 0 then 0 else if m =? 1 then 31
  else if m =? 2 then 59 + leap else if m =? 3 then 90 + leap
  else if m =? 4 then 120 + leap else if m =? 5 then 151 + leap
  else if m =? 6 then 181 + leap else if m =? 7 then 212 + leap
  else if m =? 8 then 243 + leap else if m =? 9 then 273 + leap
  else if m =? 10 then 304 + leap else 334 + leap.

Definition MonthFromTime (t : Z) : Z :=
  let d := DayWithinYear t in
  let leap := InLeapYear t in
  if d <? 31 then 0 else if d <? 59 + leap then 1
  else if d <? 90 + leap then 2 else if d <? 120 + leap then 3
  else if d <? 151 + leap then 4 else if d <? 181 + leap then 5
  else if d <? 212 + leap then 6 else if d <? 243 + leap then 7
  else if d <? 273 + leap then 8 else if d <? 304 + leap then 9
  else if d <? 334 + leap then 10 else 11.

Definition DateFromTime (t : Z) : Z :=
  DayWithinYear t - month_start (MonthFromTime t) (InLeapYear t) + 1.

Definition HourFromTime (t : Z) : Z := (t / msPerHour) mod 24.
Definition MinFromTime (t : Z) : Z := (t / msPerMinute) mod 60.
Definition SecFromTime (t : Z) : Z := (t / msPerSecond) mod 60.
Definition msFromTime (t : Z) : Z := t mod msPerSecond.

Definition MakeDay (year month dt : Z) : Z :=
  let ym := year + month / 12 in
  let mn := month mod 12 in
  DayFromYear ym + month_start mn (if is_leap ym then 1 else 0) + dt - 1.

Definition MakeDate (day time : Z) : Z := day * msPerDay + time.

(** The host's time zone: [LocalTZA t true] is the offset of local time
    at the UTC instant [t], [LocalTZA t false] the offset to subtract
    from the local time [t]. *)
Definition TimeZone : Type := Z -> bool -> Z.

Definition LocalTime (tz : TimeZone) (t : Z) : Z := t + tz t true.
Definition UTC (tz : TimeZone) (t : Z) : Z := t - tz t false.

(** [Date.prototype.getDate] and [Date.prototype.setDate], on the time
    value of the date object. *)
Definition getDate (tz : TimeZone) (t : Z) : Z := DateFromTime (LocalTime tz t).

Definition setDate (tz : TimeZone) (t : Z) (dt : Z) : Z :=
  let lt := LocalTime tz t in
  let newDate :=
    MakeDate (MakeDay (YearFromTime lt) (MonthFromTime lt) dt) (TimeWithinDay lt) in
  UTC tz newDate.

(** [w] decimal digits of [n], zero padded. *)
Fixpoint pad (w : nat) (n : Z) : jsstring :=
  match w with
  | O => []
  | S w' => pad w' (n / 10) ++ [Z.to_N (48 + n mod 10)]
  end.

Definition year_string (y : Z) : jsstring :=
  if (0 <=? y) && (y <=? 9999) then pad 4 y
  else (if y <? 0 then lit "-" else lit "+") ++ pad 6 (Z.abs y).

(** [Date.prototype.toISOString]: YYYY-MM-DDTHH:mm:ss.sssZ in UTC. *)
Definition date_string (t : Z) : jsstring :=
  year_string (YearFromTime t) ++ lit "-" ++ pad 2 (MonthFromTime t + 1)
    ++ lit "-" ++ pad 2 (DateFromTime t).

Definition time_string (t : Z) : jsstring :=
  pad 2 (HourFromTime t) ++ lit ":" ++ pad 2 (MinFromTime t)
    ++ lit ":" ++ pad 2 (SecFromTime t) ++ lit "." ++ pad 3 (msFromTime t).

Definition toISOString (t : Z) : jsstring :=
  date_string t ++ lit "T" ++ time_string t ++ lit "Z".

(** The calendar day of [toISOString], as [split('T')[0]] extracts it:
    it depends on [Day t] only (see [isoDate_Day]). *)
Fixpoint split_first (sep : N) (s : jsstring) : jsstring :=
  match s with
  | [] => []
  | c :: r => if (c =? sep)%N then [] else c :: split_first sep r
  end.

Definition isoDate (t : Z) : jsstring := split_first 84%N (toISOString t).

End JsDate.

(** ** [src/components/AnalyticsDashboard.tsx] *)

(** What a call reads from its surroundings: the rounding of binary64
    arithmetic, the time zone of the host, and the outcomes of
    [Math.random], the [i]-th call returning [random i]. *)
Record Runtime : Type := mkRuntime {
  fl : Q -> Q;
  LocalTZA : JsDate.TimeZone;
  random : nat -> Q
}.

Definition Math_floor (x : Q) : Z := Qfloor x.
Definition Math_round (x : Q) : Z := Qfloor (x + (1 # 2)).

Definition historyDays : nat := 7.

(** [[
  const pageViewsHistory = Array.from({ length: historyDays }, (_, i) => {
    const date = new Date(now);
    date.setDate(date.getDate() - (historyDays - 1 - i));
    const dateString = date.toISOString().split('T')[0]!;
    return { date: dateString, views: Math.floor(Math.random() * 500) + 100 };
  });
]]
    The callback runs for [i = 0, 1, ...] in this order, so that its
    [i]-th run draws the [i]-th random number after [used]. *)
Definition history_entry (rt : Runtime) (now : Z) (used : nat) (i : nat)
  : HistoryEntry :=
  let date0 := now in
  let date1 :=
    JsDate.setDate (LocalTZA rt) date0
      (JsDate.getDate (LocalTZA rt) date0
         - (Z.of_nat historyDays - 1 - Z.of_nat i))%Z in
  let dateString := JsDate.isoDate date1 in
  mkEntry dateString
          (Math_floor (fl rt (random rt (used + i) * 500)) + 100)%Z.

(** [[
  const totalViews = pageViewsHistory.reduce((sum, day) => sum + day.views, 0);
  return {
    pageViews: totalViews,
    uniqueVisitors: Math.floor(totalViews * (0.6 + Math.random() * 0.2)),
    bounceRate: Math.round((20 + Math.random() * 30) * 10) / 10,
    avgTimeOnPage: Math.round((45 + Math.random() * 180) * 10) / 10,
    lastUpdated: now.toISOString(),
    pageViewsHistory,
  };
]]
    [now] is the time value of [new Date()] and [used] the number of
    random numbers drawn before the call, which draws ten. *)
Definition generateFakeAnalytics (rt : Runtime) (now : Z) (used : nat)
  : AnalyticsData :=
  let f := fl rt in
  let pageViewsHistory := map (history_entry rt now used) (seq 0 historyDays) in
  let totalViews := fold_left (fun sum day => (sum + views day)%Z) pageViewsHistory 0%Z in
  let r1 := random rt (used + historyDays) in
  let r2 := random rt (used + historyDays + 1) in
  let r3 := random rt (used + historyDays + 2) in
  mkAnalyticsData
    totalViews
    (Math_floor (f (inject_Z totalViews * f (f (6 # 10) + f (r1 * f (2 # 10))))))
    (number_shift (number_of_Z (Math_round (f (f (20 + f (r2 * 30)) * 10)))) 1)
    (number_shift (number_of_Z (Math_round (f (f (45 + f (r3 * 180)) * 10)))) 1)
    (JsDate.toISOString now)
    pageViewsHistory.

Definition randoms_per_call : nat := historyDays + 3.

(** *** The component

    The state of a mounted [AnalyticsDashboard]: its two [useState]
    cells, the value channel behind [useValue], the timers it has set,
    and the clock and the random numbers its calls consume.

    [writes] records the arguments of the calls of [setValue], the most
    recent first, and [generator_calls] counts the calls of
    [generateFakeAnalytics]; neither is read by the component. *)
Record Widget : Type := mkWidget {
  isLoading : bool;
  shown : option AnalyticsData;          (* the [analyticsData] state cell *)
  host_value : option Value;             (* what [useValue] holds *)
  writes : list Value;
  timers : list Z;                       (* due times of pending callbacks *)
  clock : Z;
  random_used : nat;
  generator_calls : nat
}.

(** Modelled from the spec: the hook [useValue] of
    [customElement/CustomElementContext], which is not among the sources.
    Section 6 gives the value channel two directions: the host supplies
    the last persisted value, and the widget supplies a new one, which
    replaces it as a whole, on every state change.  [setValue] is that
    write. *)
Definition setValue (v : Value) (w : Widget) : Widget :=
  mkWidget (isLoading w) (shown w) (Some v) (v :: writes w) (timers w)
           (clock w) (random_used w) (generator_calls w).

Definition setAnalyticsData (d : AnalyticsData) (w : Widget) : Widget :=
  mkWidget (isLoading w) (Some d) (host_value w) (writes w) (timers w)
           (clock w) (random_used w) (generator_calls w).

Definition setIsLoading (b : bool) (w : Widget) : Widget :=
  mkWidget b (shown w) (host_value w) (writes w) (timers w)
           (clock w) (random_used w) (generator_calls w).

(** [setTimeout(callback, delay)]; the only callback of the component is
    the one of [refreshAnalytics]. *)
Definition setTimeout (delay : Z) (w : Widget) : Widget :=
  mkWidget (isLoading w) (shown w) (host_value w) (writes w)
           (timers w ++ [(clock w + delay)%Z])
           (clock w) (random_used w) (generator_calls w).

(** A call of [generateFakeAnalytics()] in the state [w]. *)
Definition call_generator (rt : Runtime) (w : Widget) : AnalyticsData * Widget :=
  (generateFakeAnalytics rt (clock w) (random_used w),
   mkWidget (isLoading w) (shown w) (host_value w) (writes w) (timers w)
            (clock w) (random_used w + randoms_per_call) (S (generator_calls w))).

(** [value?.analyticsData]: the snapshot, when the value is an object
    whose [analyticsData] is one; an object is truthy, [null] and
    [undefined] are not. *)
Definition value_snapshot (value : option Value) : option AnalyticsData :=
  match value with
  | Some v => analyticsData v
  | None => None
  end.

(** The first render: [useState(false)] and
    [useState(value?.analyticsData || null)]. *)
Definition first_render (value : option Value) (now : Z) : Widget :=
  mkWidget false (value_snapshot value) value [] [] now 0 0.

(** [[
  useEffect(() => {
    if (value?.analyticsData) {
      setAnalyticsData(value.analyticsData);
    } else {
      const fakeData = generateFakeAnalytics();
      setAnalyticsData(fakeData);
      setValue({ analyticsData: fakeData });
    }
  }, []);
]] *)
Definition mount_effect (rt : Runtime) (w : Widget) : Widget :=
  match value_snapshot (host_value w) with
  | Some d => setAnalyticsData d w
  | None =>
      let (fakeData, w1) := call_generator rt w in
      setValue (mkValue (Some fakeData)) (setAnalyticsData fakeData w1)
  end.

Definition mount (rt : Runtime) (value : option Value) (now : Z) : Widget :=
  mount_effect rt (first_render value now).

(** [[
  const refreshAnalytics = useCallback(() => {
    setIsLoading(true);
    setTimeout(() => {
      const newData = generateFakeAnalytics();
      setAnalyticsData(newData);
      setValue({ analyticsData: newData });
      setIsLoading(false);
    }, 800);
  }, [setValue]);
]] *)
Definition refresh_delay : Z := 800.

Definition refresh_callback (rt : Runtime) (w : Widget) : Widget :=
  let (newData, w1) := call_generator rt w in
  setIsLoading false (setValue (mkValue (Some newData)) (setAnalyticsData newData w1)).

Definition refreshAnalytics (w : Widget) : Widget :=
  setTimeout refresh_delay (setIsLoading true w).

(** The refresh button is rendered once there is a snapshot to show
    ([if (!analyticsData) return <div>Loading analytics...</div>]) and is
    [disabled={isLoading}]; a click reaches [onClick={refreshAnalytics}]
    only on a rendered, enabled button. *)
Definition button_enabled (w : Widget) : bool :=
  match shown w with
  | Some _ => negb (isLoading w)
  | None => false
  end.

Inductive Event : Type :=
| Click                 (* the user clicks where the refresh button is *)
| Elapse (ms : Z)       (* time passes *)
| Fire.                 (* the event loop runs the oldest timer, if due *)

Definition step (rt : Runtime) (w : Widget) (e : Event) : Widget :=
  match e with
  | Click => if button_enabled w then refreshAnalytics w else w
  | Elapse ms =>
      mkWidget (isLoading w) (shown w) (host_value w) (writes w) (timers w)
               (clock w + Z.max 0 ms)%Z (random_used w) (generator_calls w)
  | Fire =>
      match timers w with
      | due :: rest =>
          if (due <=? clock w)%Z then
            refresh_callback rt
              (mkWidget (isLoading w) (shown w) (host_value w) (writes w) rest
                        (clock w) (random_used w) (generator_calls w))
          else w
      | [] => w
      end
  end.

Definition run (rt : Runtime) (w : Widget) (es : list Event) : Widget :=
  fold_left (step rt) es w.

(** The display state of section 4.3 of the specification. *)
Inductive DisplayState : Type :=
| Loading
| Ready (s : AnalyticsData)
| Refreshing (s : AnalyticsData).

Definition displayState (w : Widget) : DisplayState :=
  match shown w with
  | None => Loading
  | Some s => if isLoading w then Refreshing s else Ready s
  end.

(** Modelled from the spec: how the result of [parseValue] becomes the
    value of [useValue]; [customElement/CustomElementContext] is not
    among the sources.  Section 4.3: a decoded [null] and an
    [InvalidValue] are treated identically (no prior value). *)
Inductive Decoded : Type :=
| DecodedNull
| DecodedInvalid
| DecodedValue (v : Value).

Definition initial_value (d : Decoded) : option Value :=
  match d with
  | DecodedNull | DecodedInvalid => None
  | DecodedValue v => Some v
  end.

(** Modelled from the spec: [Encode] of section 4.1, the serialization
    of the wrapper object that [customElement/CustomElementContext]
    (not among the sources) hands to the host; [JSON.stringify] is the
    serialization of which [parseValue]'s [JSON.parse] is the inverse. *)
Definition Encode (v : Value) : jsstring := JSON_stringify (Value_to_json v).

(** ** The parser, one level at a time *)

(** The bodies of the three functions of the parser, over the functions
    they call with less fuel. *)
Definition value_body
  (pe : jsstring -> option (list json * jsstring))
  (pm : jsstring -> option (list (jsstring * json) * jsstring))
  (s : jsstring) : option (json * jsstring) :=
  match skip_ws s with
  | [] => None
  | c :: r =>
      if (c =? lbrace)%N then
        match skip_ws r with
        | [] => None
        | c' :: r' =>
            if (c' =? rbrace)%N then Some (JObject [], r')
            else
              match pm (c' :: r') with
              | Some (ms, rest) => Some (JObject (build_object ms), rest)
              | None => None
              end
        end
      else if (c =? lbracket)%N then
        match skip_ws r with
        | [] => None
        | c' :: r' =>
            if (c' =? rbracket)%N then Some (JArray [], r')
            else
              match pe (c' :: r') with
              | Some (vs, rest) => Some (JArray vs, rest)
              | None => None
              end
        end
      else if (c =? dquote)%N then
        match parse_string_body r with
        | Some (str, rest) => Some (JString str, rest)
        | None => None
        end
      else
        match strip_prefix (lit "null") (c :: r) with
        | Some rest => Some (JNull, rest)
        | None =>
        match strip_prefix (lit "true") (c :: r) with
        | Some rest => Some (JBool true, rest)
        | None =>
        match strip_prefix (lit "false") (c :: r) with
        | Some rest => Some (JBool false, rest)
        | None =>
        match parse_number (c :: r) with
        | Some (x, rest) => Some (JNumber x, rest)
        | None => None
        end end end end
  end.

Definition elements_body
  (pv : jsstring -> option (json * jsstring))
  (pe : jsstring -> option (list json * jsstring))
  (s : jsstring) : option (list json * jsstring) :=
  match pv s with
  | None => None
  | Some (v, r) =>
      match skip_ws r with
      | [] => None
      | c :: r' =>
          if (c =? comma)%N then
            match pe r' with
            | Some (vs, rest) => Some (v :: vs, rest)
            | None => None
            end
          else if (c =? rbracket)%N then Some ([v], r')
          else None
      end
  end.

Definition members_body
  (pv : jsstring -> option (json * jsstring))
  (pm : jsstring -> option (list (jsstring * json) * jsstring))
  (s : jsstring) : option (list (jsstring * json) * jsstring) :=
  match skip_ws s with
  | [] => None
  | q :: r0 =>
      if (q =? dquote)%N then
        match parse_string_body r0 with
        | None => None
        | Some (k, r1) =>
            match skip_ws r1 with
            | [] => None
            | c1 :: r2 =>
                if (c1 =? colon)%N then
                  match pv r2 with
                  | None => None
                  | Some (v, r3) =>
                      match skip_ws r3 with
                      | [] => None
                      | c :: r' =>
                          if (c =? comma)%N then
                            match pm r' with
                            | Some (ms, rest) => Some ((k, v) :: ms, rest)
                            | None => None
                            end
                          else if (c =? rbrace)%N then Some ([(k, v)], r')
                          else None
                      end
                  end
                else None
            end
        end
      else None
  end.

(** A parser that consumes at least one character. *)
Definition shortens {A} (p : jsstring -> option (A * jsstring)) : Prop :=
  forall s a r, p s = Some (a, r) -> (List.length r < List.length s)%nat.

(** ** Predicates of the round trip *)

(** The result of parsing one more character in front. *)
Definition cons_result (c : N) (r : option (jsstring * jsstring)) :=
  match r with
  | Some (str, rest) => Some (c :: str, rest)
  | None => None
  end.

(** What may follow a run of digits, and what may follow a number. *)
Definition not_digit_head (rest : jsstring) : Prop :=
  match rest with
  | [] => True
  | c :: _ => char_digit c = None
  end.

Definition number_end (rest : jsstring) : Prop :=
  match rest with
  | [] => True
  | c :: _ => char_digit c = None /\ c <> 46%N /\ c <> 101%N /\ c <> 69%N
  end.

(** [parse_number] after the sign. *)
Definition parse_unsigned (neg : bool) (s1 : jsstring) : option (number * jsstring) :=
  match lex_int s1 with
  | None => None
  | Some (ip, s2) =>
      match lex_frac s2 with
      | None => None
      | Some (fp, s3) =>
          match lex_exp s3 with
          | None => None
          | Some (e, s4) => Some (number_of_literal neg ip fp e, s4)
          end
      end
  end.

(** Induction on JSON values, through the elements of arrays and the
    members of objects. *)
Definition json_induction (P : json -> Prop)
  (Hnull : P JNull) (Hbool : forall b, P (JBool b))
  (Hnum : forall x, P (JNumber x)) (Hstr : forall s, P (JString s))
  (Harr : forall l, Forall P l -> P (JArray l))
  (Hobj : forall ms, Forall (fun kv => P (snd kv)) ms -> P (JObject ms))
  : forall v, P v :=
  fix F (v : json) : P v :=
    match v with
    | JNull => Hnull
    | JBool b => Hbool b
    | JNumber x => Hnum x
    | JString s => Hstr s
    | JArray l =>
        Harr l ((fix G (l : list json) : Forall P l :=
                   match l with
                   | [] => Forall_nil P
                   | x :: r => Forall_cons x (F x) (G r)
                   end) l)
    | JObject ms =>
        Hobj ms ((fix G (ms : list (jsstring * json))
                   : Forall (fun kv => P (snd kv)) ms :=
                    match ms with
                    | [] => Forall_nil _
                    | kv :: r => Forall_cons kv (F (snd kv)) (G r)
                    end) ms)
    end.

(** The values that a JavaScript program can hold: numbers in
    canonical form, and no name twice in an object. *)
Fixpoint json_wf (v : json) : Prop :=
  match v with
  | JNumber x => canonical x
  | JArray l =>
      (fix all (l : list json) : Prop :=
         match l with
         | [] => True
         | x :: r => json_wf x /\ all r
         end) l
  | JObject ms =>
      NoDup (map fst ms) /\
      (fix all (ms : list (jsstring * json)) : Prop :=
         match ms with
         | [] => True
         | kv :: r => json_wf (snd kv) /\ all r
         end) ms
  | _ => True
  end.

(** The two loops of [JSON_stringify], by name. *)
Fixpoint stringify_elements (l : list json) : jsstring :=
  match l with
  | [] => []
  | x :: r =>
      JSON_stringify x ++
      match r with [] => [] | _ :: _ => comma :: stringify_elements r end
  end.

Fixpoint stringify_members (ms : list (jsstring * json)) : jsstring :=
  match ms with
  | [] => []
  | (k, x) :: r =>
      QuoteJSONString k ++ colon :: JSON_stringify x ++
      match r with [] => [] | _ :: _ => comma :: stringify_members r end
  end.

(** What follows a value inside the output of [JSON_stringify]. *)
Definition value_end (rest : jsstring) : Prop :=
  match rest with
  | [] => True
  | c :: _ => c = comma \/ c = rbracket \/ c = rbrace
  end.

(** A text whose first character starts a value. *)
Definition starts_value (s : jsstring) : Prop :=
  exists c tl, s = c :: tl /\ is_ws c = false /\
               (c =? rbracket)%N = false /\ (c =? rbrace)%N = false.

(** [v] is read back from its serialization, whatever follows it. *)
Definition parses_back (v : json) : Prop :=
  json_wf v ->
  forall fuel rest,
    (List.length (JSON_stringify v) < fuel)%nat -> value_end rest ->
    parse_value fuel (JSON_stringify v ++ rest) = Some (v, rest).

(** A well-formed snapshot, after section 3 of the specification: the
    counts are non-negative integers and the two measures are numbers. *)
Definition well_formed_snapshot (d : AnalyticsData) : Prop :=
  (0 <= pageViews d)%Z /\
  (0 <= uniqueVisitors d)%Z /\
  canonical (bounceRate d) /\
  canonical (avgTimeOnPage d) /\
  Forall (fun e => (0 <= views e)%Z) (pageViewsHistory d).

Definition well_formed_value (v : Value) : Prop :=
  match analyticsData v with
  | None => True
  | Some d => well_formed_snapshot d
  end.

(** ** Assumptions on the runtime, and predicates of the statements *)

(** What the theorems assume of the rounding [fl] of binary64
    arithmetic (round to nearest): it is monotone, exact on the integers
    up to [2^53], leaves its own results as they are, and has a relative
    error of at most [2^-53] on the positive numbers of the normal
    range. *)
Definition unit_roundoff : Q := 1 # 9007199254740992.
Definition min_normal : Q := 1 # (2 ^ 1022).
Definition max_normal : Q := inject_Z (2 ^ 1023).

Record binary64_rounding (f : Q -> Q) : Prop := {
  fl_monotone : forall x y, x <= y -> f x <= f y;
  fl_integer : forall z : Z,
      (Z.abs z <= 9007199254740992)%Z -> f (inject_Z z) == inject_Z z;
  fl_idempotent : forall x, f (f x) == f x;
  fl_error : forall x,
      min_normal <= x -> x <= max_normal -> Qabs (f x - x) <= x * unit_roundoff
}.

(** [Math.random] returns a number of [[0, 1)]. *)
Definition unit_interval (r : nat -> Q) : Prop := forall i, 0 <= r i /\ r i < 1.

(** Whether a parsed value has a property named [analyticsData]: only an
    object has named members. *)
Definition has_analyticsData (v : json) : bool :=
  match v with
  | JObject ms => has_key (lit "analyticsData") ms
  | _ => false
  end.

Definition is_primitive (v : json) : bool :=
  match v with
  | JObject _ | JArray _ => false
  | _ => true
  end.

(** At most one refresh is in flight: a timer is pending exactly while
    [isLoading] holds, and then a snapshot is on display. *)
Definition single_flight (w : Widget) : Prop :=
  (isLoading w = false /\ timers w = []) \/
  (isLoading w = true /\ shown w <> None /\ exists due, timers w = [due]).

(** The decoded values that carry no snapshot. *)
Definition no_snapshot (d : Decoded) : Prop :=
  match d with
  | DecodedNull | DecodedInvalid => True
  | DecodedValue v => analyticsData v = None
  end.

(** A string without the letter T. *)
Definition no_T (s : jsstring) : Prop := Forall (fun c => c <> 84%N) s.

(** The calendar day, in UTC, of the day number [d]. *)
Definition day_string (d : Z) : jsstring := JsDate.isoDate (d * JsDate.msPerDay).

(** Central European time around the start of summer time in 2026: the
    offset is one hour until 2026-03-29T01:00:00Z and two hours from
    then on; a local time in the skipped hour is read with the offset
    in force before the change. *)
Definition amsterdam_2026 : JsDate.TimeZone :=
  fun t isUTC =>
    let switch := 1774746000000%Z in
    if isUTC then (if t <? switch then 3600000 else 7200000)%Z
    else (if t <? switch + 7200000 then 3600000 else 7200000)%Z.

(** A runtime with exact arithmetic, for the examples. *)
Definition exact_runtime (tz : JsDate.TimeZone) (r : Q) : Runtime :=
  mkRuntime (fun x => x) tz (fun _ => r).

Definition utc : JsDate.TimeZone := fun _ _ => 0%Z.

Definition sample_runtime : Runtime := exact_runtime utc (1 # 2).

Definition sample_snapshot : AnalyticsData :=
  mkAnalyticsData 1200 800
    (number_shift (number_of_Z 355) 1) (number_shift (number_of_Z 1204) 1)
    (lit "2026-01-07T10:00:00.000Z")
    [mkEntry (lit "2026-01-06") 500; mkEntry (lit "2026-01-07") 700].

(** ** The presentation of [src/components/AnalyticsDashboard.tsx] *)

(** *** The value of a number

    The rational that the digits, the sign and the position of the
    point of a number write, and the double that stands for it in
    arithmetic: the one nearest to that rational. *)
Definition digit_step (a : Z) (d : digits) : Z :=
  (10 * a + Z.of_N (digit_value d))%Z.

Definition digits_Z (l : list digits) : Z := fold_left digit_step l 0%Z.

Definition number_value (x : number) : Q :=
  let m := if negative x then (- digits_Z (sig_digits x))%Z
           else digits_Z (sig_digits x) in
  let e := (point x - Z.of_nat (List.length (sig_digits x)))%Z in
  if (0 <=? e)%Z then inject_Z (m * 10 ^ e) else m # Z.to_pos (10 ^ (- e)).

Definition to_double (rt : Runtime) (x : number) : Q := fl rt (number_value x).

(** *** [formatTime] *)

(** The [%] of two numbers: the quotient is truncated, so that the
    remainder has the sign of the dividend, and the result is exact. *)
Definition Qtrunc (x : Q) : Z := if Qle_bool 0 x then Qfloor x else Qceiling x.

Definition js_rem (n d : Q) : Q := n - d * inject_Z (Qtrunc (n / d)).

(** [[
  const formatTime = (seconds: number) => {
    const mins = Math.floor(seconds / 60);
    const secs = Math.floor(seconds % 60);
    return `${mins}m ${secs}s`;
  };
]] *)
Definition formatTime (rt : Runtime) (seconds : Q) : jsstring :=
  let mins := Math_floor (fl rt (seconds / 60)) in
  let secs := Math_floor (js_rem seconds 60) in
  Number_toString (number_of_Z mins) ++ lit "m "
    ++ Number_toString (number_of_Z secs) ++ lit "s".

(** [value={formatTime(analyticsData.avgTimeOnPage)}] *)
Definition avgTime_text (rt : Runtime) (d : AnalyticsData) : jsstring :=
  formatTime rt (to_double rt (avgTimeOnPage d)).

(** [value={`${analyticsData.bounceRate}%`}] *)
Definition bounceRate_text (d : AnalyticsData) : jsstring :=
  Number_toString (bounceRate d) ++ lit "%".

(** [k] tenths, written with one decimal at most. *)
Definition tenths_text (k : Z) : jsstring :=
  Number_toString (number_of_Z (k / 10))
    ++ (if (k mod 10 =? 0)%Z then [] else lit "." ++ [Z.to_N (48 + k mod 10)]).

(** Whether the decimal of [200 + n] tenths is printed as [tenths_text]. *)
Definition tenths_text_agrees (n : nat) : bool :=
  let k := (200 + Z.of_nat n)%Z in
  jsstring_eqb (Number_toString (number_shift (number_of_Z k) 1)) (tenths_text k).

(** *** [StatCard] *)

Definition color_green : jsstring := lit "#10b981".
Definition color_red : jsstring := lit "#ef4444".
Definition color_gray : jsstring := lit "#6b7280".

(** [[
  const trendColor = trend !== undefined
    ? (trend > 0 ? '#10b981' : trend < 0 ? '#ef4444' : '#6b7280')
    : '#6b7280';
]]
    The property [trend] is optional; when given it is the result of a
    [Math.round], an integer. *)
Definition trendColor (trend : option Z) : jsstring :=
  match trend with
  | Some t =>
      if (t >? 0)%Z then color_green
      else if (t <? 0)%Z then color_red else color_gray
  | None => color_gray
  end.

(** The code units of the two arrows, U+2191 and U+2193. *)
Definition arrow_up : N := 8593%N.
Definition arrow_down : N := 8595%N.

(** [[
  {trend !== undefined && trend !== 0 && (
    <div style={{ fontSize: '12px', color: trendColor, marginTop: '8px' }}>
      {trend > 0 ? (up) : (down)} {Math.abs(trend)}% vs previous period
    </div>
  )}
]]
    The colour and the text of the line, when it is rendered. *)
Definition trend_line (trend : option Z) : option (jsstring * jsstring) :=
  match trend with
  | Some t =>
      if negb (t =? 0)%Z then
        Some (trendColor trend,
              [if (t >? 0)%Z then arrow_up else arrow_down] ++ lit " "
                ++ Number_toString (number_of_Z (Z.abs t))
                ++ lit "% vs previous period")
      else None
  | None => None
  end.

(** *** [Chart] *)

Definition Math_max (a b : Q) : Q := if Qle_bool a b then b else a.

(** [const maxViews = Math.max(...data.map(d => d.views), 1);] *)
Definition chart_maxViews (data : list HistoryEntry) : Z :=
  fold_right Z.max 1%Z (map views data).

Definition chartHeight : Q := 150.

(** [const barWidth = Math.max(30, (600 - (data.length * 10)) / data.length);]
    On empty data the quotient is [Infinity], which is no rational:
    [None]. *)
Definition chart_barWidth (rt : Runtime) (data : list HistoryEntry) : option Q :=
  match data with
  | [] => None
  | _ :: _ =>
      let n := inject_Z (Z.of_nat (List.length data)) in
      Some (Math_max 30 (fl rt ((600 - n * 10) / n)))
  end.

(** [const height = (day.views / maxViews) * chartHeight;] *)
Definition chart_bar_height (rt : Runtime) (data : list HistoryEntry)
  (day : HistoryEntry) : Q :=
  fl rt (fl rt (inject_Z (views day) / inject_Z (chart_maxViews data)) * chartHeight).

(** The width and the height of the bars, in the order of [data]. *)
Definition chart_bars (rt : Runtime) (data : list HistoryEntry)
  : list (option Q * Q) :=
  map (fun day => (chart_barWidth rt data, chart_bar_height rt data day)) data.

Module JsDateParse.
Import JsDate.
Local Open Scope Z_scope.

(** [WeekDay(t)]: 0 is Sunday. *)
Definition WeekDay (t : Z) : Z := (Day t + 4) mod 7.

(** The days of month [m] (0 to 11) of year [y]. *)
Definition DaysInMonth (y m : Z) : Z :=
  if m =? 1 then (if is_leap y then 29 else 28)
  else if (m =? 3) || (m =? 5) || (m =? 8) || (m =? 10) then 30
  else 31.

Definition digit_of (c : N) : option Z :=
  if ((48 <=? c) && (c <=? 57))%N then Some (Z.of_N c - 48) else None.

(** The number that a string of decimal digits writes. *)
Fixpoint digits_number (acc : Z) (s : jsstring) : option Z :=
  match s with
  | [] => Some acc
  | c :: r =>
      match digit_of c with
      | Some d => digits_number (10 * acc + d) r
      | None => None
      end
  end.

(** [Date.parse], which [new Date(string)] calls, on the date-only form
    [YYYY-MM-DD] of the Date Time String Format; that form is read as
    UTC.  [None] stands for every other string: the other forms of the
    format, and the strings outside it, which implementations read in
    their own ways or reject. *)
Definition Date_parse (s : jsstring) : option Z :=
  match s with
  | [y1; y2; y3; y4; s1; m1; m2; s2; t1; t2] =>
      match digits_number 0 [y1; y2; y3; y4],
            digits_number 0 [m1; m2], digits_number 0 [t1; t2] with
      | Some y, Some m, Some d =>
          if ((s1 =? 45) && (s2 =? 45))%N
             && (1 <=? m) && (m <=? 12) && (1 <=? d) && (d <=? DaysInMonth y (m - 1))
          then Some (MakeDate (MakeDay y (m - 1) d) 0)
          else None
      | _, _, _ => None
      end
  | _ => None
  end.

End JsDateParse.

(** The short weekday names of the locale en-US. *)
Definition weekday_short (d : Z) : jsstring :=
  if (d =? 0)%Z then lit "Sun" else if (d =? 1)%Z then lit "Mon"
  else if (d =? 2)%Z then lit "Tue" else if (d =? 3)%Z then lit "Wed"
  else if (d =? 4)%Z then lit "Thu" else if (d =? 5)%Z then lit "Fri"
  else lit "Sat".

(** [[
  const date = new Date(day.date);
  const dayLabel = date.toLocaleDateString('en-US', { weekday: 'short' });
]]
    The weekday is the one of the local time of the host. *)
Definition chart_dayLabel (tz : JsDate.TimeZone) (date : jsstring)
  : option jsstring :=
  match JsDateParse.Date_parse date with
  | Some t => Some (weekday_short (JsDateParse.WeekDay (JsDate.LocalTime tz t)))
  | None => None
  end.

(** *** The trends of a render *)

(** [Math.round((Math.random() - c) * scale)], for the outcome [r] of
    [Math.random]; the literal [c] is rounded when it is read. *)
Definition render_trend (rt : Runtime) (r c scale : Q) : Z :=
  Math_round (fl rt (fl rt (r - fl rt c) * scale)).

(** [[
  trend={Math.round((Math.random() - 0.3) * 20)}    (Page Views)
  trend={Math.round((Math.random() - 0.3) * 15)}    (Unique Visitors)
  trend={Math.round((Math.random() - 0.5) * 10)}    (Bounce Rate)
  trend={Math.round((Math.random() - 0.2) * 15)}    (Avg. Time on Page)
]]
    The [trend] properties of the four cards, in the order of the
    markup, which is the order of their evaluation; the render draws its
    random numbers after [used] others. *)
Definition render_trends (rt : Runtime) (used : nat) : Z * Z * Z * Z :=
  (render_trend rt (random rt used) (3 # 10) 20,
   render_trend rt (random rt (used + 1)) (3 # 10) 15,
   render_trend rt (random rt (used + 2)) (5 # 10) 10,
   render_trend rt (random rt (used + 3)) (2 # 10) 15).

(** ** Predicates of the further properties *)

(** The states the component reaches: the mount, then any events. *)
Definition session (rt : Runtime) (value : option Value) (now : Z)
  (es : list Event) : Widget :=
  run rt (mount rt value now) es.

Fixpoint clicks (es : list Event) : nat :=
  match es with
  | [] => O
  | Click :: r => S (clicks r)
  | _ :: r => clicks r
  end.

(** What holds of every state of a session. *)
Record steady (w : Widget) : Prop := {
  steady_flight : single_flight w;
  steady_shown :
    exists s, shown w = Some s /\ host_value w = Some (mkValue (Some s));
  steady_writes : Forall (fun v => analyticsData v <> None) (writes w);
  steady_last :
    match writes w with [] => True | v :: _ => host_value w = Some v end;
  steady_calls : generator_calls w = List.length (writes w);
  steady_due : Forall (fun due => (due <= clock w + refresh_delay)%Z) (timers w)
}.

(** Where the snapshots of a session come from: the clock has not gone
    back since the mount at [now], every value written is a wrapper of
    the generator's output at some time since, and before the first
    write the component shows and holds what it was mounted on. *)
Record provenance (rt : Runtime) (value : option Value) (now : Z) (w : Widget)
  : Prop := {
  prov_clock : (now <= clock w)%Z;
  prov_writes :
    Forall (fun v => exists t u, (now <= t <= clock w)%Z /\
                       v = mkValue (Some (generateFakeAnalytics rt t u)))
           (writes w);
  prov_initial :
    writes w = [] -> shown w = value_snapshot value /\ host_value w = value
}.

(** The value the host holds is well formed. *)
Definition host_well_formed (w : Widget) : Prop :=
  match host_value w with
  | Some v => well_formed_value v
  | None => True
  end.



Definition list_sum_Z (l : list Z) : Z := fold_right Z.add 0%Z l.

(** Round to nearest is symmetric: the relative error is also at most
    [2^-53] on the negative numbers of the normal range. *)
Record binary64_rounding_signed (f : Q -> Q) : Prop := {
  fl_positive : binary64_rounding f;
  fl_error_negative : forall x,
      x <= - min_normal -> - max_normal <= x ->
      Qabs (f x - x) <= (- x) * unit_roundoff
}.

Definition up1 : Q := 1 + unit_roundoff.
Definition dn1 : Q := 1 - unit_roundoff.

(** Any two offsets of the zone differ by less than a day. *)
Definition offsets_within_a_day (tz : JsDate.TimeZone) : Prop :=
  forall t b t' b', (Z.abs (tz t b - tz t' b') < JsDate.msPerDay)%Z.

(** The time values whose year, and the year six days before, is
    written with four digits. *)
Definition four_digit_years (now : Z) : Prop :=
  (0 <= JsDate.YearFromTime (now - 6 * JsDate.msPerDay))%Z /\
  (JsDate.YearFromTime now <= 9999)%Z.

(** 2026-01-07T10:00:00Z. *)
Definition sample_now : Z := 1767780000000.

(* ================================================================== *)
(** * Part II: properties *)
(* ================================================================== *)

(** ** The config gate *)

(** C6: [isConfig] answers [false] exactly on [null]; every object,
    the empty one included, is accepted, whatever its members. *)
Theorem isConfig_false_iff_null :
  (forall value, isConfig value = false <-> value = None) /\
  (forall members, isConfig (Some members) = true) /\
  isConfig (Some []) = true /\
  isConfig None = false.
Proof.
  repeat split; try reflexivity.
  - destruct value; [discriminate | reflexivity].
  - intros ->. reflexivity.
Qed.

(** ** [parseValue] *)

Lemma isValidValue_cases (v : json) :
  isValidValue v =
    if is_primitive v then Throw TypeError else Normal (has_analyticsData v).
Proof. destruct v; reflexivity. Qed.

Lemma parseValue_unfold (s : jsstring) :
  parseValue (Some s) =
    match JSON_parse s with
    | Throw _ => Normal InvalidValue
    | Normal v =>
        Normal (if has_analyticsData v then ParsedValue v else InvalidValue)
    end.
Proof.
  unfold parseValue, try_catch, bind.
  destruct (JSON_parse s) as [v | e]; [| reflexivity].
  rewrite isValidValue_cases.
  destruct v; simpl; try reflexivity;
    match goal with |- context [has_key ?k ?m] => destruct (has_key k m) end;
    reflexivity.
Qed.

(** C2: [parseValue(null)] is [null]; on a string, the result is
    [InvalidValue] exactly when [JSON.parse] rejects the string or the
    parsed value has no [analyticsData] property, and is otherwise the
    parsed value itself, whatever is stored under [analyticsData]. *)
Theorem parseValue_presence_check :
  parseValue None = Normal ParsedNull /\
  (forall s,
      parseValue (Some s) = Normal InvalidValue <->
      ((exists e, JSON_parse s = Throw e) \/
       (exists v, JSON_parse s = Normal v /\ has_analyticsData v = false))) /\
  (forall s,
      parseValue (Some s) =
        match JSON_parse s with
        | Throw _ => Normal InvalidValue
        | Normal v =>
            if has_analyticsData v then Normal (ParsedValue v)
            else Normal InvalidValue
        end).
Proof.
  split; [reflexivity |]. split.
  - intro s. rewrite parseValue_unfold.
    destruct (JSON_parse s) as [v | e].
    + destruct (has_analyticsData v) eqn:Hv; split.
      * discriminate.
      * intros [[e He] | [v' [Hv' Hf]]]; [discriminate |].
        injection Hv' as <-. congruence.
      * intros _. right. exists v. split; [reflexivity | exact Hv].
      * reflexivity.
    + split; [| reflexivity]. intros _. left. exists e. reflexivity.
  - intro s. rewrite parseValue_unfold.
    destruct (JSON_parse s) as [v | e]; [| reflexivity].
    destruct (has_analyticsData v); reflexivity.
Qed.

(** The examples of section 8 of the specification. *)
Example parseValue_empty_object :
  parseValue (Some (lit "{}")) = Normal InvalidValue.
Proof. vm_compute. reflexivity. Qed.

Example parseValue_not_json :
  parseValue (Some (lit "not json")) = Normal InvalidValue.
Proof. vm_compute. reflexivity. Qed.

Example parseValue_present_but_null :
  parseValue (Some (lit "{" ++ QuoteJSONString (lit "analyticsData") ++ lit ": null}"))
  = Normal (ParsedValue (Value_to_json (mkValue None))).
Proof. vm_compute. reflexivity. Qed.

Example parseValue_wrong_typed :
  parseValue (Some (lit "{" ++ QuoteJSONString (lit "analyticsData") ++ lit ":[true, 12.5]}"))
  = Normal (ParsedValue
              (JObject [(lit "analyticsData",
                         JArray [JBool true;
                                 JNumber (mkNumber false [d1; d2; d5] 2)])])).
Proof. vm_compute. reflexivity. Qed.

(** C9: [parseValue] returns normally on every input.  The membership
    test throws a TypeError on [null] and on every primitive, and
    [JSON.parse] throws on malformed text; whenever either of them
    throws, the result is [InvalidValue]. *)
Theorem parseValue_never_throws :
  (forall input, exists r, parseValue input = Normal r) /\
  (forall v, is_primitive v = true <-> isValidValue v = Throw TypeError) /\
  (forall s,
      match JSON_parse s with
      | Throw _ => parseValue (Some s) = Normal InvalidValue
      | Normal v =>
          match isValidValue v with
          | Throw _ => parseValue (Some s) = Normal InvalidValue
          | Normal _ => True
          end
      end).
Proof.
  split; [| split].
  - intros [s |]; [| eexists; reflexivity].
    rewrite parseValue_unfold.
    destruct (JSON_parse s) as [v | e]; eexists; reflexivity.
  - intro v. rewrite isValidValue_cases.
    destruct (is_primitive v); split; intro H; try reflexivity; discriminate.
  - intro s. generalize (parseValue_unfold s).
    destruct (JSON_parse s) as [v | e]; [| tauto].
    rewrite isValidValue_cases.
    destruct v; simpl; trivial.
Qed.

Example parseValue_json_null :
  JSON_parse (lit "null") = Normal JNull /\
  isValidValue JNull = Throw TypeError /\
  parseValue (Some (lit "null")) = Normal InvalidValue.
Proof. vm_compute. repeat split. Qed.

Example parseValue_json_number :
  JSON_parse (lit "12") = Normal (JNumber (number_of_Z 12)) /\
  parseValue (Some (lit "12")) = Normal InvalidValue.
Proof. vm_compute. repeat split. Qed.

(** ** The generator: shape of the result *)

Lemma generateFakeAnalytics_history_length rt now used :
  List.length (pageViewsHistory (generateFakeAnalytics rt now used)) = 7%nat.
Proof. reflexivity. Qed.

(** ** The controller *)

Lemma single_flight_mount rt value now : single_flight (mount rt value now).
Proof.
  left. unfold mount, mount_effect.
  destruct (value_snapshot (host_value (first_render value now)));
    simpl; split; reflexivity.
Qed.

(** A click while a refresh is pending reaches no handler. *)
Lemma click_while_loading rt w :
  isLoading w = true -> step rt w Click = w.
Proof.
  intro Hl. simpl. unfold button_enabled. rewrite Hl.
  destruct (shown w); reflexivity.
Qed.

Lemma single_flight_step rt w e :
  single_flight w -> single_flight (step rt w e).
Proof.
  intros [[Hl Ht] | [Hl [Hs [due Ht]]]]; destruct e.
  - simpl. unfold button_enabled. destruct (shown w) eqn:Hs.
    + rewrite Hl. simpl. right. simpl. rewrite Hs, Ht.
      split; [reflexivity |]. split; [discriminate |].
      eexists; reflexivity.
    + left. split; assumption.
  - left. split; assumption.
  - simpl. rewrite Ht. left. split; assumption.
  - rewrite click_while_loading by exact Hl.
    right. split; [exact Hl |]. split; [exact Hs |]. exists due. exact Ht.
  - right. split; [exact Hl |]. split; [exact Hs |]. exists due. exact Ht.
  - simpl. rewrite Ht. destruct (due <=? clock w)%Z.
    + left. split; reflexivity.
    + right. split; [exact Hl |]. split; [exact Hs |]. exists due. exact Ht.
Qed.

Lemma single_flight_run rt es : forall w,
  single_flight w -> single_flight (run rt w es).
Proof.
  induction es as [| e es IH]; intros w Hw; simpl.
  - exact Hw.
  - apply IH. apply single_flight_step. exact Hw.
Qed.

(** [refreshAnalytics] itself has no guard: called in a state where a
    refresh is pending, it sets a second timer.  The single flight rests
    on the [disabled] button, through which every call passes. *)
Lemma refreshAnalytics_unguarded w :
  timers (refreshAnalytics (refreshAnalytics w))
  = timers w ++ [(clock w + 800)%Z; (clock w + 800)%Z].
Proof.
  unfold refreshAnalytics, setTimeout, setIsLoading, refresh_delay.
  cbn [timers clock]. rewrite <- app_assoc. reflexivity.
Qed.

(** C1: a refresh triggered from [Ready S0] shows [Refreshing S0] at
    once; while it is pending a further click changes nothing, and so
    does the event loop before 800 ms have passed; once they have, the
    callback runs the generator once, shows its snapshot as [Ready] and
    writes it, whether or not a second click came in between. *)
Theorem refresh_single_flight rt w S0 :
  single_flight w ->
  displayState w = Ready S0 ->
  let w1 := step rt w Click in
  displayState w1 = Refreshing S0 /\
  generator_calls w1 = generator_calls w /\
  writes w1 = writes w /\
  host_value w1 = host_value w /\
  timers w1 = [(clock w + 800)%Z] /\
  step rt w1 Click = w1 /\
  (forall ms, (ms < 800)%Z ->
      let w2 := step rt w1 (Elapse ms) in
      step rt w2 Click = w2 /\ step rt w2 Fire = w2 /\
      displayState w2 = Refreshing S0) /\
  (forall a b, (0 <= a)%Z -> (0 <= b)%Z -> (800 <= a + b)%Z ->
      let S1 := generateFakeAnalytics rt (clock w + (a + b))%Z (random_used w) in
      let w3 := run rt w [Click; Elapse a; Click; Elapse b; Fire] in
      w3 = run rt w [Click; Elapse (a + b); Fire] /\
      displayState w3 = Ready S1 /\
      host_value w3 = Some (mkValue (Some S1)) /\
      writes w3 = mkValue (Some S1) :: writes w /\
      generator_calls w3 = S (generator_calls w) /\
      timers w3 = []).
Proof.
  intros Hinv Hready.
  assert (Hs : shown w = Some S0 /\ isLoading w = false).
  { unfold displayState in Hready. destruct (shown w); [| discriminate].
    destruct (isLoading w); [discriminate |]. injection Hready as ->. auto. }
  destruct Hs as [Hs Hl].
  assert (Ht : timers w = []).
  { destruct Hinv as [[_ Ht] | [Hl' _]]; [exact Ht | congruence]. }
  assert (Hw1 : step rt w Click
                = mkWidget true (Some S0) (host_value w) (writes w)
                           [(clock w + 800)%Z] (clock w) (random_used w)
                           (generator_calls w)).
  { simpl. unfold button_enabled. rewrite Hs, Hl. simpl.
    unfold refreshAnalytics, setTimeout, setIsLoading, refresh_delay. simpl.
    rewrite Hs, Ht. reflexivity. }
  cbv zeta. rewrite Hw1.
  do 6 (split; [reflexivity |]).
  split.
  - intros ms Hms. simpl.
    assert (Hlt : (clock w + 800 <=? clock w + Z.max 0 ms)%Z = false)
      by (apply Z.leb_gt; lia).
    rewrite Hlt. repeat split; reflexivity.
  - intros a b Ha Hb Hab.
    assert (Hrun : run rt w [Click; Elapse a; Click; Elapse b; Fire]
                   = run rt w [Click; Elapse (a + b); Fire]).
    { unfold run. cbn [fold_left]. rewrite Hw1. simpl.
      replace (clock w + Z.max 0 a + Z.max 0 b)%Z
        with (clock w + Z.max 0 (a + b))%Z by lia.
      reflexivity. }
    split; [exact Hrun |]. rewrite Hrun.
    unfold run. cbn [fold_left]. rewrite Hw1. simpl.
    assert (Hle : (clock w + 800 <=? clock w + Z.max 0 (a + b))%Z = true)
      by (apply Z.leb_le; lia).
    rewrite Hle. simpl.
    replace (clock w + Z.max 0 (a + b))%Z with (clock w + (a + b))%Z by lia.
    repeat split; reflexivity.
Qed.

Lemma refresh_single_flight_witness :
  let w := mount sample_runtime (Some (mkValue (Some sample_snapshot))) 0 in
  single_flight w /\
  displayState w = Ready sample_snapshot /\
  displayState (step sample_runtime w Click) = Refreshing sample_snapshot /\
  step sample_runtime (step sample_runtime w Click) Click
  = step sample_runtime w Click.
Proof.
  intro w.
  assert (H1 : single_flight w) by (left; split; reflexivity).
  assert (H2 : displayState w = Ready sample_snapshot) by reflexivity.
  split; [exact H1 |]. split; [exact H2 |].
  pose proof (@refresh_single_flight sample_runtime w sample_snapshot H1 H2) as H.
  cbv zeta in H. destruct H as (Ha & _ & _ & _ & _ & Hb & _).
  split; [exact Ha | exact Hb].
Defined.

(** C5: mounted on a persisted snapshot [S0], the component shows
    [Ready S0], calls neither [setValue] nor the generator, leaves the
    persisted value as it was and has nothing pending. *)
Theorem mount_with_snapshot rt S0 now :
  let v := mkValue (Some S0) in
  let w := mount rt (Some v) now in
  displayState w = Ready S0 /\
  writes w = [] /\
  generator_calls w = 0%nat /\
  random_used w = 0%nat /\
  host_value w = Some v /\
  timers w = [] /\
  (forall es, Forall (fun e => e <> Click) es ->
      let w' := run rt w es in
      displayState w' = Ready S0 /\ writes w' = [] /\
      generator_calls w' = 0%nat /\ host_value w' = Some v).
Proof.
  cbv zeta. do 6 (split; [reflexivity |]).
  intros es Hes.
  set (w := mount rt (Some (mkValue (Some S0))) now).
  assert (H : forall w0,
             displayState w0 = Ready S0 /\ writes w0 = [] /\
             generator_calls w0 = 0%nat /\
             host_value w0 = Some (mkValue (Some S0)) /\ timers w0 = [] ->
             displayState (run rt w0 es) = Ready S0 /\ writes (run rt w0 es) = [] /\
             generator_calls (run rt w0 es) = 0%nat /\
             host_value (run rt w0 es) = Some (mkValue (Some S0)) /\
             timers (run rt w0 es) = []).
  { induction Hes as [| e es He Hes IH]; intros w0 Hw0; [exact Hw0 |].
    simpl. apply IH. destruct Hw0 as (Hd & Hwr & Hg & Hh & Ht).
    destruct e; [congruence | |]; simpl.
    - repeat split; assumption.
    - rewrite Ht. repeat split; assumption. }
  destruct (H w) as (Hd & Hwr & Hg & Hh & _).
  - repeat split; reflexivity.
  - repeat split; assumption.
Qed.

(** C4: mounted on nothing ([null], [InvalidValue], or a value whose
    [analyticsData] is [null]), the component calls the generator once,
    shows its snapshot, of seven history entries, as [Ready], and writes
    it once; later timer and clock events generate and write nothing
    more. *)
Theorem mount_without_snapshot rt d now :
  no_snapshot d ->
  let w := mount rt (initial_value d) now in
  let s := generateFakeAnalytics rt now 0 in
  generator_calls w = 1%nat /\
  displayState w = Ready s /\
  List.length (pageViewsHistory s) = 7%nat /\
  writes w = [mkValue (Some s)] /\
  host_value w = Some (mkValue (Some s)) /\
  timers w = [] /\
  (forall es, Forall (fun e => e <> Click) es ->
      let w' := run rt w es in
      generator_calls w' = 1%nat /\ writes w' = [mkValue (Some s)] /\
      displayState w' = Ready s).
Proof.
  intros Hd. cbv zeta.
  assert (Hv : value_snapshot (initial_value d) = None).
  { destruct d as [| | v]; simpl; trivial. }
  set (s := generateFakeAnalytics rt now 0).
  assert (Hw : mount rt (initial_value d) now
               = mkWidget false (Some s) (Some (mkValue (Some s)))
                          [mkValue (Some s)] [] now randoms_per_call 1).
  { unfold mount, mount_effect, first_render. simpl. rewrite Hv. reflexivity. }
  rewrite Hw. do 6 (split; [reflexivity |]).
  intros es Hes.
  set (w := mkWidget false (Some s) (Some (mkValue (Some s)))
                     [mkValue (Some s)] [] now randoms_per_call 1).
  assert (H : forall w0,
             generator_calls w0 = 1%nat /\ writes w0 = [mkValue (Some s)] /\
             displayState w0 = Ready s /\ timers w0 = [] ->
             generator_calls (run rt w0 es) = 1%nat /\
             writes (run rt w0 es) = [mkValue (Some s)] /\
             displayState (run rt w0 es) = Ready s /\
             timers (run rt w0 es) = []).
  { induction Hes as [| e es He Hes IH]; intros w0 Hw0; [exact Hw0 |].
    simpl. apply IH. destruct Hw0 as (Hg & Hwr & Hds & Ht).
    destruct e; [congruence | |]; simpl.
    - repeat split; assumption.
    - rewrite Ht. repeat split; assumption. }
  destruct (H w) as (Hg & Hwr & Hds & _).
  - repeat split; reflexivity.
  - repeat split; assumption.
Qed.

Lemma mount_without_snapshot_witness :
  no_snapshot DecodedInvalid /\
  let w := mount sample_runtime (initial_value DecodedInvalid) 0 in
  generator_calls w = 1%nat /\
  List.length (writes w) = 1%nat.
Proof.
  split; [exact I |].
  pose proof (@mount_without_snapshot sample_runtime DecodedInvalid 0%Z I) as H.
  cbv zeta in H. destruct H as (Ha & _ & _ & Hb & _).
  cbv zeta. split; [exact Ha |]. rewrite Hb. reflexivity.
Defined.

(** C10: every step either writes nothing or writes [{analyticsData: d}]
    for the very [d] it leaves on display, and the same holds of the
    mount. *)
Theorem write_matches_display rt :
  (forall w e,
      let w' := step rt w e in
      writes w' = writes w \/
      exists d, writes w' = mkValue (Some d) :: writes w /\
                host_value w' = Some (mkValue (Some d)) /\
                shown w' = Some d) /\
  (forall value now,
      let w' := mount rt value now in
      (writes w' = [] /\ host_value w' = value) \/
      exists d, writes w' = [mkValue (Some d)] /\
                host_value w' = Some (mkValue (Some d)) /\
                shown w' = Some d).
Proof.
  split.
  - intros w e. cbv zeta. destruct e; simpl.
    + left. destruct (button_enabled w); reflexivity.
    + left. reflexivity.
    + destruct (timers w) as [| due rest]; [left; reflexivity |].
      destruct (due <=? clock w)%Z; [| left; reflexivity].
      right. eexists. repeat split.
  - intros value now. cbv zeta. unfold mount, mount_effect, first_render. simpl.
    destruct (value_snapshot value) eqn:Hv.
    + left. split; reflexivity.
    + right. eexists. repeat split.
Qed.

(** ** The generator: numeric bounds *)

Section Generator.
Variable rt : Runtime.
Hypothesis Hfl : binary64_rounding (fl rt).
Hypothesis Hrand : unit_interval (random rt).

Lemma fl_0 : fl rt 0 == 0.
Proof. apply (fl_integer Hfl 0). simpl. lia. Qed.

Lemma fl_nonneg x : 0 <= x -> 0 <= fl rt x.
Proof. intro H. rewrite <- fl_0. apply (fl_monotone Hfl). exact H. Qed.

Lemma fl_le_int x (z : Z) :
  (Z.abs z <= 9007199254740992)%Z -> x <= inject_Z z -> fl rt x <= inject_Z z.
Proof.
  intros Hz H. rewrite <- (fl_integer Hfl z Hz).
  apply (fl_monotone Hfl). exact H.
Qed.

Lemma fl_upper x :
  min_normal <= x -> x <= max_normal -> fl rt x <= x * (1 + unit_roundoff).
Proof.
  intros Hlo Hhi. pose proof (fl_error Hfl Hlo Hhi) as He.
  apply Qabs_Qle_condition in He. destruct He as [_ He]. lra.
Qed.

Lemma normal_range_tenths (k : Z) :
  (1 <= k <= 10)%Z ->
  min_normal <= k # 10 /\ k # 10 <= max_normal.
Proof.
  intro Hk. unfold min_normal, max_normal, Qle. cbn [Qnum Qden inject_Z].
  assert (H1 : (2 <= Z.pos (2 ^ 1022))%Z) by (vm_compute; discriminate).
  assert (H2 : (2 <= 2 ^ 1023)%Z) by (vm_compute; discriminate).
  split; nia.
Qed.

(** [Math.floor(Math.random() * 500) + 100] *)
Lemma history_views_bounds now used i :
  (100 <= views (history_entry rt now used i) <= 600)%Z.
Proof.
  unfold history_entry. cbn [views]. unfold Math_floor.
  destruct (Hrand (used + i)%nat) as [H0 H1].
  set (r := random rt (used + i)%nat) in *.
  assert (Hlo : 0 <= fl rt (r * 500)) by (apply fl_nonneg; lra).
  assert (Hhi : fl rt (r * 500) <= inject_Z 500).
  { apply fl_le_int; [simpl; lia |]. change (inject_Z 500) with 500. lra. }
  apply Qfloor_resp_le in Hlo. apply Qfloor_resp_le in Hhi.
  rewrite Qfloor_Z in Hhi. change (Qfloor 0) with 0%Z in Hlo. lia.
Qed.

Lemma pageViews_bounds now used :
  (700 <= pageViews (generateFakeAnalytics rt now used) <= 4200)%Z.
Proof.
  unfold generateFakeAnalytics. cbn [pageViews]. unfold historyDays.
  cbn [seq map fold_left].
  pose proof (history_views_bounds now used 0).
  pose proof (history_views_bounds now used 1).
  pose proof (history_views_bounds now used 2).
  pose proof (history_views_bounds now used 3).
  pose proof (history_views_bounds now used 4).
  pose proof (history_views_bounds now used 5).
  pose proof (history_views_bounds now used 6).
  lia.
Qed.

(** [0.6 + Math.random() * 0.2], with every operation rounded. *)
Lemma visitors_factor_bounds r :
  0 <= r -> r < 1 ->
  let f := fl rt in
  0 <= f (f (6 # 10) + f (r * f (2 # 10))) <= 1.
Proof.
  intros H0 H1 f. subst f.
  destruct (@normal_range_tenths 6%Z ltac:(lia)) as [Hn6 Hx6].
  destruct (@normal_range_tenths 2%Z ltac:(lia)) as [Hn2 Hx2].
  assert (Ha : 0 <= fl rt (6 # 10)) by (apply fl_nonneg; lra).
  assert (Ha' : fl rt (6 # 10) <= (6 # 10) * (1 + unit_roundoff))
    by (apply fl_upper; assumption).
  assert (Hb : 0 <= fl rt (2 # 10)) by (apply fl_nonneg; lra).
  assert (Hb' : fl rt (2 # 10) <= (2 # 10) * (1 + unit_roundoff))
    by (apply fl_upper; assumption).
  assert (Hbb : fl rt (fl rt (2 # 10)) == fl rt (2 # 10))
    by apply (fl_idempotent Hfl).
  set (a := fl rt (6 # 10)) in *. set (b := fl rt (2 # 10)) in *.
  assert (Hp : 0 <= r * b) by nra.
  assert (Hp' : r * b <= b) by nra.
  assert (Hc : 0 <= fl rt (r * b)) by (apply fl_nonneg; exact Hp).
  assert (Hc' : fl rt (r * b) <= b).
  { apply Qle_trans with (fl rt b).
    - apply (fl_monotone Hfl). exact Hp'.
    - apply Qle_lteq. right. exact Hbb. }
  set (c := fl rt (r * b)) in *.
  unfold unit_roundoff in *.
  split.
  - apply fl_nonneg. lra.
  - change 1 with (inject_Z 1). apply fl_le_int; [simpl; lia |].
    change (inject_Z 1) with 1. lra.
Qed.

Lemma uniqueVisitors_nonneg now used :
  (0 <= uniqueVisitors (generateFakeAnalytics rt now used))%Z.
Proof.
  pose proof (pageViews_bounds now used) as Hpv.
  unfold generateFakeAnalytics in *. cbn [uniqueVisitors pageViews] in *.
  set (total := fold_left _ _ _) in *.
  destruct (Hrand (used + historyDays)%nat) as [H0 H1].
  pose proof (visitors_factor_bounds H0 H1) as Hf. cbv zeta in Hf.
  unfold Math_floor. change 0%Z with (Qfloor 0).
  apply Qfloor_resp_le. apply fl_nonneg.
  assert (Ht : 0 <= inject_Z total).
  { change 0 with (inject_Z 0). rewrite <- Zle_Qle. lia. }
  nra.
Qed.

(** C7: whatever [Math.random] returns, the generated snapshot has
    [0 <= uniqueVisitors <= pageViews]. *)
Theorem uniqueVisitors_le_pageViews now used :
  let s := generateFakeAnalytics rt now used in
  (0 <= uniqueVisitors s <= pageViews s)%Z.
Proof.
  intro s. pose proof (pageViews_bounds now used) as Hpv. fold s in Hpv.
  subst s. unfold generateFakeAnalytics in *.
  cbn [uniqueVisitors pageViews] in *.
  set (total := fold_left _ _ _) in *.
  destruct (Hrand (used + historyDays)%nat) as [H0 H1].
  pose proof (visitors_factor_bounds H0 H1) as Hf. cbv zeta in Hf.
  set (g := fl rt (fl rt (6 # 10)
                   + fl rt (random rt (used + historyDays)%nat * fl rt (2 # 10))))
    in *.
  unfold Math_floor.
  assert (Ht : 0 <= inject_Z total).
  { change 0 with (inject_Z 0). rewrite <- Zle_Qle. lia. }
  assert (Hlo : 0 <= fl rt (inject_Z total * g)) by (apply fl_nonneg; nra).
  assert (Hhi : fl rt (inject_Z total * g) <= inject_Z total).
  { apply fl_le_int; [lia |]. nra. }
  apply Qfloor_resp_le in Hlo. apply Qfloor_resp_le in Hhi.
  rewrite Qfloor_Z in Hhi. change (Qfloor 0) with 0%Z in Hlo. lia.
Qed.

End Generator.

Lemma exact_rounding : binary64_rounding (fun x : Q => x).
Proof.
  constructor.
  - intros x y H. exact H.
  - intros z _. reflexivity.
  - intro x. reflexivity.
  - intros x Hlo _. setoid_replace (x - x) with 0 by ring.
    assert (H0 : 0 <= x).
    { apply Qle_trans with min_normal; [discriminate | exact Hlo]. }
    simpl. apply Qmult_le_0_compat; [exact H0 | discriminate].
Qed.

Lemma uniqueVisitors_le_pageViews_witness :
  binary64_rounding (fl sample_runtime) /\
  unit_interval (random sample_runtime) /\
  let s := generateFakeAnalytics sample_runtime 0 0 in
  (0 <= uniqueVisitors s <= pageViews s)%Z.
Proof.
  assert (H1 : binary64_rounding (fl sample_runtime)) by exact exact_rounding.
  assert (H2 : unit_interval (random sample_runtime))
    by (intro i; split; [discriminate | reflexivity]).
  split; [exact H1 |]. split; [exact H2 |].
  exact (@uniqueVisitors_le_pageViews sample_runtime H1 H2 0%Z 0%nat).
Defined.

(** ** The generator: the days of the history *)

Module DateFacts.
Import JsDate.
Local Open Scope Z_scope.

(** [YearFromTime t] is the largest [y] whose first day is not after
    [t], as ECMAScript defines it. *)
Lemma YearFromTime_spec t :
  DayFromYear (YearFromTime t) <= Day t < DayFromYear (YearFromTime t + 1).
Proof.
  unfold YearFromTime. set (d := Day t). cbv zeta.
  set (y := 1970 + d * 400 / 146097).
  destruct (d <? DayFromYear y) eqn:H1;
    [apply Z.ltb_lt in H1 | apply Z.ltb_ge in H1].
  - split.
    + unfold DayFromYear in *. subst y.
      Z.to_euclidean_division_equations. lia.
    + replace (y - 1 + 1) with y by lia. exact H1.
  - destruct (DayFromYear (y + 1) <=? d) eqn:H2;
      [apply Z.leb_le in H2 | apply Z.leb_gt in H2].
    + split; [exact H2 |]. unfold DayFromYear in *. subst y.
      Z.to_euclidean_division_equations. lia.
    + split; assumption.
Qed.

Lemma MonthFromTime_range t : 0 <= MonthFromTime t <= 11.
Proof.
  unfold MonthFromTime. cbv zeta.
  repeat match goal with |- context [if ?b then _ else _] => destruct b end;
    lia.
Qed.

(** Moving the day of the month by [k] moves the local time by [k]
    days. *)
Lemma setDate_getDate tz t k :
  setDate tz t (getDate tz t - k) = UTC tz (LocalTime tz t - k * msPerDay).
Proof.
  unfold setDate, getDate. cbv zeta. f_equal.
  set (lt := LocalTime tz t).
  pose proof (MonthFromTime_range lt) as Hm.
  unfold MakeDate, MakeDay. cbv zeta.
  rewrite (Z.div_small (MonthFromTime lt) 12) by lia.
  rewrite (Z.mod_small (MonthFromTime lt) 12) by lia.
  rewrite Z.add_0_r.
  unfold DateFromTime, DayWithinYear, InLeapYear, TimeWithinDay, Day.
  pose proof (Z.div_mod lt msPerDay). unfold msPerDay in *.
  Z.to_euclidean_division_equations. lia.
Qed.

Lemma split_first_app a b :
  no_T a -> split_first 84%N (a ++ 84%N :: b) = a.
Proof.
  induction 1 as [| c a Hc Ha IH]; simpl.
  - reflexivity.
  - destruct (N.eqb_spec c 84); [contradiction |]. rewrite IH. reflexivity.
Qed.

Lemma pad_no_T w : forall n, no_T (pad w n).
Proof.
  induction w as [| w IH]; intro n; cbn [pad].
  - constructor.
  - apply Forall_app. split; [apply IH |].
    constructor; [| constructor].
    pose proof (Z.mod_pos_bound n 10 ltac:(lia)) as Hm.
    set (m := n mod 10) in *. clearbody m. lia.
Qed.

Lemma year_string_no_T y : no_T (year_string y).
Proof.
  unfold year_string. destruct ((0 <=? y) && (y <=? 9999)).
  - apply pad_no_T.
  - apply Forall_app. split; [| apply pad_no_T].
    destruct (y <? 0); repeat constructor; discriminate.
Qed.

Lemma date_string_no_T t : no_T (date_string t).
Proof.
  unfold date_string.
  assert (Hdash : no_T (lit "-")) by (constructor; [discriminate | constructor]).
  apply Forall_app; split; [apply year_string_no_T |].
  apply Forall_app; split; [exact Hdash |].
  apply Forall_app; split; [apply pad_no_T |].
  apply Forall_app; split; [exact Hdash | apply pad_no_T].
Qed.

(** [toISOString().split('T')[0]] is the date part, and depends on
    the day of the time value only. *)
Lemma isoDate_date_string t : isoDate t = date_string t.
Proof.
  unfold isoDate, toISOString.
  change (lit "T" ++ ?x) with (84%N :: x).
  apply split_first_app. apply date_string_no_T.
Qed.

Lemma isoDate_Day t : isoDate t = day_string (Day t).
Proof.
  unfold day_string. rewrite !isoDate_date_string.
  set (t' := Day t * msPerDay).
  assert (Hd : Day t' = Day t).
  { unfold t', Day. apply Z.div_mul. unfold msPerDay. lia. }
  assert (Hy : YearFromTime t' = YearFromTime t)
    by (unfold YearFromTime; rewrite Hd; reflexivity).
  assert (Hl : InLeapYear t' = InLeapYear t)
    by (unfold InLeapYear; rewrite Hy; reflexivity).
  assert (Hw : DayWithinYear t' = DayWithinYear t)
    by (unfold DayWithinYear; rewrite Hd, Hy; reflexivity).
  assert (Hm : MonthFromTime t' = MonthFromTime t)
    by (unfold MonthFromTime; rewrite Hw, Hl; reflexivity).
  assert (Hdt : DateFromTime t' = DateFromTime t)
    by (unfold DateFromTime; rewrite Hw, Hm, Hl; reflexivity).
  unfold date_string. rewrite Hy, Hm, Hdt. reflexivity.
Qed.

Lemma Day_shift t k : Day (t - k * msPerDay) = Day t - k.
Proof.
  unfold Day. replace (t - k * msPerDay) with (t + (- k) * msPerDay) by lia.
  rewrite Z.div_add by (unfold msPerDay; lia). lia.
Qed.

End DateFacts.

(** Where the offset of local time is constant, the history holds the
    seven UTC days that end with the day of generation, oldest first. *)
Lemma history_dates_fixed_offset rt now used off i :
  (forall t b, LocalTZA rt t b = off) ->
  date (history_entry rt now used i)
  = day_string (JsDate.Day now - (6 - Z.of_nat i))%Z.
Proof.
  intro Htz. unfold history_entry. cbn [date].
  rewrite DateFacts.setDate_getDate. unfold JsDate.UTC, JsDate.LocalTime.
  rewrite !Htz. rewrite DateFacts.isoDate_Day. f_equal.
  replace (now + off - (Z.of_nat historyDays - 1 - Z.of_nat i) * JsDate.msPerDay - off)%Z
    with (now - (6 - Z.of_nat i) * JsDate.msPerDay)%Z by (unfold historyDays; lia).
  apply DateFacts.Day_shift.
Qed.

(** C8, at 2026-03-30 01:30 in Amsterdam (2026-03-29T23:30:00Z), the
    night after the clocks went forward: the history has seven entries
    with non-negative views, but its last two entries carry the same day,
    2026-03-29, and the first one is 2026-03-24 instead of 2026-03-23:
    the days are not the seven consecutive days that end with the day of
    generation. *)
Theorem history_days_under_dst :
  let rt := exact_runtime amsterdam_2026 (1 # 2) in
  let now := 1774827000000%Z in
  let s := generateFakeAnalytics rt now 0 in
  JsDate.toISOString now = lit "2026-03-29T23:30:00.000Z" /\
  JsDate.LocalTime amsterdam_2026 now = (now + 7200000)%Z /\
  map date (pageViewsHistory s)
  = [lit "2026-03-24"; lit "2026-03-25"; lit "2026-03-26"; lit "2026-03-27";
     lit "2026-03-28"; lit "2026-03-29"; lit "2026-03-29"] /\
  map (fun i => day_string (JsDate.Day now - (6 - Z.of_nat i))%Z) (seq 0 7)
  = [lit "2026-03-23"; lit "2026-03-24"; lit "2026-03-25"; lit "2026-03-26";
     lit "2026-03-27"; lit "2026-03-28"; lit "2026-03-29"] /\
  map views (pageViewsHistory s) = [350; 350; 350; 350; 350; 350; 350]%Z.
Proof. vm_compute. repeat split. Qed.

(** ** The fuel of the parser

    Every call of the parser consumes a character before it calls
    itself with less fuel, so that the fuel of [JSON_parse] is never
    exhausted: more fuel gives the same result. *)

Lemma parse_value_body fuel s :
  parse_value (S fuel) s = value_body (parse_elements fuel) (parse_members fuel) s.
Proof. reflexivity. Qed.

Lemma parse_elements_body fuel s :
  parse_elements (S fuel) s = elements_body (parse_value fuel) (parse_elements fuel) s.
Proof. reflexivity. Qed.

Lemma parse_members_body fuel s :
  parse_members (S fuel) s = members_body (parse_value fuel) (parse_members fuel) s.
Proof. reflexivity. Qed.

(** Every parser consumes a character. *)
Lemma skip_ws_length s : (List.length (skip_ws s) <= List.length s)%nat.
Proof.
  induction s as [| c s IH]; cbn [skip_ws]; [lia |].
  destruct (is_ws c); cbn [List.length] in *; lia.
Qed.

Lemma skip_ws_cons s c r :
  skip_ws s = c :: r -> (List.length r < List.length s)%nat.
Proof.
  intro H. pose proof (skip_ws_length s) as Hl. rewrite H in Hl.
  cbn [List.length] in Hl. lia.
Qed.

Lemma parse_string_body_shortens : shortens parse_string_body.
Proof.
  intro s. remember (List.length s) as n eqn:Hn.
  revert s Hn. induction n as [n IH] using lt_wf_ind.
  intros s Hn str rest H. subst n.
  destruct s as [| c r]; [discriminate |].
  cbn [parse_string_body] in H.
  destruct (c =? 34)%N.
  { injection H as <- <-. cbn [List.length]. lia. }
  destruct (c =? 92)%N.
  { destruct r as [| e r1]; [discriminate |].
    destruct (e =? 117)%N.
    - destruct r1 as [| h1 [| h2 [| h3 [| h4 r2]]]]; try discriminate.
      destruct (hex4_value h1 h2 h3 h4); [| discriminate].
      destruct (parse_string_body r2) as [[str' rest'] |] eqn:Hr; [| discriminate].
      injection H as <- <-.
      apply (IH (List.length r2)) in Hr; cbn [List.length] in *; try lia; reflexivity.
    - destruct (single_escape e); [| discriminate].
      destruct (parse_string_body r1) as [[str' rest'] |] eqn:Hr; [| discriminate].
      injection H as <- <-.
      apply (IH (List.length r1)) in Hr; cbn [List.length] in *; try lia; reflexivity. }
  destruct (c <? 32)%N; [discriminate |].
  destruct (parse_string_body r) as [[str' rest'] |] eqn:Hr; [| discriminate].
  injection H as <- <-.
  apply (IH (List.length r)) in Hr; cbn [List.length] in *; try lia; reflexivity.
Qed.

Lemma strip_prefix_length p : forall s rest,
  strip_prefix p s = Some rest -> List.length s = (List.length p + List.length rest)%nat.
Proof.
  induction p as [| x p IH]; intros s rest H; cbn [strip_prefix] in H.
  - injection H as <-. reflexivity.
  - destruct s as [| y s]; [discriminate |].
    destruct (x =? y)%N; [| discriminate].
    apply IH in H. cbn [List.length]. lia.
Qed.

Lemma span_digits_length s :
  (List.length (snd (span_digits s)) <= List.length s)%nat.
Proof.
  induction s as [| c s IH]; cbn [span_digits]; [cbn; lia |].
  destruct (char_digit c); [| cbn; lia].
  destruct (span_digits s) as [ds rest]. cbn [snd List.length] in *. lia.
Qed.

Ltac span_case H :=
  match type of H with
  | context [span_digits ?r] =>
      let Hl := fresh "Hl" in
      pose proof (span_digits_length r) as Hl;
      destruct (span_digits r) as [[| ? ?] ?];
      [try discriminate H | try discriminate H]
  end.

Lemma lex_int_length s ip s2 :
  lex_int s = Some (ip, s2) -> (List.length s2 < List.length s)%nat.
Proof.
  intro H. unfold lex_int in H.
  destruct s as [| c r]; [discriminate |].
  destruct (char_digit c) as [d |]; [| discriminate].
  destruct (is_d0 d).
  - injection H as <- <-. cbn [List.length]. lia.
  - pose proof (span_digits_length r) as Hl.
    destruct (span_digits r) as [ds rest']. injection H as <- <-.
    cbn [snd List.length] in *. lia.
Qed.

Lemma lex_frac_length s fp s3 :
  lex_frac s = Some (fp, s3) -> (List.length s3 <= List.length s)%nat.
Proof.
  intro H. unfold lex_frac in H.
  destruct s as [| c r]; [injection H as <- <-; cbn; lia |].
  destruct (c =? 46)%N.
  - span_case H. injection H as <- <-. cbn [snd List.length] in *. lia.
  - injection H as <- <-. lia.
Qed.

Lemma lex_exp_length s e s4 :
  lex_exp s = Some (e, s4) -> (List.length s4 <= List.length s)%nat.
Proof.
  intro H. unfold lex_exp in H.
  destruct s as [| c r]; [injection H as <- <-; cbn; lia |].
  destruct ((c =? 101) || (c =? 69))%N.
  - destruct r as [| c1 r'].
    + span_case H; injection H as _ <-; cbn [snd List.length] in *; lia.
    + destruct (c1 =? 45)%N; [| destruct (c1 =? 43)%N];
        span_case H; injection H as _ <-; cbn [snd List.length] in *; lia.
  - injection H as <- <-. lia.
Qed.

Lemma parse_number_shortens : shortens parse_number.
Proof.
  intros s x rest H. unfold parse_number in H.
  assert (Hsign : (List.length (snd (lex_sign s)) <= List.length s)%nat).
  { unfold lex_sign. destruct s as [| c r]; [cbn; lia |].
    destruct (c =? 45)%N; cbn [snd List.length]; lia. }
  destruct (lex_sign s) as [neg s1]. cbn [snd] in Hsign.
  destruct (lex_int s1) as [[ip s2] |] eqn:Hi; [| discriminate].
  apply lex_int_length in Hi.
  destruct (lex_frac s2) as [[fp s3] |] eqn:Hf; [| discriminate].
  apply lex_frac_length in Hf.
  destruct (lex_exp s3) as [[e s4] |] eqn:He; [| discriminate].
  apply lex_exp_length in He.
  injection H as _ <-. lia.
Qed.

Lemma value_body_shortens pe pm :
  shortens pe -> shortens pm -> shortens (value_body pe pm).
Proof.
  intros Hpe Hpm s v rest H. unfold value_body in H.
  destruct (skip_ws s) as [| c r] eqn:Hs; [discriminate |].
  apply skip_ws_cons in Hs.
  destruct (c =? lbrace)%N.
  { destruct (skip_ws r) as [| c' r'] eqn:Hr; [discriminate |].
    pose proof (skip_ws_length r) as Hl. rewrite Hr in Hl.
    destruct (c' =? rbrace)%N.
    - injection H as _ <-. cbn [List.length] in Hl. lia.
    - destruct (pm (c' :: r')) as [[ms rest'] |] eqn:Hm; [| discriminate].
      apply Hpm in Hm. injection H as _ <-. lia. }
  destruct (c =? lbracket)%N.
  { destruct (skip_ws r) as [| c' r'] eqn:Hr; [discriminate |].
    pose proof (skip_ws_length r) as Hl. rewrite Hr in Hl.
    destruct (c' =? rbracket)%N.
    - injection H as _ <-. cbn [List.length] in Hl. lia.
    - destruct (pe (c' :: r')) as [[vs rest'] |] eqn:Hm; [| discriminate].
      apply Hpe in Hm. injection H as _ <-. lia. }
  destruct (c =? dquote)%N.
  { destruct (parse_string_body r) as [[str rest'] |] eqn:Hb; [| discriminate].
    apply parse_string_body_shortens in Hb. injection H as _ <-. lia. }
  destruct (strip_prefix (lit "null") (c :: r)) eqn:H1.
  { apply strip_prefix_length in H1. injection H as _ <-.
    cbn [List.length lit] in H1. lia. }
  destruct (strip_prefix (lit "true") (c :: r)) eqn:H2.
  { apply strip_prefix_length in H2. injection H as _ <-.
    cbn [List.length lit] in H2. lia. }
  destruct (strip_prefix (lit "false") (c :: r)) eqn:H3.
  { apply strip_prefix_length in H3. injection H as _ <-.
    cbn [List.length lit] in H3. lia. }
  destruct (parse_number (c :: r)) as [[x rest'] |] eqn:Hn; [| discriminate].
  apply parse_number_shortens in Hn. injection H as _ <-.
  cbn [List.length] in Hn. lia.
Qed.

Lemma elements_body_shortens pv pe :
  shortens pv -> shortens pe -> shortens (elements_body pv pe).
Proof.
  intros Hpv Hpe s l rest H. unfold elements_body in H.
  destruct (pv s) as [[v r] |] eqn:Hv; [| discriminate].
  apply Hpv in Hv.
  destruct (skip_ws r) as [| c r'] eqn:Hr; [discriminate |].
  apply skip_ws_cons in Hr.
  destruct (c =? comma)%N.
  - destruct (pe r') as [[vs rest'] |] eqn:He; [| discriminate].
    apply Hpe in He. injection H as _ <-. lia.
  - destruct (c =? rbracket)%N; [| discriminate].
    injection H as _ <-. lia.
Qed.

Lemma members_body_shortens pv pm :
  shortens pv -> shortens pm -> shortens (members_body pv pm).
Proof.
  intros Hpv Hpm s l rest H. unfold members_body in H.
  destruct (skip_ws s) as [| q r0] eqn:Hs; [discriminate |].
  apply skip_ws_cons in Hs.
  destruct (q =? dquote)%N; [| discriminate].
  destruct (parse_string_body r0) as [[k r1] |] eqn:Hk; [| discriminate].
  apply parse_string_body_shortens in Hk.
  destruct (skip_ws r1) as [| c1 r2] eqn:Hr1; [discriminate |].
  apply skip_ws_cons in Hr1.
  destruct (c1 =? colon)%N; [| discriminate].
  destruct (pv r2) as [[v r3] |] eqn:Hv; [| discriminate].
  apply Hpv in Hv.
  destruct (skip_ws r3) as [| c r'] eqn:Hr3; [discriminate |].
  apply skip_ws_cons in Hr3.
  destruct (c =? comma)%N.
  - destruct (pm r') as [[ms rest'] |] eqn:Hm; [| discriminate].
    apply Hpm in Hm. injection H as _ <-. lia.
  - destruct (c =? rbrace)%N; [| discriminate].
    injection H as _ <-. lia.
Qed.

Lemma parser_shortens fuel :
  shortens (parse_value fuel) /\ shortens (parse_elements fuel) /\
  shortens (parse_members fuel).
Proof.
  induction fuel as [| fuel (Hv & He & Hm)].
  - repeat split; intros s a r H; discriminate.
  - split; [| split].
    + intros s a r. rewrite parse_value_body. apply value_body_shortens; assumption.
    + intros s a r. rewrite parse_elements_body.
      apply elements_body_shortens; assumption.
    + intros s a r. rewrite parse_members_body.
      apply members_body_shortens; assumption.
Qed.

(** The bodies depend on their parsers at shorter texts only. *)
Lemma value_body_ext pe1 pe2 pm1 pm2 s :
  (forall t, (List.length t < List.length s)%nat -> pe1 t = pe2 t) ->
  (forall t, (List.length t < List.length s)%nat -> pm1 t = pm2 t) ->
  value_body pe1 pm1 s = value_body pe2 pm2 s.
Proof.
  intros He Hm. unfold value_body.
  destruct (skip_ws s) as [| c r] eqn:Hs; [reflexivity |].
  apply skip_ws_cons in Hs.
  destruct (c =? lbrace)%N.
  { destruct (skip_ws r) as [| c' r'] eqn:Hr; [reflexivity |].
    pose proof (skip_ws_length r) as Hl. rewrite Hr in Hl.
    rewrite Hm by lia. reflexivity. }
  destruct (c =? lbracket)%N; [| reflexivity].
  destruct (skip_ws r) as [| c' r'] eqn:Hr; [reflexivity |].
  pose proof (skip_ws_length r) as Hl. rewrite Hr in Hl.
  rewrite He by lia. reflexivity.
Qed.

Lemma elements_body_ext pv1 pv2 pe1 pe2 s :
  pv1 s = pv2 s -> shortens pv2 ->
  (forall t, (S (List.length t) < List.length s)%nat -> pe1 t = pe2 t) ->
  elements_body pv1 pe1 s = elements_body pv2 pe2 s.
Proof.
  intros Hv Hsh He. unfold elements_body. rewrite Hv.
  destruct (pv2 s) as [[v r] |] eqn:Hp; [| reflexivity].
  apply Hsh in Hp.
  destruct (skip_ws r) as [| c r'] eqn:Hr; [reflexivity |].
  apply skip_ws_cons in Hr.
  rewrite He by lia. reflexivity.
Qed.

Lemma members_body_ext pv1 pv2 pm1 pm2 s :
  (forall t, (List.length t < List.length s)%nat -> pv1 t = pv2 t) ->
  shortens pv2 ->
  (forall t, (S (List.length t) < List.length s)%nat -> pm1 t = pm2 t) ->
  members_body pv1 pm1 s = members_body pv2 pm2 s.
Proof.
  intros Hv Hsh Hm. unfold members_body.
  destruct (skip_ws s) as [| q r0] eqn:Hs; [reflexivity |].
  apply skip_ws_cons in Hs.
  destruct (q =? dquote)%N; [| reflexivity].
  destruct (parse_string_body r0) as [[k r1] |] eqn:Hk; [| reflexivity].
  apply parse_string_body_shortens in Hk.
  destruct (skip_ws r1) as [| c1 r2] eqn:Hr1; [reflexivity |].
  apply skip_ws_cons in Hr1.
  destruct (c1 =? colon)%N; [| reflexivity].
  rewrite Hv by lia.
  destruct (pv2 r2) as [[v r3] |] eqn:Hp; [| reflexivity].
  apply Hsh in Hp.
  destruct (skip_ws r3) as [| c r'] eqn:Hr3; [reflexivity |].
  apply skip_ws_cons in Hr3.
  rewrite Hm by lia. reflexivity.
Qed.

Lemma parser_fuel_stable f :
  (forall s f', (2 * List.length s + 1 <= f)%nat -> (f <= f')%nat ->
                parse_value f' s = parse_value f s) /\
  (forall s f', (2 * List.length s + 2 <= f)%nat -> (f <= f')%nat ->
                parse_elements f' s = parse_elements f s) /\
  (forall s f', (2 * List.length s + 2 <= f)%nat -> (f <= f')%nat ->
                parse_members f' s = parse_members f s).
Proof.
  induction f as [| g (IHv & IHe & IHm)].
  - repeat split; intros; lia.
  - destruct (parser_shortens g) as (Sv & Se & Sm).
    split; [| split]; intros s f' Hs Hf;
      (destruct f' as [| g']; [lia |]).
    + rewrite !parse_value_body. apply value_body_ext; intros t Ht.
      * apply IHe; lia.
      * apply IHm; lia.
    + rewrite !parse_elements_body. apply elements_body_ext.
      * apply IHv; lia.
      * exact Sv.
      * intros t Ht. apply IHe; lia.
    + rewrite !parse_members_body. apply members_body_ext.
      * intros t Ht. apply IHv; lia.
      * exact Sv.
      * intros t Ht. apply IHm; lia.
Qed.

(** More fuel than [parse_value_fuel] changes nothing. *)
Theorem parse_value_fuel_enough s fuel :
  (parse_value_fuel s <= fuel)%nat ->
  parse_value fuel s = parse_value (parse_value_fuel s) s.
Proof.
  intro H. apply (proj1 (parser_fuel_stable (parse_value_fuel s))); [| exact H].
  unfold parse_value_fuel. lia.
Qed.

(** ** The round trip through [JSON.stringify] and [JSON.parse] *)

(** *** Strings: [QuoteJSONString] is read back by [parse_string_body] *)

Lemma hex_char_value n : (n < 16)%N -> hex_value (hex_char n) = Some n.
Proof.
  intro H. destruct n as [| p]; [reflexivity |].
  do 4 (try (destruct p as [p | p |]; [| | reflexivity ])); try reflexivity; lia.
Qed.

Lemma hex4_escape c :
  (c < 65536)%N ->
  hex4_value (hex_char (c / 4096)) (hex_char ((c / 256) mod 16))
             (hex_char ((c / 16) mod 16)) (hex_char (c mod 16)) = Some c.
Proof.
  intro H. unfold hex4_value.
  rewrite !hex_char_value;
    try (apply N.mod_lt; discriminate);
    try (apply N.Div0.div_lt_upper_bound; exact H).
  f_equal.
  pose proof (N.div_mod c 4096 ltac:(discriminate)).
  zify. Z.to_euclidean_division_equations. lia.
Qed.

Lemma parse_string_body_unicode a b c d tail :
  parse_string_body (92 :: 117 :: a :: b :: c :: d :: tail)%N =
    match hex4_value a b c d, parse_string_body tail with
    | Some u, Some (str, rest) => Some (u :: str, rest)
    | _, _ => None
    end.
Proof. reflexivity. Qed.

Lemma parse_string_body_plain c tail :
  c <> 34%N -> c <> 92%N -> (32 <= c)%N ->
  parse_string_body (c :: tail) = cons_result c (parse_string_body tail).
Proof.
  intros H1 H2 H3. cbn [parse_string_body].
  destruct (N.eqb_spec c 34); [contradiction |].
  destruct (N.eqb_spec c 92); [contradiction |].
  destruct (N.ltb_spec c 32); [lia |].
  reflexivity.
Qed.

Lemma parse_quote_char c tail :
  parse_string_body (quote_char c ++ tail) = cons_result c (parse_string_body tail).
Proof.
  unfold quote_char.
  destruct (N.eqb_spec c 8); [subst; reflexivity |].
  destruct (N.eqb_spec c 9); [subst; reflexivity |].
  destruct (N.eqb_spec c 10); [subst; reflexivity |].
  destruct (N.eqb_spec c 12); [subst; reflexivity |].
  destruct (N.eqb_spec c 13); [subst; reflexivity |].
  destruct (N.eqb_spec c 34); [subst; reflexivity |].
  destruct (N.eqb_spec c 92); [subst; reflexivity |].
  destruct ((c <? 32)%N || is_lead c || is_trail c) eqn:He.
  - assert (Hc : (c < 65536)%N).
    { unfold is_lead, is_trail in He.
      destruct (N.ltb_spec c 32); [lia |].
      destruct (N.leb_spec c 56319); [lia |].
      destruct (N.leb_spec c 57343); [lia |].
      rewrite !andb_false_r in He. discriminate. }
    unfold unicode_escape. cbn [List.app].
    rewrite parse_string_body_unicode, hex4_escape by exact Hc.
    reflexivity.
  - apply orb_false_iff in He. destruct He as [He _].
    apply orb_false_iff in He. destruct He as [He _].
    apply N.ltb_ge in He.
    cbn [List.app]. apply parse_string_body_plain; assumption.
Qed.

Lemma parse_quote_body_aux n : forall s rest,
  (List.length s <= n)%nat ->
  parse_string_body (quote_body s ++ dquote :: rest) = Some (s, rest).
Proof.
  induction n as [| n IH]; intros s rest Hn.
  - destruct s; [reflexivity | simpl in Hn; lia].
  - destruct s as [| c r]; [reflexivity |].
    cbn [quote_body].
    destruct r as [| c2 r2].
    + rewrite parse_quote_char. reflexivity.
    + destruct (is_lead c && is_trail c2) eqn:Hp.
      * apply andb_true_iff in Hp. destruct Hp as [Hl Ht].
        unfold is_lead in Hl. unfold is_trail in Ht.
        apply andb_true_iff in Hl. apply andb_true_iff in Ht.
        destruct Hl as [Hl _]. destruct Ht as [Ht _].
        apply N.leb_le in Hl. apply N.leb_le in Ht.
        cbn [List.app].
        rewrite (@parse_string_body_plain c) by (try lia; intro; lia).
        rewrite (@parse_string_body_plain c2) by (try lia; intro; lia).
        rewrite IH by (cbn [List.length] in *; lia). reflexivity.
      * rewrite <- app_assoc, parse_quote_char.
        rewrite IH by (cbn [List.length] in *; lia). reflexivity.
Qed.

(** A string is read back from its quoted form. *)
Lemma parse_quote_body s rest :
  parse_string_body (quote_body s ++ dquote :: rest) = Some (s, rest).
Proof. apply (@parse_quote_body_aux (List.length s)). lia. Qed.

(** *** Numbers: the pieces of the literal *)

Lemma char_digit_digit_char d : char_digit (digit_char d) = Some d.
Proof. destruct d; reflexivity. Qed.

Lemma number_end_not_digit rest : number_end rest -> not_digit_head rest.
Proof. destruct rest; simpl; tauto. Qed.

Lemma span_digits_app ds rest :
  not_digit_head rest -> span_digits (map digit_char ds ++ rest) = (ds, rest).
Proof.
  intro H. induction ds as [| d ds IH]; cbn [map List.app span_digits].
  - destruct rest as [| c r]; [reflexivity |]. simpl in H.
    cbn [span_digits]. rewrite H. reflexivity.
  - rewrite char_digit_digit_char, IH. reflexivity.
Qed.

Lemma lex_frac_none rest : number_end rest -> lex_frac rest = Some ([], rest).
Proof.
  destruct rest as [| c r]; [reflexivity |]. intros (_ & H & _).
  unfold lex_frac. destruct (N.eqb_spec c 46); [contradiction | reflexivity].
Qed.

Lemma lex_exp_none rest : number_end rest -> lex_exp rest = Some (0%Z, rest).
Proof.
  destruct rest as [| c r]; [reflexivity |]. intros (_ & _ & H1 & H2).
  unfold lex_exp.
  destruct (N.eqb_spec c 101); [contradiction |].
  destruct (N.eqb_spec c 69); [contradiction | reflexivity].
Qed.

(** Zeros at the ends of a digit sequence. *)
Lemma length_drop_zeros l : (List.length (drop_zeros l) <= List.length l)%nat.
Proof.
  induction l as [| d l IH]; simpl; [lia |].
  destruct (is_d0 d); simpl; lia.
Qed.

Lemma drop_zeros_fixed d l : drop_zeros (d :: l) = d :: l -> is_d0 d = false.
Proof.
  intro H. destruct (is_d0 d) eqn:Hd; [| reflexivity].
  cbn [drop_zeros] in H. rewrite Hd in H.
  pose proof (length_drop_zeros l) as Hl. rewrite H in Hl. simpl in Hl. lia.
Qed.

Lemma drop_zeros_repeat m l : drop_zeros (repeat d0 m ++ l) = drop_zeros l.
Proof. induction m; simpl; auto. Qed.

Lemma count_zeros_repeat m l :
  count_zeros (repeat d0 m ++ l) = (m + count_zeros l)%nat.
Proof. induction m; simpl; auto. Qed.

Lemma strip_trailing_zeros m : strip_trailing (repeat d0 m) = [].
Proof. induction m; simpl; [reflexivity |]. rewrite IHm. reflexivity. Qed.

Lemma strip_trailing_app_zeros l m :
  strip_trailing (l ++ repeat d0 m) = strip_trailing l.
Proof.
  induction l as [| d l IH]; cbn [List.app strip_trailing].
  - apply strip_trailing_zeros.
  - rewrite IH. reflexivity.
Qed.

Lemma number_of_literal_digits neg s ip fp e z m n :
  s <> [] -> drop_zeros s = s -> strip_trailing s = s ->
  ip ++ fp = repeat d0 z ++ s ++ repeat d0 m ->
  (Z.of_nat (List.length ip) - Z.of_nat z + e = n)%Z ->
  number_of_literal neg ip fp e = mkNumber neg s n.
Proof.
  intros Hs Hd Ht Hall Hn. unfold number_of_literal. rewrite Hall.
  destruct s as [| d s']; [congruence |].
  pose proof (drop_zeros_fixed Hd) as Hd0.
  rewrite drop_zeros_repeat, count_zeros_repeat.
  cbn [List.app drop_zeros count_zeros]. rewrite Hd0.
  change (d :: s' ++ repeat d0 m) with ((d :: s') ++ repeat d0 m).
  rewrite strip_trailing_app_zeros, Ht.
  f_equal. lia.
Qed.

Lemma decimal_digits_value n : digits_to_N (decimal_digits n) = n.
Proof.
  unfold digits_to_N, decimal_digits.
  rewrite of_list_to_list. apply DecimalN.Unsigned.of_to.
Qed.

Lemma decimal_digits_nonempty n : decimal_digits n <> [].
Proof.
  unfold decimal_digits. intro H.
  assert (Hn : N.to_uint n = Nil) by (apply to_list_inj; exact H).
  pose proof (DecimalN.Unsigned.to_of (N.to_uint n)) as Ht.
  rewrite DecimalN.Unsigned.of_to in Ht.
  rewrite Hn in Ht. discriminate.
Qed.

(** The sign, the integer part, the fraction and the exponent. *)
Lemma parse_number_signed (neg : bool) d tail :
  parse_number ((if neg then lit "-" else []) ++ digit_char d :: tail)
  = parse_unsigned neg (digit_char d :: tail).
Proof.
  destruct neg; [reflexivity |].
  unfold parse_number. cbn [List.app lex_sign].
  destruct d; reflexivity.
Qed.

Lemma lex_int_nonzero d tail :
  is_d0 d = false ->
  lex_int (digit_char d :: tail)
  = let (ds, rest) := span_digits tail in Some (d :: ds, rest).
Proof.
  intro H. unfold lex_int. rewrite char_digit_digit_char, H. reflexivity.
Qed.

Lemma lex_frac_digits fs rest :
  fs <> [] -> not_digit_head rest ->
  lex_frac (46%N :: map digit_char fs ++ rest) = Some (fs, rest).
Proof.
  intros Hfs Hrest. unfold lex_frac. cbn [N.eqb Pos.eqb].
  rewrite span_digits_app by exact Hrest.
  destruct fs; [congruence | reflexivity].
Qed.

Lemma lex_exp_digits (e : Z) rest :
  not_digit_head rest ->
  lex_exp (101%N :: (if (e <? 0)%Z then lit "-" else lit "+")
             ++ map digit_char (decimal_digits (Z.to_N (Z.abs e))) ++ rest)
  = Some (e, rest).
Proof.
  intro Hrest. unfold lex_exp. cbn [N.eqb Pos.eqb orb].
  assert (Hv : forall neg : bool,
             match span_digits (map digit_char (decimal_digits (Z.to_N (Z.abs e))) ++ rest) with
             | ([], _) => None
             | (ds, rest') =>
                 Some (if neg then (- Z.of_N (digits_to_N ds))%Z
                       else Z.of_N (digits_to_N ds), rest')
             end = Some (if neg then (- Z.abs e)%Z else Z.abs e, rest)).
  { intro neg. rewrite span_digits_app by exact Hrest.
    pose proof (decimal_digits_nonempty (Z.to_N (Z.abs e))) as Hne.
    destruct (decimal_digits (Z.to_N (Z.abs e))) as [| x l] eqn:Hd; [congruence |].
    rewrite <- Hd, decimal_digits_value. rewrite Z2N.id by lia. reflexivity. }
  destruct (Z.ltb_spec e 0).
  - change (lit "-" ++ ?s) with (45%N :: s). cbn [N.eqb Pos.eqb].
    rewrite (Hv true). f_equal. f_equal. lia.
  - change (lit "+" ++ ?s) with (43%N :: s). cbn [N.eqb Pos.eqb].
    rewrite (Hv false). f_equal. f_equal. lia.
Qed.

Lemma map_digit_char_repeat m :
  repeat (digit_char d0) m = map digit_char (repeat d0 m).
Proof. symmetry. apply map_repeat. Qed.

Lemma not_digit_dot tail : not_digit_head (46%N :: tail).
Proof. reflexivity. Qed.

Lemma not_digit_e tail : not_digit_head (101%N :: tail).
Proof. reflexivity. Qed.

(** *** Numbers: the four formats of [Number::toString]

    Digits followed by zeros; digits around a decimal point; a zero, a
    point, zeros and the digits; the exponential notation. *)

Lemma parse_integer_format neg d ds rest m :
  drop_zeros (d :: ds) = d :: ds -> strip_trailing (d :: ds) = d :: ds ->
  number_end rest ->
  parse_unsigned neg (map digit_char (d :: ds) ++ repeat (digit_char d0) m ++ rest)
  = Some (mkNumber neg (d :: ds) (Z.of_nat (List.length (d :: ds)) + Z.of_nat m), rest).
Proof.
  intros Hdrop Hstrip Hrest. pose proof (drop_zeros_fixed Hdrop) as Hd0.
  unfold parse_unsigned.
  rewrite map_digit_char_repeat, app_assoc, <- map_app.
  cbn [map List.app]. rewrite lex_int_nonzero by exact Hd0.
  rewrite span_digits_app by (apply number_end_not_digit; exact Hrest).
  rewrite lex_frac_none, lex_exp_none by exact Hrest.
  f_equal. f_equal.
  apply number_of_literal_digits with (z := 0%nat) (m := m);
    try assumption; try discriminate.
  - rewrite List.app_nil_r. reflexivity.
  - cbn [List.length]. rewrite length_app, repeat_length. lia.
Qed.

Lemma parse_point_format neg d ds rest n :
  drop_zeros (d :: ds) = d :: ds -> strip_trailing (d :: ds) = d :: ds ->
  number_end rest ->
  (0 < n < List.length (d :: ds))%nat ->
  parse_unsigned neg (firstn n (map digit_char (d :: ds)) ++ lit "."
                        ++ skipn n (map digit_char (d :: ds)) ++ rest)
  = Some (mkNumber neg (d :: ds) (Z.of_nat n), rest).
Proof.
  intros Hdrop Hstrip Hrest Hn. pose proof (drop_zeros_fixed Hdrop) as Hd0.
  destruct n as [| n']; [lia |].
  cbn [List.length] in Hn.
  unfold parse_unsigned. cbn [map firstn skipn List.app lit].
  rewrite firstn_map, skipn_map.
  rewrite lex_int_nonzero by exact Hd0.
  change (N_of_ascii "."%char) with 46%N.
  rewrite span_digits_app by apply not_digit_dot.
  rewrite lex_frac_digits.
  - rewrite lex_exp_none by exact Hrest. f_equal. f_equal.
    apply number_of_literal_digits with (z := 0%nat) (m := 0%nat);
      try assumption; try discriminate.
    + cbn [repeat List.app]. rewrite List.app_nil_r. f_equal. apply firstn_skipn.
    + cbn [List.length]. rewrite length_firstn. lia.
  - intro H. apply (f_equal (@List.length _)) in H.
    rewrite length_skipn in H. simpl in H. lia.
  - apply number_end_not_digit; exact Hrest.
Qed.

Lemma parse_fraction_format neg d ds rest m :
  drop_zeros (d :: ds) = d :: ds -> strip_trailing (d :: ds) = d :: ds ->
  number_end rest ->
  parse_unsigned neg (lit "0." ++ repeat (digit_char d0) m
                        ++ map digit_char (d :: ds) ++ rest)
  = Some (mkNumber neg (d :: ds) (- Z.of_nat m), rest).
Proof.
  intros Hdrop Hstrip Hrest.
  unfold parse_unsigned.
  rewrite map_digit_char_repeat, (app_assoc (map _ _)), <- map_app.
  change (lit "0." ++ ?s) with (digit_char d0 :: 46%N :: s).
  unfold lex_int. rewrite char_digit_digit_char. cbn [is_d0].
  rewrite lex_frac_digits.
  - rewrite lex_exp_none by exact Hrest. f_equal. f_equal.
    apply number_of_literal_digits with (z := S m) (m := 0%nat);
      try assumption; try discriminate.
    + cbn [repeat List.app]. rewrite List.app_nil_r. reflexivity.
    + cbn [List.length]. lia.
  - destruct m; discriminate.
  - apply number_end_not_digit; exact Hrest.
Qed.

Lemma parse_exponent_format neg d ds rest (e : Z) :
  drop_zeros (d :: ds) = d :: ds -> strip_trailing (d :: ds) = d :: ds ->
  number_end rest ->
  let es := (if (e <? 0)%Z then lit "-" else lit "+")
              ++ map digit_char (decimal_digits (Z.to_N (Z.abs e))) in
  parse_unsigned neg
    (match ds with
     | [] => [digit_char d] ++ lit "e" ++ es
     | _ => [digit_char d] ++ lit "." ++ map digit_char ds ++ lit "e" ++ es
     end ++ rest)
  = Some (mkNumber neg (d :: ds) (1 + e), rest).
Proof.
  intros Hdrop Hstrip Hrest es. subst es. unfold parse_unsigned.
  pose proof (drop_zeros_fixed Hdrop) as Hd0.
  pose proof (number_end_not_digit _ Hrest) as Hnd.
  destruct ds as [| d' ds'].
  - rewrite <- !app_assoc.
    change ([digit_char d] ++ ?x) with (digit_char d :: x).
    change (lit "e" ++ ?x) with (101%N :: x).
    rewrite lex_int_nonzero by exact Hd0.
    cbn [span_digits char_digit N.eqb Pos.eqb].
    change (lex_frac (101%N :: ?s)) with (Some (@nil digits, 101%N :: s)).
    cbv iota beta.
    rewrite lex_exp_digits by exact Hnd.
    f_equal. f_equal.
    apply number_of_literal_digits with (z := 0%nat) (m := 0%nat);
      try assumption; try discriminate; reflexivity.
  - rewrite <- !app_assoc.
    change ([digit_char d] ++ ?x) with (digit_char d :: x).
    change (lit "." ++ ?x) with (46%N :: x).
    change (lit "e" ++ ?x) with (101%N :: x).
    rewrite lex_int_nonzero by exact Hd0.
    cbn [span_digits char_digit N.eqb Pos.eqb].
    rewrite lex_frac_digits; [| discriminate | apply not_digit_e].
    rewrite lex_exp_digits by exact Hnd.
    f_equal. f_equal.
    apply number_of_literal_digits with (z := 0%nat) (m := 0%nat);
      try assumption; try discriminate.
    + cbn [repeat List.app]. rewrite List.app_nil_r. reflexivity.
    + cbn [List.length]. lia.
Qed.

Lemma parse_number_body (neg : bool) body r :
  (exists d tail, body = digit_char d :: tail) ->
  parse_unsigned neg body = r ->
  parse_number ((if neg then lit "-" else []) ++ body) = r.
Proof.
  intros (d & tail & ->) <-. apply parse_number_signed.
Qed.

Lemma number_eta x : mkNumber (negative x) (sig_digits x) (point x) = x.
Proof. destruct x; reflexivity. Qed.

(** A canonical number is read back from [Number::toString]. *)
Lemma parse_number_toString x rest :
  canonical x -> number_end rest ->
  parse_number (Number_toString x ++ rest) = Some (x, rest).
Proof.
  intros (Hdrop & Hstrip & Hzero) Hrest.
  rewrite <- (number_eta x) at 2.
  unfold Number_toString.
  destruct (sig_digits x) as [| d ds] eqn:Hs.
  - destruct (Hzero eq_refl) as [-> ->].
    unfold parse_number.
    change (lex_sign (lit "0" ++ rest)) with (false, digit_char d0 :: rest).
    unfold lex_int. rewrite char_digit_digit_char. cbn [is_d0].
    rewrite lex_frac_none, lex_exp_none by exact Hrest. reflexivity.
  - set (s := map digit_char (d :: ds)).
    set (k := Z.of_nat (List.length s)).
    set (n := point x).
    assert (Hk : k = Z.of_nat (List.length (d :: ds)))
      by (unfold k, s; rewrite length_map; reflexivity).
    cbv zeta. rewrite <- app_assoc.
    apply parse_number_body.
    + unfold s. cbn [map].
      destruct ((k <=? n) && (n <=? 21))%Z;
        [eexists; eexists; reflexivity |].
      destruct ((0 <? n) && (n <=? 21))%Z eqn:E2.
      * apply andb_true_iff in E2. destruct E2 as [E2 _].
        apply Z.ltb_lt in E2.
        destruct (Z.to_nat n) as [| n'] eqn:Hn; [lia |].
        eexists; eexists; reflexivity.
      * destruct ((-6 <? n) && (n <=? 0))%Z;
          [exists d0; eexists; reflexivity |].
        destruct ds; eexists; eexists; reflexivity.
    + destruct ((k <=? n) && (n <=? 21))%Z eqn:E1.
      { apply andb_true_iff in E1. destruct E1 as [E1 _]. apply Z.leb_le in E1.
        unfold s. rewrite <- app_assoc.
        rewrite parse_integer_format by assumption.
        f_equal. f_equal. f_equal. lia. }
      destruct ((0 <? n) && (n <=? 21))%Z eqn:E2.
      { apply andb_true_iff in E2. destruct E2 as [E2 E2'].
        apply Z.ltb_lt in E2. apply Z.leb_le in E2'.
        assert (Hnk : (n < k)%Z).
        { apply andb_false_iff in E1. destruct E1 as [E1 | E1];
            apply Z.leb_gt in E1; lia. }
        unfold s. rewrite <- !app_assoc.
        rewrite parse_point_format by (try assumption; lia).
        f_equal. f_equal. f_equal. lia. }
      destruct ((-6 <? n) && (n <=? 0))%Z eqn:E3.
      { apply andb_true_iff in E3. destruct E3 as [_ E3]. apply Z.leb_le in E3.
        unfold s. rewrite <- !app_assoc.
        rewrite parse_fraction_format by assumption.
        f_equal. f_equal. f_equal. lia. }
      rewrite (@parse_exponent_format (negative x) d ds rest (n - 1)%Z) by assumption.
      f_equal. f_equal. f_equal. lia.
Qed.

(** *** Numbers: what the parser and the conversions return is canonical *)

Lemma drop_zeros_head l :
  match drop_zeros l with
  | [] => True
  | d :: _ => is_d0 d = false
  end.
Proof.
  induction l as [| d l IH]; simpl; [exact I |].
  destruct (is_d0 d) eqn:Hd; [exact IH | exact Hd].
Qed.

Lemma strip_trailing_idem l : strip_trailing (strip_trailing l) = strip_trailing l.
Proof.
  induction l as [| d l IH]; [reflexivity |].
  cbn [strip_trailing].
  destruct (strip_trailing l) as [| e r] eqn:Hl.
  - destruct (is_d0 d) eqn:Hd; [reflexivity |].
    cbn [strip_trailing]. rewrite Hd. reflexivity.
  - cbn [strip_trailing] in *. rewrite IH. reflexivity.
Qed.

Lemma strip_trailing_head d l :
  match strip_trailing (d :: l) with
  | [] => True
  | e :: _ => e = d
  end.
Proof.
  cbn [strip_trailing]. destruct (strip_trailing l); [| reflexivity].
  destruct (is_d0 d); [exact I | reflexivity].
Qed.

Lemma number_of_literal_canonical neg ip fp e :
  canonical (number_of_literal neg ip fp e).
Proof.
  unfold number_of_literal.
  set (all := ip ++ fp).
  destruct (strip_trailing (drop_zeros all)) as [| d s] eqn:Hs.
  - repeat split; reflexivity.
  - unfold canonical. cbn [sig_digits negative point].
    split; [| split].
    + pose proof (drop_zeros_head all) as Hh.
      destruct (drop_zeros all) as [| d' l']; [discriminate |].
      pose proof (strip_trailing_head d' l') as Hh'.
      rewrite Hs in Hh'. subst d'.
      cbn [drop_zeros]. rewrite Hh. reflexivity.
    + rewrite <- Hs. apply strip_trailing_idem.
    + discriminate.
Qed.

Lemma number_of_Z_canonical z : canonical (number_of_Z z).
Proof. apply number_of_literal_canonical. Qed.

Lemma number_shift_canonical x d : canonical x -> canonical (number_shift x d).
Proof.
  intros (H1 & H2 & H3). unfold number_shift.
  destruct (sig_digits x) eqn:Hs.
  - unfold canonical. rewrite Hs. auto.
  - unfold canonical. cbn [sig_digits]. repeat split; try assumption; discriminate.
Qed.

(** *** Arrays and objects *)

Lemma JSON_stringify_array l :
  JSON_stringify (JArray l) = lbracket :: stringify_elements l ++ [rbracket].
Proof. reflexivity. Qed.

Lemma JSON_stringify_object ms :
  JSON_stringify (JObject ms) = lbrace :: stringify_members ms ++ [rbrace].
Proof. reflexivity. Qed.

Lemma json_wf_array l : json_wf (JArray l) <-> Forall json_wf l.
Proof.
  cbn [json_wf]. induction l as [| x r IH].
  - split; [constructor | trivial].
  - split.
    + intros [Hx Hr]. constructor; [exact Hx | apply IH; exact Hr].
    + intro H. inversion H; subst. split; [assumption | apply IH; assumption].
Qed.

Lemma json_wf_object ms :
  json_wf (JObject ms) <->
  NoDup (map fst ms) /\ Forall (fun kv => json_wf (snd kv)) ms.
Proof.
  cbn [json_wf]. apply and_iff_compat_l.
  induction ms as [| kv r IH].
  - split; [constructor | trivial].
  - split.
    + intros [Hx Hr]. constructor; [exact Hx | apply IH; exact Hr].
    + intro H. inversion H; subst. split; [assumption | apply IH; assumption].
Qed.

(** An object whose names are distinct is built member by member as
    it is. *)
Lemma jsstring_eqb_eq a : forall b, jsstring_eqb a b = true <-> a = b.
Proof.
  induction a as [| x a IH]; intros [| y b]; cbn [jsstring_eqb];
    try (split; [discriminate | discriminate]); try (split; reflexivity).
  rewrite andb_true_iff, N.eqb_eq, IH. split.
  - intros [-> ->]. reflexivity.
  - intro H. injection H as -> ->. split; reflexivity.
Qed.

Lemma jsstring_eqb_refl a : jsstring_eqb a a = true.
Proof. apply jsstring_eqb_eq. reflexivity. Qed.

Lemma jsstring_eqb_neq a b : a <> b -> jsstring_eqb a b = false.
Proof.
  intro H. destruct (jsstring_eqb a b) eqn:E; [| reflexivity].
  apply jsstring_eqb_eq in E. contradiction.
Qed.

Lemma obj_set_fresh o k v :
  ~ In k (map fst o) -> obj_set o k v = o ++ [(k, v)].
Proof.
  induction o as [| [k' v'] o IH]; intro H; cbn [obj_set List.app].
  - reflexivity.
  - cbn [map fst In] in H.
    rewrite jsstring_eqb_neq by (intro E; apply H; left; symmetry; exact E).
    rewrite IH by (intro E; apply H; right; exact E). reflexivity.
Qed.

Lemma fold_obj_set ms : forall acc,
  NoDup (map fst acc ++ map fst ms) ->
  fold_left (fun o kv => obj_set o (fst kv) (snd kv)) ms acc = acc ++ ms.
Proof.
  induction ms as [| [k v] ms IH]; intros acc H; cbn [fold_left fst snd].
  - symmetry. apply List.app_nil_r.
  - cbn [map fst] in H.
    rewrite obj_set_fresh.
    + rewrite IH.
      * rewrite <- app_assoc. reflexivity.
      * rewrite map_app. cbn [map fst]. rewrite <- app_assoc. exact H.
    + apply NoDup_remove_2 in H. intro Hin. apply H.
      apply in_or_app. left. exact Hin.
Qed.

Lemma build_object_nodup ms : NoDup (map fst ms) -> build_object ms = ms.
Proof. intro H. unfold build_object. rewrite fold_obj_set; [reflexivity | exact H]. Qed.

(** *** One level of the parser on the output of [JSON_stringify] *)

Lemma starts_value_app s t : starts_value s -> starts_value (s ++ t).
Proof.
  intros (c & tl & -> & H). exists c, (tl ++ t). split; [reflexivity | exact H].
Qed.

Lemma skip_ws_starts_value s : starts_value s -> skip_ws s = s.
Proof.
  intros (c & tl & -> & H & _). cbn [skip_ws]. rewrite H. reflexivity.
Qed.

Lemma parse_value_string fuel body :
  parse_value (S fuel) (dquote :: body) =
    match parse_string_body body with
    | Some (str, rest) => Some (JString str, rest)
    | None => None
    end.
Proof. reflexivity. Qed.

Lemma parse_value_array fuel body :
  starts_value body ->
  parse_value (S fuel) (lbracket :: body) =
    match parse_elements fuel body with
    | Some (vs, rest) => Some (JArray vs, rest)
    | None => None
    end.
Proof.
  intro H. pose proof (skip_ws_starts_value H) as Hs.
  destruct H as (c & tl & -> & Hw & Hb & _).
  change (parse_value (S fuel) (lbracket :: c :: tl))
    with (match skip_ws (c :: tl) with
          | [] => None
          | c' :: r' =>
              if (c' =? rbracket)%N then Some (JArray [], r')
              else match parse_elements fuel (c' :: r') with
                   | Some (vs, rest) => Some (JArray vs, rest)
                   | None => None
                   end
          end).
  rewrite Hs, Hb. reflexivity.
Qed.

Lemma parse_value_object fuel body :
  starts_value body ->
  parse_value (S fuel) (lbrace :: body) =
    match parse_members fuel body with
    | Some (ms, rest) => Some (JObject (build_object ms), rest)
    | None => None
    end.
Proof.
  intro H. pose proof (skip_ws_starts_value H) as Hs.
  destruct H as (c & tl & -> & Hw & _ & Hb).
  change (parse_value (S fuel) (lbrace :: c :: tl))
    with (match skip_ws (c :: tl) with
          | [] => None
          | c' :: r' =>
              if (c' =? rbrace)%N then Some (JObject [], r')
              else match parse_members fuel (c' :: r') with
                   | Some (ms, rest) => Some (JObject (build_object ms), rest)
                   | None => None
                   end
          end).
  rewrite Hs, Hb. reflexivity.
Qed.

Lemma parse_value_number fuel c tl :
  c = 45%N \/ (exists d, c = digit_char d) ->
  parse_value (S fuel) (c :: tl) =
    match parse_number (c :: tl) with
    | Some (x, rest) => Some (JNumber x, rest)
    | None => None
    end.
Proof.
  intros [-> | [d ->]]; [reflexivity |].
  destruct d; reflexivity.
Qed.

Lemma parse_elements_step fuel s :
  parse_elements (S fuel) s =
    match parse_value fuel s with
    | None => None
    | Some (v, r) =>
        match skip_ws r with
        | [] => None
        | c :: r' =>
            if (c =? comma)%N then
              match parse_elements fuel r' with
              | Some (vs, rest) => Some (v :: vs, rest)
              | None => None
              end
            else if (c =? rbracket)%N then Some ([v], r')
            else None
        end
    end.
Proof. reflexivity. Qed.

Lemma parse_members_step fuel r0 :
  parse_members (S fuel) (dquote :: r0) =
    match parse_string_body r0 with
    | None => None
    | Some (k, r1) =>
        match skip_ws r1 with
        | [] => None
        | c1 :: r2 =>
            if (c1 =? colon)%N then
              match parse_value fuel r2 with
              | None => None
              | Some (v, r3) =>
                  match skip_ws r3 with
                  | [] => None
                  | c :: r' =>
                      if (c =? comma)%N then
                        match parse_members fuel r' with
                        | Some (ms, rest) => Some ((k, v) :: ms, rest)
                        | None => None
                        end
                      else if (c =? rbrace)%N then Some ([(k, v)], r')
                      else None
                  end
              end
            else None
        end
    end.
Proof. reflexivity. Qed.

Lemma Number_toString_head x :
  exists c tl, Number_toString x = c :: tl /\
               (c = 45%N \/ exists d, c = digit_char d).
Proof.
  unfold Number_toString.
  destruct (sig_digits x) as [| d ds]; [exists 48%N, []; split; [reflexivity |]; right; exists d0; reflexivity |].
  cbv zeta.
  destruct (negative x).
  - eexists; eexists; split; [reflexivity |]. left. reflexivity.
  - cbn [List.app map].
    set (k := Z.of_nat _). set (n := point x).
    destruct ((k <=? n) && (n <=? 21))%Z;
      [eexists; eexists; split; [reflexivity | right; eexists; reflexivity] |].
    destruct ((0 <? n) && (n <=? 21))%Z eqn:E2.
    + apply andb_true_iff in E2. destruct E2 as [E2 _]. apply Z.ltb_lt in E2.
      destruct (Z.to_nat n) as [| n'] eqn:Hn; [lia |].
      eexists; eexists; split; [reflexivity | right; eexists; reflexivity].
    + destruct ((-6 <? n) && (n <=? 0))%Z;
        [eexists; eexists; split; [reflexivity | right; exists d0; reflexivity] |].
      destruct ds; eexists; eexists; split; try reflexivity; right; eexists; reflexivity.
Qed.

Lemma stringify_starts_value v : starts_value (JSON_stringify v).
Proof.
  destruct v as [| [|] | x | s | l | ms];
    try (eexists; eexists; split; [reflexivity | repeat split; reflexivity]).
  destruct (Number_toString_head x) as (c & tl & Hx & Hc).
  exists c, tl. split; [exact Hx |].
  destruct Hc as [-> | [d ->]]; [repeat split; reflexivity |].
  destruct d; repeat split; reflexivity.
Qed.

Lemma value_end_number_end rest : value_end rest -> number_end rest.
Proof.
  destruct rest as [| c r]; [trivial |].
  intros [-> | [-> | ->]]; repeat split; discriminate.
Qed.

(** *** Values *)

Lemma parse_elements_stringify l :
  Forall parses_back l -> Forall json_wf l -> l <> [] ->
  forall fuel rest,
    (S (List.length (stringify_elements l)) < fuel)%nat ->
    parse_elements fuel (stringify_elements l ++ rbracket :: rest) = Some (l, rest).
Proof.
  induction 1 as [| x r Hx Hr IH]; intros Hwf Hne fuel rest Hfuel; [congruence |].
  inversion Hwf as [| ? ? Hwx Hwr]; subst.
  destruct fuel as [| fuel]; [lia |].
  rewrite parse_elements_step.
  cbn [stringify_elements] in *. rewrite <- app_assoc.
  rewrite length_app in Hfuel.
  destruct r as [| y r'].
  - cbn [List.app]. rewrite Hx; [| exact Hwx | simpl in Hfuel; lia | right; left; reflexivity].
    reflexivity.
  - cbn [List.app]. cbn [List.length] in Hfuel.
    rewrite Hx; [| exact Hwx | lia | left; reflexivity].
    change (skip_ws (comma :: ?s)) with (comma :: s).
    change (comma =? comma)%N with true. cbv iota.
    rewrite IH; [reflexivity | exact Hwr | discriminate | lia].
Qed.

Lemma parse_members_stringify ms :
  Forall (fun kv => parses_back (snd kv)) ms ->
  Forall (fun kv => json_wf (snd kv)) ms -> ms <> [] ->
  forall fuel rest,
    (S (List.length (stringify_members ms)) < fuel)%nat ->
    parse_members fuel (stringify_members ms ++ rbrace :: rest) = Some (ms, rest).
Proof.
  induction 1 as [| [k x] r Hx Hr IH]; intros Hwf Hne fuel rest Hfuel; [congruence |].
  inversion Hwf as [| ? ? Hwx Hwr]; subst. cbn [snd] in *.
  destruct fuel as [| fuel]; [lia |].
  cbn [stringify_members] in *. unfold QuoteJSONString in *.
  cbn [List.app List.length] in Hfuel. rewrite !length_app in Hfuel.
  cbn [List.length] in Hfuel. rewrite length_app in Hfuel.
  assert (Hkey : forall tail,
             parse_members (S fuel)
               ((dquote :: quote_body k ++ [dquote]) ++ colon :: tail)
             = match parse_value fuel tail with
               | None => None
               | Some (v, r3) =>
                   match skip_ws r3 with
                   | [] => None
                   | c :: r' =>
                       if (c =? comma)%N then
                         match parse_members fuel r' with
                         | Some (ms, rest) => Some ((k, v) :: ms, rest)
                         | None => None
                         end
                       else if (c =? rbrace)%N then Some ([(k, v)], r')
                       else None
                   end
               end).
  { intro tail. cbn [List.app]. rewrite parse_members_step, <- app_assoc.
    cbn [List.app]. rewrite parse_quote_body. reflexivity. }
  destruct r as [| y r'].
  - match goal with |- parse_members _ ?s = _ =>
      replace s with ((dquote :: quote_body k ++ [dquote])
                        ++ colon :: JSON_stringify x ++ rbrace :: rest)
    end.
    2:{ rewrite List.app_nil_r. rewrite <- !app_assoc. reflexivity. }
    rewrite Hkey.
    rewrite Hx; [| exact Hwx | cbn [List.length] in Hfuel; lia | right; right; reflexivity].
    reflexivity.
  - match goal with |- parse_members _ ?s = _ =>
      replace s with ((dquote :: quote_body k ++ [dquote])
                        ++ colon :: JSON_stringify x
                        ++ comma :: stringify_members (y :: r') ++ rbrace :: rest)
    end.
    2:{ rewrite <- !app_assoc. cbn [List.app]. rewrite <- !app_assoc.
        reflexivity. }
    rewrite Hkey. cbn [List.length] in Hfuel.
    rewrite Hx; [| exact Hwx | lia | left; reflexivity].
    change (skip_ws (comma :: ?s)) with (comma :: s).
    cbv iota beta. rewrite N.eqb_refl.
    rewrite IH; [reflexivity | exact Hwr | discriminate | lia].
Qed.

(** Every value is read back from its serialization. *)
Theorem parse_value_stringify v : parses_back v.
Proof.
  induction v as [| b | x | s | l IH | ms IH] using json_induction;
    intros Hwf fuel rest Hfuel Hrest;
    (destruct fuel as [| fuel]; [lia |]).
  - reflexivity.
  - destruct b; reflexivity.
  - cbn [JSON_stringify] in *. cbn [json_wf] in Hwf.
    destruct (Number_toString_head x) as (c & tl & Hx & Hc).
    pose proof (parse_number_toString rest Hwf (value_end_number_end _ Hrest)) as Hp.
    rewrite Hx in *. cbn [List.app] in *.
    rewrite parse_value_number by exact Hc. rewrite Hp. reflexivity.
  - cbn [JSON_stringify]. unfold QuoteJSONString. cbn [List.app].
    rewrite parse_value_string, <- app_assoc. cbn [List.app].
    rewrite parse_quote_body. reflexivity.
  - rewrite JSON_stringify_array in *. cbn [List.app]. rewrite <- app_assoc.
    cbn [List.app].
    destruct l as [| x r]; [reflexivity |].
    apply json_wf_array in Hwf.
    rewrite parse_value_array.
    + rewrite parse_elements_stringify; try assumption; try discriminate.
      * reflexivity.
      * cbn [List.length] in Hfuel. rewrite length_app in Hfuel.
        cbn [List.length] in Hfuel. lia.
    + cbn [stringify_elements]. rewrite <- app_assoc.
      apply starts_value_app. apply stringify_starts_value.
  - rewrite JSON_stringify_object in *. cbn [List.app]. rewrite <- app_assoc.
    cbn [List.app].
    destruct ms as [| kv r]; [reflexivity |].
    apply json_wf_object in Hwf. destruct Hwf as [Hnd Hwf].
    rewrite parse_value_object.
    + rewrite parse_members_stringify; try assumption; try discriminate.
      * rewrite build_object_nodup by exact Hnd. reflexivity.
      * cbn [List.length] in Hfuel. rewrite length_app in Hfuel.
        cbn [List.length] in Hfuel. lia.
    + destruct kv as [k x]. cbn [stringify_members]. unfold QuoteJSONString.
      eexists; eexists; split; [reflexivity | repeat split; reflexivity].
Qed.

(** [JSON.parse(JSON.stringify(v))] is [v]. *)
Theorem JSON_parse_stringify v :
  json_wf v -> JSON_parse (JSON_stringify v) = Normal v.
Proof.
  intro Hwf. unfold JSON_parse, parse_value_fuel.
  pose proof (@parse_value_stringify v Hwf (S (2 * List.length (JSON_stringify v))) []) as H.
  rewrite List.app_nil_r in H. rewrite H; [reflexivity | lia | exact I].
Qed.

(** ** The value codec: [Encode] and [parseValue] *)

Lemma nodup_names (ks : list jsstring) :
  (fix distinct (l : list jsstring) : bool :=
     match l with
     | [] => true
     | k :: r => negb (existsb (jsstring_eqb k) r) && distinct r
     end) ks = true ->
  NoDup ks.
Proof.
  induction ks as [| k r IH]; intro H; constructor.
  - apply andb_true_iff in H. destruct H as [H _].
    intro Hin. apply negb_true_iff in H.
    assert (Hex : existsb (jsstring_eqb k) r = true).
    { apply existsb_exists. exists k. split; [exact Hin | apply jsstring_eqb_refl]. }
    congruence.
  - apply IH. apply andb_true_iff in H. exact (proj2 H).
Qed.

Lemma HistoryEntry_to_json_wf e : json_wf (HistoryEntry_to_json e).
Proof.
  unfold HistoryEntry_to_json. apply json_wf_object. split.
  - apply nodup_names. reflexivity.
  - constructor; [exact I |].
    constructor; [apply number_of_Z_canonical | constructor].
Qed.

Lemma AnalyticsData_to_json_wf d :
  canonical (bounceRate d) -> canonical (avgTimeOnPage d) ->
  json_wf (AnalyticsData_to_json d).
Proof.
  intros Hb Ha. unfold AnalyticsData_to_json. apply json_wf_object. split.
  - apply nodup_names. reflexivity.
  - constructor; [apply number_of_Z_canonical |].
    constructor; [apply number_of_Z_canonical |].
    constructor; [exact Hb |].
    constructor; [exact Ha |].
    constructor; [exact I |].
    constructor; [| constructor].
    cbn [snd]. apply json_wf_array. apply Forall_map, Forall_forall.
    intros e _. apply HistoryEntry_to_json_wf.
Qed.

Lemma Value_to_json_wf v : well_formed_value v -> json_wf (Value_to_json v).
Proof.
  unfold well_formed_value, Value_to_json. intro H.
  apply json_wf_object. split.
  - apply nodup_names. reflexivity.
  - constructor; [| constructor]. cbn [snd].
    destruct (analyticsData v) as [d |]; [| exact I].
    destruct H as (_ & _ & Hb & Ha & _).
    apply AnalyticsData_to_json_wf; assumption.
Qed.

(** C3: a wrapper [{analyticsData: s}], with [s] a well-formed snapshot
    or [null], is read back by [parseValue] from its encoding as the
    very value that was encoded. *)
Theorem parseValue_Encode v :
  well_formed_value v ->
  parseValue (Some (Encode v)) = Normal (ParsedValue (Value_to_json v)).
Proof.
  intro H. rewrite parseValue_unfold. unfold Encode.
  rewrite JSON_parse_stringify by (apply Value_to_json_wf; exact H).
  reflexivity.
Qed.

Lemma sample_snapshot_well_formed : well_formed_snapshot sample_snapshot.
Proof.
  unfold well_formed_snapshot, sample_snapshot.
  cbn [pageViews uniqueVisitors bounceRate avgTimeOnPage pageViewsHistory].
  split; [lia |]. split; [lia |].
  split; [apply number_shift_canonical, number_of_Z_canonical |].
  split; [apply number_shift_canonical, number_of_Z_canonical |].
  repeat constructor; cbn [views]; lia.
Qed.

Lemma parseValue_Encode_witness :
  well_formed_value (mkValue (Some sample_snapshot)) /\
  parseValue (Some (Encode (mkValue (Some sample_snapshot))))
  = Normal (ParsedValue (Value_to_json (mkValue (Some sample_snapshot)))).
Proof.
  assert (H : well_formed_value (mkValue (Some sample_snapshot))).
  { unfold well_formed_value, well_formed_snapshot, canonical. simpl.
    repeat split; try lia; try discriminate; try reflexivity.
    repeat constructor; simpl; lia. }
  split; [exact H |].
  exact (@parseValue_Encode (mkValue (Some sample_snapshot)) H).
Defined.

Example Encode_null :
  Encode (mkValue None)
  = lit "{" ++ QuoteJSONString (lit "analyticsData") ++ lit ":null}".
Proof. reflexivity. Qed.

Example Encode_sample_history :
  JSON_stringify
    (JArray (map HistoryEntry_to_json (pageViewsHistory sample_snapshot)))
  = lit "[{" ++ QuoteJSONString (lit "date") ++ lit ":"
      ++ QuoteJSONString (lit "2026-01-06") ++ lit ","
      ++ QuoteJSONString (lit "views") ++ lit ":500},{"
      ++ QuoteJSONString (lit "date") ++ lit ":"
      ++ QuoteJSONString (lit "2026-01-07") ++ lit ","
      ++ QuoteJSONString (lit "views") ++ lit ":700}]".
Proof. vm_compute. reflexivity. Qed.

Example Number_toString_samples :
  Number_toString (bounceRate sample_snapshot) = lit "35.5" /\
  Number_toString (avgTimeOnPage sample_snapshot) = lit "120.4" /\
  Number_toString (number_of_Z 1200) = lit "1200" /\
  Number_toString (number_of_Z (-7)) = lit "-7" /\
  Number_toString (number_shift (number_of_Z 12345) 9) = lit "0.000012345" /\
  Number_toString (number_shift (number_of_Z 1) 7) = lit "1e-7" /\
  Number_toString (number_of_Z 1000000000000000000000) = lit "1e+21" /\
  Number_toString (number_shift (number_of_Z 15) (-21)) = lit "1.5e+22".
Proof. vm_compute. repeat split. Qed.

(** The snapshots of the generator are well formed, hence read back. *)
Lemma generateFakeAnalytics_well_formed rt now used :
  binary64_rounding (fl rt) -> unit_interval (random rt) ->
  well_formed_snapshot (generateFakeAnalytics rt now used).
Proof.
  intros Hfl Hrand.
  pose proof (@pageViews_bounds rt Hfl Hrand now used) as Hpv.
  pose proof (@uniqueVisitors_nonneg rt Hfl Hrand now used) as Huv.
  split; [lia |]. split; [lia |].
  split; [apply number_shift_canonical, number_of_Z_canonical |].
  split; [apply number_shift_canonical, number_of_Z_canonical |].
  unfold generateFakeAnalytics. cbn [pageViewsHistory].
  apply Forall_map, Forall_forall. intros i _.
  pose proof (@history_views_bounds rt Hfl Hrand now used i). lia.
Qed.

(* ================================================================== *)
(** * Part III: further properties of the code *)
(* ================================================================== *)

(** ** The value of a number *)

Lemma fold_digit_step l : forall a,
  fold_left digit_step l a
  = (a * 10 ^ Z.of_nat (List.length l) + digits_Z l)%Z.
Proof.
  unfold digits_Z.
  induction l as [| d l IH]; intro a; cbn [fold_left List.length].
  - cbn. lia.
  - rewrite IH, (IH (digit_step 0 d)). unfold digit_step.
    rewrite Nat2Z.inj_succ, Z.pow_succ_r by lia. lia.
Qed.

Lemma digits_Z_app l1 l2 :
  digits_Z (l1 ++ l2)
  = (digits_Z l1 * 10 ^ Z.of_nat (List.length l2) + digits_Z l2)%Z.
Proof.
  unfold digits_Z at 1. rewrite fold_left_app.
  fold (digits_Z l1). apply fold_digit_step.
Qed.

Lemma digits_Z_zeros m : digits_Z (repeat d0 m) = 0%Z.
Proof.
  induction m as [| m IH]; [reflexivity |].
  cbn [repeat]. change (d0 :: repeat d0 m) with ([d0] ++ repeat d0 m).
  rewrite digits_Z_app, IH. reflexivity.
Qed.

Lemma drop_zeros_split l : l = repeat d0 (count_zeros l) ++ drop_zeros l.
Proof.
  induction l as [| d l IH]; [reflexivity |].
  cbn [count_zeros drop_zeros]. destruct d; cbn [is_d0]; try reflexivity.
  cbn [repeat List.app]. f_equal. exact IH.
Qed.

Lemma strip_trailing_split l :
  exists m, l = strip_trailing l ++ repeat d0 m.
Proof.
  induction l as [| d l (m & IH)]; [exists 0%nat; reflexivity |].
  cbn [strip_trailing]. destruct (strip_trailing l) as [| e r] eqn:Hs.
  - destruct d; cbn [is_d0];
      try (exists m; cbn [List.app] in *; f_equal; exact IH).
    exists (S m). cbn [List.app repeat] in *. f_equal. exact IH.
  - exists m. cbn [List.app] in *. f_equal. exact IH.
Qed.

Lemma of_uint_acc_digits d : forall acc,
  Z.pos (Pos.of_uint_acc d acc) = fold_left digit_step (to_list d) (Z.pos acc).
Proof.
  induction d; intro acc; cbn [Pos.of_uint_acc to_list fold_left];
    [reflexivity | rewrite IHd; f_equal; unfold digit_step; cbn [digit_value]; lia ..].
Qed.

Lemma of_uint_digits d : Z.of_N (N.of_uint d) = digits_Z (to_list d).
Proof.
  unfold N.of_uint, digits_Z.
  induction d; cbn [Pos.of_uint to_list fold_left];
    [reflexivity | exact IHd | cbn [Z.of_N]; rewrite of_uint_acc_digits; reflexivity ..].
Qed.

Lemma digits_Z_decimal n : digits_Z (decimal_digits n) = Z.of_N n.
Proof.
  unfold decimal_digits. rewrite <- of_uint_digits, DecimalN.Unsigned.of_to.
  reflexivity.
Qed.

(** The number of an integer: its significant digits, and the zeros
    that [point] stands for. *)
Lemma number_of_Z_shape k :
  k <> 0%Z ->
  exists core m,
    number_of_Z k = mkNumber (k <? 0)%Z core (Z.of_nat (List.length core + m)) /\
    (digits_Z core * 10 ^ Z.of_nat m = Z.abs k)%Z.
Proof.
  intro Hk. unfold number_of_Z, number_of_literal.
  set (d := decimal_digits (Z.to_N (Z.abs k))).
  rewrite List.app_nil_r.
  assert (Hd : digits_Z d = Z.abs k).
  { unfold d. rewrite digits_Z_decimal. lia. }
  pose proof (drop_zeros_split d) as Hz.
  destruct (strip_trailing_split (drop_zeros d)) as [m Hm].
  assert (Hv : (digits_Z (strip_trailing (drop_zeros d)) * 10 ^ Z.of_nat m
                = Z.abs k)%Z).
  { pose proof (f_equal digits_Z Hz) as E1.
    rewrite digits_Z_app, digits_Z_zeros in E1.
    pose proof (f_equal digits_Z Hm) as E2.
    rewrite digits_Z_app, digits_Z_zeros, repeat_length in E2. lia. }
  assert (Hl : List.length d
               = (count_zeros d + (List.length (strip_trailing (drop_zeros d)) + m))%nat).
  { pose proof (f_equal (@List.length _) Hz) as E1.
    rewrite length_app, repeat_length in E1.
    pose proof (f_equal (@List.length _) Hm) as E2.
    rewrite length_app, repeat_length in E2. lia. }
  destruct (strip_trailing (drop_zeros d)) as [| c core] eqn:Hc.
  - cbn in Hv. lia.
  - exists (c :: core), m. split; [| exact Hv].
    f_equal. lia.
Qed.

Lemma number_value_integer k : number_value (number_of_Z k) == inject_Z k.
Proof.
  destruct (Z.eq_dec k 0) as [-> | Hk]; [reflexivity |].
  destruct (number_of_Z_shape Hk) as (core & m & -> & Hv).
  unfold number_value. cbn [negative sig_digits point].
  replace (Z.of_nat (List.length core + m) - Z.of_nat (List.length core))%Z
    with (Z.of_nat m) by lia.
  destruct (Z.leb_spec 0 (Z.of_nat m)); [| lia].
  destruct (Z.ltb_spec k 0).
  - rewrite Z.mul_opp_l, Hv. f_equal. replace (- Z.abs k)%Z with k by lia. reflexivity.
  - rewrite Hv. replace (Z.abs k) with k by lia. reflexivity.
Qed.

Lemma number_value_tenths k :
  number_value (number_shift (number_of_Z k) 1) == k # 10.
Proof.
  destruct (Z.eq_dec k 0) as [-> | Hk]; [reflexivity |].
  destruct (number_of_Z_shape Hk) as (core & m & -> & Hv).
  assert (Hcore : core <> []).
  { intros ->. cbn in Hv. lia. }
  unfold number_shift, number_value. cbn [negative sig_digits point].
  destruct core as [| c core']; [congruence |].
  cbn [negative sig_digits point].
  set (core := c :: core') in *.
  replace (Z.of_nat (List.length core + m) - 1 - Z.of_nat (List.length core))%Z
    with (Z.of_nat m - 1)%Z by lia.
  set (M := if (k <? 0)%Z then (- digits_Z core)%Z else digits_Z core).
  assert (HM : (M * 10 ^ Z.of_nat m = k)%Z).
  { unfold M. destruct (Z.ltb_spec k 0); lia. }
  destruct (Z.leb_spec 0 (Z.of_nat m - 1)).
  - unfold Qeq. cbn [Qnum Qden inject_Z].
    replace (Z.of_nat m) with (Z.succ (Z.of_nat m - 1)) in HM by lia.
    rewrite Z.pow_succ_r in HM by lia. lia.
  - assert (m = 0%nat) by lia. subst m. cbn in HM.
    replace (- (0 - 1))%Z with 1%Z by lia.
    change (Z.to_pos (10 ^ 1)) with 10%positive.
    replace M with k by lia. reflexivity.
Qed.

(** ** The generator: the ranges of a snapshot *)

Lemma fold_left_add_views l : forall a,
  fold_left (fun sum day => (sum + views day)%Z) l a
  = (a + list_sum_Z (map views l))%Z.
Proof.
  induction l as [| e l IH]; intro a; cbn [fold_left map list_sum_Z fold_right].
  - lia.
  - rewrite IH. unfold list_sum_Z. lia.
Qed.

Section GeneratorRanges.
Variable rt : Runtime.
Hypothesis Hfl : binary64_rounding (fl rt).
Hypothesis Hrand : unit_interval (random rt).

Lemma fl_between x (a b : Z) :
  (Z.abs a <= 9007199254740992)%Z -> (Z.abs b <= 9007199254740992)%Z ->
  inject_Z a <= x -> x <= inject_Z b ->
  inject_Z a <= fl rt x /\ fl rt x <= inject_Z b.
Proof.
  intros Ha Hb H1 H2. split.
  - rewrite <- (fl_integer Hfl a Ha). apply (fl_monotone Hfl). exact H1.
  - rewrite <- (fl_integer Hfl b Hb). apply (fl_monotone Hfl). exact H2.
Qed.

(** [Math.round((lo + Math.random() * span) * 10)], in tenths. *)
Lemma rounded_tenths_bounds (lo span : Z) r :
  (0 <= lo <= 1000)%Z -> (0 <= span <= 1000)%Z ->
  0 <= r -> r < 1 ->
  let f := fl rt in
  (10 * lo
   <= Math_round (f (f (inject_Z lo + f (r * inject_Z span)) * 10))%Q
   <= 10 * (lo + span))%Z.
Proof.
  intros Hlo Hspan H0 H1 f. subst f.
  assert (Hs : 0 <= inject_Z span).
  { change 0 with (inject_Z 0). rewrite <- Zle_Qle. lia. }
  assert (Hrs : 0 <= r * inject_Z span) by (apply Qmult_le_0_compat; assumption).
  assert (Hrs' : 0 <= (1 - r) * inject_Z span)
    by (apply Qmult_le_0_compat; [lra | assumption]).
  destruct (@fl_between (r * inject_Z span) 0 span) as [A1 A2]; try lia.
  { exact Hrs. }
  { lra. }
  set (p := fl rt (r * inject_Z span)) in *.
  destruct (@fl_between (inject_Z lo + p) lo (lo + span)) as [B1 B2]; try lia.
  { change (inject_Z 0) with 0 in A1. lra. }
  { rewrite inject_Z_plus. lra. }
  set (q := fl rt (inject_Z lo + p)) in *.
  destruct (@fl_between (q * 10) (10 * lo) (10 * (lo + span))) as [C1 C2]; try lia.
  { rewrite inject_Z_mult. change (inject_Z 10) with 10. lra. }
  { rewrite inject_Z_mult. change (inject_Z 10) with 10. lra. }
  set (t := fl rt (q * 10)) in *.
  unfold Math_round. split.
  - rewrite <- (Qfloor_Z (10 * lo)). apply Qfloor_resp_le. lra.
  - assert (Hlt : t + (1 # 2) < inject_Z (10 * (lo + span) + 1)).
    { rewrite inject_Z_plus. change (inject_Z 1) with 1. lra. }
    pose proof (Qfloor_le (t + (1 # 2))) as Hf.
    assert (Hz : inject_Z (Qfloor (t + (1 # 2))) < inject_Z (10 * (lo + span) + 1))
      by (eapply Qle_lt_trans; eassumption).
    rewrite <- Zlt_Qlt in Hz. lia.
Qed.

Lemma fl_lower x :
  min_normal <= x -> x <= max_normal -> x * (1 - unit_roundoff) <= fl rt x.
Proof.
  intros Hlo Hhi. pose proof (fl_error Hfl Hlo Hhi) as He.
  apply Qabs_Qle_condition in He. destruct He as [He _]. lra.
Qed.

(** [0.6 + Math.random() * 0.2] lies between 0.6 and 0.8, up to the
    rounding of its three operations. *)
Lemma visitors_factor_range r :
  0 <= r -> r < 1 ->
  let f := fl rt in
  (6 # 10) * (1 - unit_roundoff) <= f (f (6 # 10) + f (r * f (2 # 10))) /\
  f (f (6 # 10) + f (r * f (2 # 10)))
  <= (8 # 10) * (1 + unit_roundoff) * (1 + unit_roundoff).
Proof.
  intros H0 H1 f. subst f.
  destruct (@normal_range_tenths 6%Z ltac:(lia)) as [Hn6 Hx6].
  destruct (@normal_range_tenths 2%Z ltac:(lia)) as [Hn2 Hx2].
  pose proof (fl_lower Hn6 Hx6) as La.
  pose proof (@fl_upper rt Hfl _ Hn6 Hx6) as Ua.
  pose proof (@fl_upper rt Hfl _ Hn2 Hx2) as Ub.
  assert (Hb : 0 <= fl rt (2 # 10)) by (apply (@fl_nonneg rt Hfl); lra).
  assert (Haa : fl rt (fl rt (6 # 10)) == fl rt (6 # 10)) by apply (fl_idempotent Hfl).
  assert (Hbb : fl rt (fl rt (2 # 10)) == fl rt (2 # 10)) by apply (fl_idempotent Hfl).
  set (a := fl rt (6 # 10)) in *. set (b := fl rt (2 # 10)) in *.
  assert (Hp : 0 <= r * b) by nra.
  assert (Hp' : r * b <= b) by nra.
  assert (Hc : 0 <= fl rt (r * b)) by (apply (@fl_nonneg rt Hfl); exact Hp).
  assert (Hc' : fl rt (r * b) <= b).
  { apply Qle_trans with (fl rt b).
    - apply (fl_monotone Hfl). exact Hp'.
    - apply Qle_lteq. right. exact Hbb. }
  set (c := fl rt (r * b)) in *.
  unfold unit_roundoff in *.
  split.
  - apply Qle_trans with a; [exact La |].
    apply Qle_trans with (fl rt a); [apply Qle_lteq; right; symmetry; exact Haa |].
    apply (fl_monotone Hfl). lra.
  - apply Qle_trans with (fl rt (a + b)); [apply (fl_monotone Hfl); lra |].
    assert (K1 : min_normal <= (6 # 10) * (1 - (1 # 9007199254740992)))
      by (unfold min_normal, Qle; vm_compute; discriminate).
    assert (K2 : (8 # 10) * (1 + (1 # 9007199254740992)) <= max_normal)
      by (unfold max_normal, Qle; vm_compute; discriminate).
    assert (Hn : min_normal <= a + b) by lra.
    assert (Hm : a + b <= max_normal) by lra.
    pose proof (@fl_upper rt Hfl _ Hn Hm) as Uab. unfold unit_roundoff in Uab.
    lra.
Qed.


(** The average time of a snapshot of the generator, in tenths of a
    second. *)
Lemma avgTimeOnPage_tenths now used :
  exists k, (450 <= k <= 2250)%Z /\
    number_value (avgTimeOnPage (generateFakeAnalytics rt now used)) == k # 10.
Proof.
  unfold generateFakeAnalytics. cbn [avgTimeOnPage].
  destruct (Hrand (used + historyDays + 2)%nat) as [Ha0 Ha1].
  pose proof (@rounded_tenths_bounds 45 180 _ ltac:(lia) ltac:(lia) Ha0 Ha1) as Ha.
  cbv zeta in Ha.
  change (inject_Z 45) with 45 in Ha. change (inject_Z 180) with 180 in Ha.
  set (ka := Math_round _) in Ha |- *.
  exists ka. split; [lia | apply number_value_tenths].
Qed.

(** X1: the bounce rate of a generated snapshot is a number of tenths
    between 20 and 50, and its average time on page one between 45 and
    225, whatever [Math.random] returns. *)
Theorem generated_measures_ranges now used :
  let s := generateFakeAnalytics rt now used in
  (exists k, (200 <= k <= 500)%Z /\ number_value (bounceRate s) == k # 10) /\
  (exists k, (450 <= k <= 2250)%Z /\ number_value (avgTimeOnPage s) == k # 10) /\
  20 <= number_value (bounceRate s) <= 50 /\
  45 <= number_value (avgTimeOnPage s) <= 225.
Proof.
  cbv zeta. unfold generateFakeAnalytics. cbn [bounceRate avgTimeOnPage].
  destruct (Hrand (used + historyDays + 1)%nat) as [Hb0 Hb1].
  destruct (Hrand (used + historyDays + 2)%nat) as [Ha0 Ha1].
  pose proof (@rounded_tenths_bounds 20 30 _ ltac:(lia) ltac:(lia) Hb0 Hb1) as Hb.
  pose proof (@rounded_tenths_bounds 45 180 _ ltac:(lia) ltac:(lia) Ha0 Ha1) as Ha.
  cbv zeta in Hb, Ha.
  change (inject_Z 20) with 20 in Hb. change (inject_Z 30) with 30 in Hb.
  change (inject_Z 45) with 45 in Ha. change (inject_Z 180) with 180 in Ha.
  set (kb := Math_round _) in Hb |- *. set (ka := Math_round _) in Ha |- *.
  assert (Qb : 20 <= kb # 10 <= 50).
  { unfold Qle. cbn [Qnum Qden]. lia. }
  assert (Qa : 45 <= ka # 10 <= 225).
  { unfold Qle. cbn [Qnum Qden]. lia. }
  split; [exists kb; split; [lia | apply number_value_tenths] |].
  split; [exists ka; split; [lia | apply number_value_tenths] |].
  rewrite !number_value_tenths. split; assumption.
Qed.

(** X2: every day of a generated history has between 100 and 600
    views, and [pageViews] is their sum, between 700 and 4200. *)
Theorem generated_views_ranges now used :
  let s := generateFakeAnalytics rt now used in
  Forall (fun e => (100 <= views e <= 600)%Z) (pageViewsHistory s) /\
  pageViews s = list_sum_Z (map views (pageViewsHistory s)) /\
  (700 <= pageViews s <= 4200)%Z.
Proof.
  cbv zeta. split; [| split].
  - unfold generateFakeAnalytics. cbn [pageViewsHistory].
    apply Forall_map, Forall_forall. intros i _.
    apply (@history_views_bounds rt Hfl Hrand).
  - unfold generateFakeAnalytics. cbn [pageViews pageViewsHistory].
    rewrite fold_left_add_views. lia.
  - apply (@pageViews_bounds rt Hfl Hrand).
Qed.

(** X3: the unique visitors of a generated snapshot are between 60%
    and 80% of its page views, rounded down to an integer. *)
Theorem uniqueVisitors_share now used :
  let s := generateFakeAnalytics rt now used in
  (6 * pageViews s <= 10 * uniqueVisitors s + 10 /\
   10 * uniqueVisitors s <= 8 * pageViews s)%Z.
Proof.
  intro s. pose proof (@pageViews_bounds rt Hfl Hrand now used) as Hpv. fold s in Hpv.
  subst s. unfold generateFakeAnalytics in *.
  cbn [uniqueVisitors pageViews] in *.
  set (total := fold_left _ _ _) in *.
  destruct (Hrand (used + historyDays)%nat) as [H0 H1].
  pose proof (visitors_factor_range H0 H1) as [Lg Ug]. cbv zeta in Lg, Ug.
  set (g := fl rt (fl rt (6 # 10)
                   + fl rt (random rt (used + historyDays)%nat * fl rt (2 # 10))))
    in *.
  unfold Math_floor.
  assert (T1 : 700 <= inject_Z total).
  { change 700 with (inject_Z 700). rewrite <- Zle_Qle. lia. }
  assert (T2 : inject_Z total <= 4200).
  { change 4200 with (inject_Z 4200). rewrite <- Zle_Qle. lia. }
  set (t := inject_Z total) in *.
  unfold unit_roundoff in *.
  assert (P1 : t * ((6 # 10) * (1 - (1 # 9007199254740992))) <= t * g) by nra.
  assert (P2 : t * g
               <= t * ((8 # 10) * (1 + (1 # 9007199254740992))
                       * (1 + (1 # 9007199254740992)))) by nra.
  assert (K1 : min_normal <= 700 * ((6 # 10) * (1 - (1 # 9007199254740992))))
    by (unfold min_normal, Qle; vm_compute; discriminate).
  assert (K2 : 4200 * ((8 # 10) * (1 + (1 # 9007199254740992))
                       * (1 + (1 # 9007199254740992))) <= max_normal)
    by (unfold max_normal, Qle; vm_compute; discriminate).
  assert (Hn : min_normal <= t * g) by lra.
  assert (Hm : t * g <= max_normal) by lra.
  pose proof (fl_lower Hn Hm) as Ly.
  pose proof (@fl_upper rt Hfl _ Hn Hm) as Uy.
  unfold unit_roundoff in *.
  set (y := fl rt (t * g)) in *.
  pose proof (Qfloor_le y) as F1. pose proof (Qlt_floor y) as F2.
  set (uv := Qfloor y) in *.
  rewrite inject_Z_plus in F2. change (inject_Z 1) with 1 in F2.
  split.
  - assert (Hz : inject_Z (6 * total) < inject_Z (10 * uv + 11)).
    { rewrite inject_Z_plus, !inject_Z_mult. fold t.
      change (inject_Z 6) with 6. change (inject_Z 10) with 10.
      change (inject_Z 11) with 11. lra. }
    rewrite <- Zlt_Qlt in Hz. clear -Hz. clearbody uv total. lia.
  - assert (Hz : inject_Z (10 * uv) < inject_Z (8 * total + 1)).
    { rewrite inject_Z_plus, !inject_Z_mult. fold t.
      change (inject_Z 8) with 8. change (inject_Z 10) with 10.
      change (inject_Z 1) with 1. lra. }
    rewrite <- Zlt_Qlt in Hz. clear -Hz. clearbody uv total. lia.
Qed.

End GeneratorRanges.

Lemma sample_runtime_rounding : binary64_rounding (fl sample_runtime).
Proof. exact exact_rounding. Qed.

Lemma sample_runtime_random : unit_interval (random sample_runtime).
Proof. intro i. split; [discriminate | reflexivity]. Qed.

Lemma generated_views_ranges_witness :
  binary64_rounding (fl sample_runtime) /\
  unit_interval (random sample_runtime) /\
  (700 <= pageViews (generateFakeAnalytics sample_runtime 0 0) <= 4200)%Z.
Proof.
  split; [exact sample_runtime_rounding |].
  split; [exact sample_runtime_random |].
  destruct (@generated_views_ranges sample_runtime sample_runtime_rounding
              sample_runtime_random 0%Z 0%nat) as (_ & _ & H).
  exact H.
Defined.

Lemma generated_measures_ranges_witness :
  binary64_rounding (fl sample_runtime) /\
  unit_interval (random sample_runtime) /\
  20 <= number_value (bounceRate (generateFakeAnalytics sample_runtime 0 0)) <= 50.
Proof.
  split; [exact sample_runtime_rounding |].
  split; [exact sample_runtime_random |].
  destruct (@generated_measures_ranges sample_runtime sample_runtime_rounding
              sample_runtime_random 0%Z 0%nat) as (_ & _ & H & _).
  exact H.
Defined.

Lemma uniqueVisitors_share_witness :
  binary64_rounding (fl sample_runtime) /\
  unit_interval (random sample_runtime) /\
  let s := generateFakeAnalytics sample_runtime 0 0 in
  (6 * pageViews s <= 10 * uniqueVisitors s + 10 /\
   10 * uniqueVisitors s <= 8 * pageViews s)%Z.
Proof.
  split; [exact sample_runtime_rounding |].
  split; [exact sample_runtime_random |].
  exact (@uniqueVisitors_share sample_runtime sample_runtime_rounding
           sample_runtime_random 0%Z 0%nat).
Defined.

(** ** [formatTime] *)

Lemma Qfloor_unique (x : Q) (m : Z) :
  inject_Z m <= x -> x < inject_Z (m + 1) -> Qfloor x = m.
Proof.
  intros H1 H2.
  pose proof (Qfloor_resp_le _ _ H1) as L. rewrite Qfloor_Z in L.
  pose proof (Qfloor_le x) as U.
  assert (Hz : inject_Z (Qfloor x) < inject_Z (m + 1))
    by (eapply Qle_lt_trans; eassumption).
  rewrite <- Zlt_Qlt in Hz. lia.
Qed.

Lemma fl_proper rt x y : binary64_rounding (fl rt) -> x == y -> fl rt x == fl rt y.
Proof.
  intros Hfl E. apply Qle_antisym; apply (fl_monotone Hfl); rewrite E; apply Qle_refl.
Qed.

(** The double nearest to [k / 10] is within a hundredth above the
    integer part of [k / 10], and not below it. *)
Lemma fl_tenths rt (k : Z) :
  binary64_rounding (fl rt) ->
  (0 <= k <= 1000000000000)%Z ->
  inject_Z (k / 10) <= fl rt (k # 10) /\
  fl rt (k # 10) <= inject_Z (k / 10) + (91 # 100).
Proof.
  intros Hfl Hk. set (n := (k / 10)%Z).
  assert (Hn : (10 * n <= k <= 10 * n + 9)%Z)
    by (unfold n; Z.to_euclidean_division_equations; lia).
  assert (Q1 : inject_Z n <= k # 10).
  { unfold Qle. cbn [Qnum Qden inject_Z]. lia. }
  assert (Q2 : k # 10 <= inject_Z n + (9 # 10)).
  { unfold Qle, Qplus. cbn [Qnum Qden inject_Z]. lia. }
  assert (N0 : 0 <= inject_Z n).
  { change 0 with (inject_Z 0). rewrite <- Zle_Qle. lia. }
  assert (N1 : inject_Z n <= 100000000000).
  { change 100000000000 with (inject_Z 100000000000). rewrite <- Zle_Qle. lia. }
  split.
  - rewrite <- (fl_integer Hfl n) by lia. apply (fl_monotone Hfl). exact Q1.
  - eapply Qle_trans; [apply (fl_monotone Hfl); exact Q2 |].
    assert (K1 : min_normal <= 9 # 10)
      by (unfold min_normal, Qle; vm_compute; discriminate).
    assert (K2 : 100000000001 <= max_normal)
      by (unfold max_normal, Qle; vm_compute; discriminate).
    pose proof (@fl_upper rt Hfl (inject_Z n + (9 # 10)) ltac:(lra) ltac:(lra)) as U.
    unfold unit_roundoff in U. lra.
Qed.

(** The two floors of [formatTime], on the double nearest to [k / 10]. *)
Lemma formatTime_floors rt (seconds : Q) (k : Z) :
  binary64_rounding (fl rt) ->
  (0 <= k <= 1000000000000)%Z ->
  seconds == fl rt (k # 10) ->
  Qfloor (fl rt (seconds / 60)) = (k / 600)%Z /\
  Qfloor (js_rem seconds 60) = ((k mod 600) / 10)%Z.
Proof.
  intros Hfl Hk Hs. set (mins := (k / 600)%Z). set (secs := ((k mod 600) / 10)%Z).
  destruct (@fl_tenths rt k Hfl Hk) as [L U]. rewrite <- Hs in L, U.
  set (n := (k / 10)%Z) in *.
  assert (Hn : (60 * mins + secs = n /\ 0 <= secs <= 59 /\ 0 <= mins <= 10000000000)%Z).
  { unfold n, mins, secs. Z.to_euclidean_division_equations. lia. }
  destruct Hn as (En & Hsecs & Hmins).
  assert (En' : inject_Z n == 60 * inject_Z mins + inject_Z secs).
  { rewrite <- En. rewrite inject_Z_plus, inject_Z_mult. reflexivity. }
  assert (S0 : 0 <= inject_Z secs /\ inject_Z secs <= 59).
  { change 0 with (inject_Z 0). change 59 with (inject_Z 59).
    rewrite <- !Zle_Qle. lia. }
  assert (M0 : 0 <= inject_Z mins /\ inject_Z mins <= 10000000000).
  { change 0 with (inject_Z 0). change 10000000000 with (inject_Z 10000000000).
    rewrite <- !Zle_Qle. lia. }
  assert (D : seconds / 60 == seconds * (1 # 60)) by reflexivity.
  assert (Hx1 : inject_Z mins <= seconds / 60) by (rewrite D; lra).
  assert (Hx2 : seconds / 60 <= inject_Z mins + (5991 # 6000)) by (rewrite D; lra).
  assert (Hfloor1 : Qfloor (fl rt (seconds / 60)) = mins).
  { apply Qfloor_unique.
    - rewrite <- (fl_integer Hfl mins) by lia. apply (fl_monotone Hfl). exact Hx1.
    - eapply Qle_lt_trans; [apply (fl_monotone Hfl); exact Hx2 |].
      assert (K1 : min_normal <= 5991 # 6000)
        by (unfold min_normal, Qle; vm_compute; discriminate).
      assert (K2 : 10000000001 <= max_normal)
        by (unfold max_normal, Qle; vm_compute; discriminate).
      pose proof (@fl_upper rt Hfl (inject_Z mins + (5991 # 6000))
                    ltac:(lra) ltac:(lra)) as Up.
      unfold unit_roundoff in Up.
      rewrite inject_Z_plus. change (inject_Z 1) with 1. lra. }
  assert (Htr : Qtrunc (seconds / 60) = mins).
  { unfold Qtrunc.
    assert (H0 : 0 <= seconds / 60) by lra.
    apply Qle_bool_iff in H0. rewrite H0.
    apply Qfloor_unique; [exact Hx1 |].
    rewrite inject_Z_plus. change (inject_Z 1) with 1. lra. }
  assert (Hfloor2 : Qfloor (js_rem seconds 60) = secs).
  { unfold js_rem. rewrite Htr. apply Qfloor_unique.
    - lra.
    - rewrite inject_Z_plus. change (inject_Z 1) with 1. lra. }
  split; assumption.
Qed.

(** X4: on the double nearest to [k / 10] seconds, [formatTime] prints
    the whole minutes and the whole seconds of [k / 10]: the fraction of
    a second is dropped, never rounded up, and the seconds stay below
    60. *)
Theorem formatTime_tenths rt (seconds : Q) (k : Z) :
  binary64_rounding (fl rt) ->
  (0 <= k <= 1000000000000)%Z ->
  seconds == fl rt (k # 10) ->
  let mins := (k / 600)%Z in
  let secs := ((k mod 600) / 10)%Z in
  formatTime rt seconds
  = Number_toString (number_of_Z mins) ++ lit "m "
      ++ Number_toString (number_of_Z secs) ++ lit "s" /\
  (0 <= secs <= 59)%Z /\
  (60 * mins + secs = k / 10)%Z.
Proof.
  intros Hfl Hk Hs mins secs.
  destruct (@formatTime_floors rt seconds k Hfl Hk Hs) as [F1 F2].
  split; [| split].
  - unfold formatTime, Math_floor. cbv zeta. rewrite F1, F2. reflexivity.
  - unfold secs. Z.to_euclidean_division_equations. lia.
  - unfold mins, secs. Z.to_euclidean_division_equations. lia.
Qed.

Lemma formatTime_tenths_witness :
  binary64_rounding (fl sample_runtime) /\
  (0 <= 1204 <= 1000000000000)%Z /\
  (1204 # 10) == fl sample_runtime (1204 # 10) /\
  formatTime sample_runtime (1204 # 10) = lit "2m 0s".
Proof.
  split; [exact sample_runtime_rounding |].
  assert (Hk : (0 <= 1204 <= 1000000000000)%Z) by lia.
  assert (Hs : (1204 # 10) == fl sample_runtime (1204 # 10)) by reflexivity.
  split; [exact Hk |]. split; [exact Hs |].
  destruct (@formatTime_tenths sample_runtime (1204 # 10) 1204%Z
              sample_runtime_rounding Hk Hs) as (H & _).
  rewrite H. reflexivity.
Defined.

(** X5: the card of the average time shows, for a generated snapshot,
    a text between 0m 45s and 3m 45s. *)
Theorem generated_avgTime_text rt now used :
  binary64_rounding (fl rt) ->
  unit_interval (random rt) ->
  exists mins secs,
    avgTime_text rt (generateFakeAnalytics rt now used)
    = Number_toString (number_of_Z mins) ++ lit "m "
        ++ Number_toString (number_of_Z secs) ++ lit "s" /\
    (0 <= mins <= 3)%Z /\ (0 <= secs <= 59)%Z /\
    (45 <= 60 * mins + secs <= 225)%Z.
Proof.
  intros Hfl Hrand.
  destruct (@avgTimeOnPage_tenths rt Hfl Hrand now used) as (k & Hk & Ek).
  assert (Hs : to_double rt (avgTimeOnPage (generateFakeAnalytics rt now used))
               == fl rt (k # 10)) by (apply fl_proper; assumption).
  destruct (@formatTime_floors rt _ k Hfl ltac:(lia) Hs) as [F1 F2].
  exists (k / 600)%Z, ((k mod 600) / 10)%Z.
  split; [| split; [| split]].
  - unfold avgTime_text, formatTime, Math_floor. cbv zeta. rewrite F1, F2.
    reflexivity.
  - Z.to_euclidean_division_equations. lia.
  - Z.to_euclidean_division_equations. lia.
  - Z.to_euclidean_division_equations. lia.
Qed.

Lemma generated_avgTime_text_witness :
  binary64_rounding (fl sample_runtime) /\
  unit_interval (random sample_runtime) /\
  exists mins secs,
    avgTime_text sample_runtime (generateFakeAnalytics sample_runtime 0 0)
    = Number_toString (number_of_Z mins) ++ lit "m "
        ++ Number_toString (number_of_Z secs) ++ lit "s" /\
    (0 <= mins <= 3)%Z /\ (0 <= secs <= 59)%Z /\
    (45 <= 60 * mins + secs <= 225)%Z.
Proof.
  split; [exact sample_runtime_rounding |].
  split; [exact sample_runtime_random |].
  exact (@generated_avgTime_text sample_runtime 0%Z 0%nat
           sample_runtime_rounding sample_runtime_random).
Defined.

(** ** The card of the bounce rate *)

(** The decimals of the tenths from 20.0 to 50.0, as they are printed. *)
Lemma Number_toString_tenths (k : Z) :
  (200 <= k <= 500)%Z ->
  Number_toString (number_shift (number_of_Z k) 1) = tenths_text k.
Proof.
  intro Hk.
  assert (H : forallb tenths_text_agrees (seq 0 301) = true)
    by (vm_compute; reflexivity).
  rewrite forallb_forall in H.
  specialize (H (Z.to_nat (k - 200))).
  unfold tenths_text_agrees in H. cbv zeta in H.
  replace (200 + Z.of_nat (Z.to_nat (k - 200)))%Z with k in H by lia.
  apply jsstring_eqb_eq, H, in_seq. lia.
Qed.

Section BounceCard.
Variable rt : Runtime.
Hypothesis Hfl : binary64_rounding (fl rt).
Hypothesis Hrand : unit_interval (random rt).

(** X6: the card of the bounce rate shows, for a generated snapshot,
    a number between 20 and 50 with one decimal at most, followed by
    the percent sign: five characters at most. *)
Theorem generated_bounceRate_text now used :
  exists k, (200 <= k <= 500)%Z /\
    bounceRate_text (generateFakeAnalytics rt now used)
    = tenths_text k ++ lit "%" /\
    (List.length (bounceRate_text (generateFakeAnalytics rt now used)) <= 5)%nat.
Proof.
  unfold bounceRate_text, generateFakeAnalytics. cbn [bounceRate].
  destruct (Hrand (used + historyDays + 1)%nat) as [Hb0 Hb1].
  pose proof (@rounded_tenths_bounds rt Hfl 20 30 _ ltac:(lia) ltac:(lia) Hb0 Hb1) as Hb.
  cbv zeta in Hb.
  change (inject_Z 20) with 20 in Hb. change (inject_Z 30) with 30 in Hb.
  set (kb := Math_round _) in Hb |- *.
  exists kb. split; [lia |].
  rewrite Number_toString_tenths by lia.
  split; [reflexivity |].
  clearbody kb.
  assert (H : forallb (fun n => (List.length (tenths_text (200 + Z.of_nat n) ++ lit "%")
                                 <=? 5)%nat) (seq 0 301) = true)
    by (vm_compute; reflexivity).
  rewrite forallb_forall in H.
  specialize (H (Z.to_nat (kb - 200))). cbv beta in H.
  replace (200 + Z.of_nat (Z.to_nat (kb - 200)))%Z with kb in H by lia.
  apply Nat.leb_le, H, in_seq. lia.
Qed.

End BounceCard.

Lemma generated_bounceRate_text_witness :
  binary64_rounding (fl sample_runtime) /\
  unit_interval (random sample_runtime) /\
  exists k, (200 <= k <= 500)%Z /\
    bounceRate_text (generateFakeAnalytics sample_runtime 0 0)
    = tenths_text k ++ lit "%" /\
    (List.length (bounceRate_text (generateFakeAnalytics sample_runtime 0 0)) <= 5)%nat.
Proof.
  split; [exact sample_runtime_rounding |].
  split; [exact sample_runtime_random |].
  exact (@generated_bounceRate_text sample_runtime sample_runtime_rounding
           sample_runtime_random 0%Z 0%nat).
Defined.

(** ** [StatCard] *)

(** X7: the trend line of a card is rendered exactly when a trend is
    given and is not zero; it is then green with an arrow up for a
    positive trend and red with an arrow down for a negative one, never
    gray, and shows the absolute value of the trend. *)
Theorem trend_line_colour trend :
  (trend_line trend = None <-> trend = None \/ trend = Some 0%Z) /\
  (forall colour text,
      trend_line trend = Some (colour, text) ->
      exists t tail,
        trend = Some t /\
        ((0 < t)%Z /\ colour = color_green /\ text = arrow_up :: tail \/
         (t < 0)%Z /\ colour = color_red /\ text = arrow_down :: tail) /\
        tail = lit " " ++ Number_toString (number_of_Z (Z.abs t))
                 ++ lit "% vs previous period") /\
  (forall colour text, trend_line trend = Some (colour, text) -> colour <> color_gray).
Proof.
  assert (Hcases : forall colour text,
             trend_line trend = Some (colour, text) ->
             exists t tail,
               trend = Some t /\
               ((0 < t)%Z /\ colour = color_green /\ text = arrow_up :: tail \/
                (t < 0)%Z /\ colour = color_red /\ text = arrow_down :: tail) /\
               tail = lit " " ++ Number_toString (number_of_Z (Z.abs t))
                        ++ lit "% vs previous period").
  { intros colour text H. destruct trend as [t |]; [| discriminate].
    unfold trend_line, trendColor in H.
    destruct (Z.eqb_spec t 0) as [-> | Hne]; [discriminate |].
    cbn [negb] in H. exists t.
    destruct (Z.gtb_spec t 0) as [Hp | Hp].
    - injection H as <- <-. eexists. split; [reflexivity |].
      split; [left; repeat split; lia | reflexivity].
    - destruct (Z.ltb_spec t 0) as [Hn | Hn]; [| lia].
      injection H as <- <-. eexists. split; [reflexivity |].
      split; [right; repeat split; lia | reflexivity]. }
  split; [| split].
  - destruct trend as [t |]; cbn [trend_line].
    + destruct (Z.eqb_spec t 0) as [-> | Hne]; cbn [negb].
      * split; auto.
      * split; [discriminate |]. intros [H | H]; [discriminate | congruence].
    + split; auto.
  - exact Hcases.
  - intros colour text H. destruct (Hcases _ _ H) as (t & tail & _ & [(_ & -> & _) | (_ & -> & _)] & _);
      discriminate.
Qed.

(** ** [Chart] *)

Lemma chart_maxViews_ge data :
  (1 <= chart_maxViews data)%Z /\
  Forall (fun day => (views day <= chart_maxViews data)%Z) data.
Proof.
  unfold chart_maxViews. induction data as [| d data [IH1 IH2]]; cbn [map fold_right].
  - split; [lia | constructor].
  - split; [lia |]. constructor; [lia |].
    eapply Forall_impl; [| exact IH2]. cbn. intros; lia.
Qed.

Lemma chart_maxViews_attained data :
  chart_maxViews data = 1%Z \/ exists day, In day data /\ views day = chart_maxViews data.
Proof.
  unfold chart_maxViews. induction data as [| d data IH]; cbn [map fold_right].
  - left. reflexivity.
  - destruct (Z.max_spec (views d) (fold_right Z.max 1%Z (map views data))) as [[_ E] | [_ E]];
      rewrite E.
    + destruct IH as [IH | (day & Hin & Hv)]; [left; exact IH |].
      right. exists day. split; [right; exact Hin | exact Hv].
    + right. exists d. split; [left; reflexivity | reflexivity].
Qed.

Lemma Math_max_ge a b : a <= Math_max a b /\ b <= Math_max a b.
Proof.
  unfold Math_max. destruct (Qle_bool a b) eqn:E.
  - apply Qle_bool_iff in E. split; [exact E | apply Qle_refl].
  - split; [apply Qle_refl |].
    apply Qlt_le_weak, Qnot_le_lt. intro H.
    apply Qle_bool_iff in H. congruence.
Qed.

Lemma chart_maxViews_positive data : 0 < inject_Z (chart_maxViews data).
Proof.
  destruct (chart_maxViews_ge data) as [Hm _].
  change 0 with (inject_Z 0). rewrite <- Zlt_Qlt. lia.
Qed.

(** A bar is between nothing and the height of the chart. *)
Lemma chart_bar_height_range rt data day :
  binary64_rounding (fl rt) ->
  (0 <= views day <= chart_maxViews data)%Z ->
  0 <= chart_bar_height rt data day /\ chart_bar_height rt data day <= chartHeight.
Proof.
  intros Hfl Hv. pose proof (chart_maxViews_positive data) as Hmq.
  unfold chart_bar_height, chartHeight.
  set (q := inject_Z (views day) / inject_Z (chart_maxViews data)).
  assert (Hq : 0 <= q /\ q <= 1).
  { unfold q. split.
    - apply Qle_shift_div_l; [exact Hmq |]. rewrite Qmult_0_l.
      change 0 with (inject_Z 0). rewrite <- Zle_Qle. lia.
    - apply Qle_shift_div_r; [exact Hmq |]. rewrite Qmult_1_l.
      rewrite <- Zle_Qle. lia. }
  destruct (@fl_between rt Hfl q 0 1) as [Hq0 Hq1]; try (cbn; lia); try tauto.
  change (inject_Z 0) with 0 in Hq0. change (inject_Z 1) with 1 in Hq1.
  destruct (@fl_between rt Hfl (fl rt q * 150) 0 150) as [Hh0 Hh1];
    try (cbn; lia).
  { change (inject_Z 0) with 0. lra. }
  { change (inject_Z 150) with 150. lra. }
  split; assumption.
Qed.

(** The bar of the day with the most views fills the chart. *)
Lemma chart_bar_height_full rt data day :
  binary64_rounding (fl rt) ->
  views day = chart_maxViews data ->
  chart_bar_height rt data day == chartHeight.
Proof.
  intros Hfl E. pose proof (chart_maxViews_positive data) as Hmq.
  assert (Hf1 : fl rt 1 == 1) by (apply (fl_integer Hfl 1); cbn; lia).
  assert (Hf150 : fl rt 150 == 150) by (apply (fl_integer Hfl 150); cbn; lia).
  unfold chart_bar_height, chartHeight. rewrite E.
  assert (E1 : inject_Z (chart_maxViews data) / inject_Z (chart_maxViews data) == 1).
  { apply Qmult_inv_r. intro Hz. rewrite Hz in Hmq. apply (Qlt_irrefl 0 Hmq). }
  assert (E2 : fl rt (inject_Z (chart_maxViews data) / inject_Z (chart_maxViews data)) == 1).
  { rewrite (fl_proper _ Hfl E1). exact Hf1. }
  assert (E3 : fl rt (inject_Z (chart_maxViews data) / inject_Z (chart_maxViews data)) * 150
               == 150) by (rewrite E2; reflexivity).
  rewrite (fl_proper _ Hfl E3). exact Hf150.
Qed.

(** A day without views has no bar. *)
Lemma chart_bar_height_zero rt data day :
  binary64_rounding (fl rt) ->
  views day = 0%Z ->
  chart_bar_height rt data day == 0.
Proof.
  intros Hfl E.
  assert (Hf0 : fl rt 0 == 0) by (apply (fl_integer Hfl 0); cbn; lia).
  unfold chart_bar_height, chartHeight. rewrite E.
  assert (E1 : inject_Z 0 / inject_Z (chart_maxViews data) == 0)
    by (unfold Qdiv; apply Qmult_0_l).
  assert (E2 : fl rt (inject_Z 0 / inject_Z (chart_maxViews data)) == 0).
  { rewrite (fl_proper _ Hfl E1). exact Hf0. }
  assert (E3 : fl rt (inject_Z 0 / inject_Z (chart_maxViews data)) * 150 == 0)
    by (rewrite E2; reflexivity).
  rewrite (fl_proper _ Hfl E3). exact Hf0.
Qed.

(** X8: the chart has one bar a day, each at least 30 wide and between
    0 and 150 high; the day with the most views fills the height, a day
    without views has no height, and [maxViews] is never below 1, so
    that no height is divided by zero. *)
Theorem chart_bars_fit rt data :
  binary64_rounding (fl rt) ->
  Forall (fun day => (0 <= views day)%Z) data ->
  (1 <= chart_maxViews data)%Z /\
  List.length (chart_bars rt data) = List.length data /\
  Forall (fun bar => (exists w, fst bar = Some w /\ 30 <= w) /\
                     0 <= snd bar <= chartHeight) (chart_bars rt data) /\
  (forall day, In day data -> views day = chart_maxViews data ->
               chart_bar_height rt data day == chartHeight) /\
  (forall day, In day data -> views day = 0%Z -> chart_bar_height rt data day == 0).
Proof.
  intros Hfl Hv.
  destruct (chart_maxViews_ge data) as [Hm Hle].
  split; [exact Hm |]. split; [apply length_map |].
  split; [| split].
  - unfold chart_bars. apply Forall_map.
    rewrite Forall_forall in *. intros day Hin. cbn [fst snd].
    split.
    + unfold chart_barWidth. destruct data as [| e data']; [destruct Hin |].
      eexists. split; [reflexivity | apply Math_max_ge].
    + apply chart_bar_height_range; [exact Hfl |].
      specialize (Hv _ Hin). specialize (Hle _ Hin). cbn beta in Hv, Hle. lia.
  - intros day _ E. apply chart_bar_height_full; assumption.
  - intros day _ E. apply chart_bar_height_zero; assumption.
Qed.

Lemma chart_bars_fit_witness :
  binary64_rounding (fl sample_runtime) /\
  Forall (fun day => (0 <= views day)%Z) (pageViewsHistory sample_snapshot) /\
  List.length (chart_bars sample_runtime (pageViewsHistory sample_snapshot)) = 2%nat.
Proof.
  split; [exact sample_runtime_rounding |].
  assert (Hv : Forall (fun day => (0 <= views day)%Z)
                 (pageViewsHistory sample_snapshot))
    by (repeat constructor; cbn; lia).
  split; [exact Hv |].
  destruct (@chart_bars_fit sample_runtime (pageViewsHistory sample_snapshot)
              sample_runtime_rounding Hv) as (_ & H & _).
  exact H.
Defined.

(** X9: the chart of a generated history has seven bars between 75
    and 76 wide; every bar is at least 24 high, and one of them fills
    the 150 of the chart. *)
Theorem chart_generated_bars rt now used :
  binary64_rounding (fl rt) ->
  unit_interval (random rt) ->
  let data := pageViewsHistory (generateFakeAnalytics rt now used) in
  List.length (chart_bars rt data) = 7%nat /\
  (exists w, chart_barWidth rt data = Some w /\ 75 <= w <= 76) /\
  Forall (fun bar => 24 <= snd bar <= chartHeight) (chart_bars rt data) /\
  Exists (fun bar => snd bar == chartHeight) (chart_bars rt data).
Proof.
  intros Hfl Hrand. cbv zeta.
  set (data := pageViewsHistory (generateFakeAnalytics rt now used)).
  assert (Hviews : Forall (fun e => (100 <= views e <= 600)%Z) data).
  { unfold data, generateFakeAnalytics. cbn [pageViewsHistory].
    apply Forall_map, Forall_forall. intros i _.
    apply (@history_views_bounds rt Hfl Hrand). }
  destruct (chart_maxViews_ge data) as [Hm Hle].
  pose proof (chart_maxViews_positive data) as Hmq.
  assert (Hlen : List.length data = 7%nat) by reflexivity.
  assert (Hmax : exists day, In day data /\ views day = chart_maxViews data).
  { destruct (chart_maxViews_attained data) as [E1 | H]; [| exact H].
    destruct data as [| e data']; [discriminate Hlen |].
    inversion Hviews as [| ? ? He _]; subst.
    inversion Hle as [| ? ? Hl _]; subst. lia. }
  destruct Hmax as (top & Htop & Etop).
  assert (Hmax600 : (chart_maxViews data <= 600)%Z).
  { rewrite Forall_forall in Hviews. specialize (Hviews _ Htop). cbn beta in Hviews. lia. }
  split; [unfold chart_bars; rewrite length_map; exact Hlen |].
  split; [| split].
  - exists (Math_max 30 (fl rt ((600 - inject_Z 7 * 10) / inject_Z 7))).
    split; [reflexivity |].
    assert (E : (600 - inject_Z 7 * 10) / inject_Z 7 == 530 # 7) by reflexivity.
    destruct (@fl_between rt Hfl ((600 - inject_Z 7 * 10) / inject_Z 7) 75 76)
      as [W1 W2]; try (cbn; lia); try (rewrite E; discriminate).
    change (inject_Z 75) with 75 in W1. change (inject_Z 76) with 76 in W2.
    unfold Math_max.
    destruct (Qle_bool 30 (fl rt ((600 - inject_Z 7 * 10) / inject_Z 7))) eqn:B.
    + split; assumption.
    + exfalso. assert (H30 : 30 <= fl rt ((600 - inject_Z 7 * 10) / inject_Z 7)) by lra.
      apply Qle_bool_iff in H30. congruence.
  - unfold chart_bars. apply Forall_map.
    rewrite Forall_forall in *. intros day Hin. cbn [snd].
    specialize (Hviews _ Hin). specialize (Hle _ Hin). cbn beta in Hviews, Hle.
    split; [| apply chart_bar_height_range; [exact Hfl | lia]].
    unfold chart_bar_height, chartHeight.
    set (q := inject_Z (views day) / inject_Z (chart_maxViews data)).
    assert (Hq : 1 # 6 <= q).
    { unfold q. apply Qle_shift_div_l; [exact Hmq |].
      assert (A : inject_Z (chart_maxViews data) <= 600).
      { change 600 with (inject_Z 600). rewrite <- Zle_Qle. lia. }
      assert (B : 100 <= inject_Z (views day)).
      { change 100 with (inject_Z 100). rewrite <- Zle_Qle. lia. }
      lra. }
    assert (K1 : min_normal <= 1 # 6)
      by (unfold min_normal, Qle; vm_compute; discriminate).
    assert (K2 : 1 # 6 <= max_normal)
      by (unfold max_normal, Qle; vm_compute; discriminate).
    pose proof (@fl_lower rt Hfl _ K1 K2) as L6. unfold unit_roundoff in L6.
    assert (Lq : fl rt (1 # 6) <= fl rt q) by (apply (fl_monotone Hfl); exact Hq).
    rewrite <- (fl_integer Hfl 24) by (cbn; lia).
    apply (fl_monotone Hfl). change (inject_Z 24) with 24. lra.
  - apply Exists_exists. exists (chart_barWidth rt data, chart_bar_height rt data top).
    split.
    + unfold chart_bars. apply in_map_iff. exists top. split; [reflexivity | exact Htop].
    + cbn [snd]. apply chart_bar_height_full; assumption.
Qed.

Lemma chart_generated_bars_witness :
  binary64_rounding (fl sample_runtime) /\
  unit_interval (random sample_runtime) /\
  List.length
    (chart_bars sample_runtime
       (pageViewsHistory (generateFakeAnalytics sample_runtime 0 0))) = 7%nat.
Proof.
  split; [exact sample_runtime_rounding |].
  split; [exact sample_runtime_random |].
  destruct (@chart_generated_bars sample_runtime 0%Z 0%nat
              sample_runtime_rounding sample_runtime_random) as (H & _).
  exact H.
Defined.

(** ** The trends of a render *)

Section Trends.
Variable rt : Runtime.
Hypothesis Hfl : binary64_rounding_signed (fl rt).

Lemma fl_up x B :
  x <= B -> min_normal <= B -> B <= max_normal -> fl rt x <= B * up1.
Proof.
  intros Hx Hn Hm.
  pose proof (fl_error (fl_positive Hfl) Hn Hm) as He.
  apply Qabs_Qle_condition in He. destruct He as [_ He].
  eapply Qle_trans; [apply (fl_monotone (fl_positive Hfl)); exact Hx |].
  unfold up1. lra.
Qed.

Lemma fl_down x A :
  A <= x -> A <= - min_normal -> - max_normal <= A -> A * up1 <= fl rt x.
Proof.
  intros Hx Hn Hm.
  pose proof (fl_error_negative Hfl Hn Hm) as He.
  apply Qabs_Qle_condition in He. destruct He as [He _].
  eapply Qle_trans; [| apply (fl_monotone (fl_positive Hfl)); exact Hx].
  unfold up1. lra.
Qed.

Lemma fl_near c :
  min_normal <= c -> c <= max_normal -> c * dn1 <= fl rt c /\ fl rt c <= c * up1.
Proof.
  intros Hn Hm.
  pose proof (fl_error (fl_positive Hfl) Hn Hm) as He.
  apply Qabs_Qle_condition in He. unfold up1, dn1. split; lra.
Qed.

Lemma render_trend_bounds r c scale (lo hi : Z) :
  0 <= r -> r < 1 -> 0 < scale ->
  min_normal <= c -> c <= max_normal ->
  min_normal <= 1 - c * dn1 -> 1 - c * dn1 <= max_normal ->
  min_normal <= (1 - c * dn1) * up1 * scale ->
  (1 - c * dn1) * up1 * scale <= max_normal ->
  - (c * up1) <= - min_normal -> - max_normal <= - (c * up1) ->
  - (c * up1) * up1 * scale <= - min_normal ->
  - max_normal <= - (c * up1) * up1 * scale ->
  inject_Z lo <= - (c * up1) * up1 * scale * up1 + (1 # 2) ->
  (1 - c * dn1) * up1 * scale * up1 + (1 # 2) < inject_Z (hi + 1) ->
  (lo <= render_trend rt r c scale <= hi)%Z.
Proof.
  intros H0 H1 Hs Hc1 Hc2 Hb1 Hb2 Hb3 Hb4 Ha1 Ha2 Ha3 Ha4 Hlo Hhi.
  destruct (fl_near Hc1 Hc2) as [Cl Cu].
  set (cl := fl rt c) in *.
  assert (Dl : - (c * up1) <= r - cl) by lra.
  assert (Du : r - cl <= 1 - c * dn1) by lra.
  pose proof (fl_down Dl Ha1 Ha2) as Fl.
  pose proof (fl_up Du Hb1 Hb2) as Fu.
  set (fd := fl rt (r - cl)) in *.
  assert (Pl : - (c * up1) * up1 * scale <= fd * scale) by nra.
  assert (Pu : fd * scale <= (1 - c * dn1) * up1 * scale) by nra.
  pose proof (fl_down Pl Ha3 Ha4) as Gl.
  pose proof (fl_up Pu Hb3 Hb4) as Gu.
  unfold render_trend, Math_round. fold cl. fold fd.
  set (fp := fl rt (fd * scale)) in *.
  split.
  - rewrite <- (Qfloor_Z lo). apply Qfloor_resp_le. lra.
  - pose proof (Qfloor_le (fp + (1 # 2))) as Hf.
    assert (Hz : inject_Z (Qfloor (fp + (1 # 2))) < inject_Z (hi + 1)).
    { eapply Qle_lt_trans; [exact Hf |]. lra. }
    rewrite <- Zlt_Qlt in Hz. lia.
Qed.

Hypothesis Hrand : unit_interval (random rt).

Ltac constant_side :=
  first [ reflexivity
        | solve [unfold Qle, Qlt; vm_compute; first [discriminate | reflexivity]] ].

(** X10: the four trends of a render are integers of fixed ranges,
    whatever [Math.random] returns: from -6 to 14 for the page views,
    from -5 to 11 for the visitors, from -5 to 5 for the bounce rate and
    from -3 to 12 for the time on page. *)
Theorem render_trends_ranges used :
  let '(pageViewsTrend, visitorsTrend, bounceTrend, timeTrend) :=
    render_trends rt used in
  (-6 <= pageViewsTrend <= 14)%Z /\
  (-5 <= visitorsTrend <= 11)%Z /\
  (-5 <= bounceTrend <= 5)%Z /\
  (-3 <= timeTrend <= 12)%Z.
Proof.
  unfold render_trends.
  destruct (Hrand used) as [A0 A1].
  destruct (Hrand (used + 1)%nat) as [B0 B1].
  destruct (Hrand (used + 2)%nat) as [C0 C1].
  destruct (Hrand (used + 3)%nat) as [D0 D1].
  split; [| split; [| split]];
    (apply render_trend_bounds; [assumption | assumption | ..]);
    constant_side.
Qed.

End Trends.


Lemma exact_rounding_signed : binary64_rounding_signed (fun x : Q => x).
Proof.
  constructor; [exact exact_rounding |].
  intros x Hlo _. setoid_replace (x - x) with 0 by ring.
  assert (H0 : 0 <= - x).
  { assert (Hm : 0 <= min_normal) by discriminate. lra. }
  simpl. apply Qmult_le_0_compat; [exact H0 | discriminate].
Qed.

Lemma render_trends_ranges_witness :
  binary64_rounding_signed (fl sample_runtime) /\
  unit_interval (random sample_runtime) /\
  let '(pageViewsTrend, visitorsTrend, bounceTrend, timeTrend) :=
    render_trends sample_runtime 0 in
  (-6 <= pageViewsTrend <= 14)%Z /\
  (-5 <= visitorsTrend <= 11)%Z /\
  (-5 <= bounceTrend <= 5)%Z /\
  (-3 <= timeTrend <= 12)%Z.
Proof.
  split; [exact exact_rounding_signed |].
  split; [exact sample_runtime_random |].
  exact (@render_trends_ranges sample_runtime exact_rounding_signed
           sample_runtime_random 0%nat).
Defined.

(** ** The controller: what holds of every session *)

Lemma steady_mount rt value now : steady (mount rt value now).
Proof.
  unfold mount, mount_effect, first_render. cbn [host_value].
  destruct (value_snapshot value) as [s |] eqn:Hv.
  - constructor; cbn.
    + left. split; reflexivity.
    + exists s. split; [reflexivity |].
      destruct value as [[[d |]] |]; cbn in Hv; try discriminate.
      injection Hv as ->. reflexivity.
    + constructor.
    + exact I.
    + reflexivity.
    + constructor.
  - constructor; cbn.
    + left. split; reflexivity.
    + eexists. split; reflexivity.
    + constructor; [discriminate | constructor].
    + reflexivity.
    + reflexivity.
    + constructor.
Qed.

Lemma steady_step rt w e : steady w -> steady (step rt w e).
Proof.
  intros [Hf (s & Hs & Hh) Hw Hl Hc Hd].
  pose proof (single_flight_step rt e Hf) as Hf'.
  destruct e.
  - cbn [step] in *. unfold button_enabled in *. rewrite Hs in *.
    destruct (isLoading w) eqn:Hld; cbn [negb] in *.
    + constructor; try assumption. exists s. split; assumption.
    + constructor; try assumption; cbn.
      * exists s. split; assumption.
      * apply Forall_app. split.
        -- eapply Forall_impl; [| exact Hd]. cbn. intros; lia.
        -- constructor; [| constructor]. cbn. unfold refresh_delay. lia.
  - constructor; try assumption; cbn.
    + exists s. split; assumption.
    + eapply Forall_impl; [| exact Hd]. cbn. intros; lia.
  - cbn [step] in *. destruct (timers w) as [| due rest] eqn:Ht.
    + constructor; try assumption. exists s. split; assumption.
      rewrite Ht. constructor.
    + destruct (due <=? clock w)%Z.
      * constructor; try assumption; cbn.
        -- eexists. split; reflexivity.
        -- constructor; [discriminate | exact Hw].
        -- reflexivity.
        -- rewrite Hc. reflexivity.
        -- inversion Hd; assumption.
      * constructor; try assumption. exists s. split; assumption.
        rewrite Ht. exact Hd.
Qed.

Lemma steady_run rt es : forall w, steady w -> steady (run rt w es).
Proof.
  induction es as [| e es IH]; intros w Hw; [exact Hw |].
  cbn. apply IH. apply steady_step. exact Hw.
Qed.

Lemma steady_session rt value now es : steady (session rt value now es).
Proof. apply steady_run, steady_mount. Qed.

Lemma run_app rt w es1 es2 : run rt w (es1 ++ es2) = run rt (run rt w es1) es2.
Proof. unfold run. apply fold_left_app. Qed.

(** Generations and pending refreshes are paid for by clicks. *)
Lemma step_budget rt w e :
  (generator_calls (step rt w e) + List.length (timers (step rt w e))
   <= generator_calls w + List.length (timers w) + clicks [e])%nat.
Proof.
  destruct e; cbn [step clicks].
  - destruct (button_enabled w); [| lia].
    unfold refreshAnalytics, setTimeout, setIsLoading.
    cbn [timers generator_calls]. rewrite length_app. cbn [List.length]. lia.
  - cbn [timers generator_calls]. lia.
  - destruct (timers w) as [| due rest] eqn:Ht; [rewrite Ht; lia |].
    destruct (due <=? clock w)%Z; [| rewrite Ht; lia].
    unfold refresh_callback, call_generator, setIsLoading, setValue, setAnalyticsData.
    cbn [timers generator_calls List.length]. lia.
Qed.

Lemma clicks_cons e es : clicks (e :: es) = (clicks [e] + clicks es)%nat.
Proof. destruct e; reflexivity. Qed.

Lemma run_budget rt es : forall w,
  (generator_calls (run rt w es) + List.length (timers (run rt w es))
   <= generator_calls w + List.length (timers w) + clicks es)%nat.
Proof.
  induction es as [| e es IH]; intro w; [cbn; lia |].
  rewrite clicks_cons. change (run rt w (e :: es)) with (run rt (step rt w e) es).
  pose proof (IH (step rt w e)). pose proof (step_budget rt w e). lia.
Qed.

(** A pending refresh is over once 800 ms have passed and the event
    loop has run. *)
Lemma steady_settles rt w ms :
  steady w -> (refresh_delay <= ms)%Z ->
  let w' := run rt w [Elapse ms; Fire] in
  isLoading w' = false /\ timers w' = [].
Proof.
  intros [Hf _ _ _ _ Hd] Hms. cbv zeta.
  unfold run. cbn [fold_left step timers clock isLoading].
  destruct Hf as [[Hl Ht] | (Hl & _ & due & Ht)]; rewrite Ht.
  - cbn [timers isLoading]. split; [exact Hl | reflexivity].
  - rewrite Ht in Hd. inversion Hd as [| ? ? Hdue _]; subst.
    assert (E : (due <=? clock w + Z.max 0 ms)%Z = true) by (apply Z.leb_le; lia).
    rewrite E. split; reflexivity.
Qed.

(** X11: in every state of a session a snapshot is on display, and at
    most one refresh is pending, exactly while the button is disabled. *)
Theorem session_single_flight rt value now es :
  let w := session rt value now es in
  displayState w <> Loading /\
  (List.length (timers w) <= 1)%nat /\
  (isLoading w = true <-> timers w <> []).
Proof.
  cbv zeta. destruct (steady_session rt value now es) as [Hf (s & Hs & _) _ _ _ _].
  split; [| split].
  - unfold displayState. rewrite Hs. destruct (isLoading _); discriminate.
  - destruct Hf as [[_ ->] | (_ & _ & due & ->)]; cbn; lia.
  - destruct Hf as [[-> ->] | (-> & _ & due & ->)]; split;
      congruence || discriminate.
Qed.

(** X12: in every state of a session the host holds the wrapper of the
    snapshot on display; every write carried a snapshot, and the latest
    write is what the host holds. *)
Theorem session_persisted_is_shown rt value now es :
  let w := session rt value now es in
  exists s,
    shown w = Some s /\
    host_value w = Some (mkValue (Some s)) /\
    Forall (fun v => analyticsData v <> None) (writes w) /\
    (writes w = [] \/ exists older, writes w = mkValue (Some s) :: older).
Proof.
  cbv zeta. destruct (steady_session rt value now es) as [_ (s & Hs & Hh) Hw Hl _ _].
  exists s. repeat split; try assumption.
  destruct (writes _) as [| v older]; [left; reflexivity |].
  right. exists older. rewrite Hh in Hl. injection Hl as <-. reflexivity.
Qed.

(** X13: every generated snapshot is written once and nothing else is;
    the generations and the pending refresh together number at most the
    clicks, plus the one of a mount without a snapshot. *)
Theorem session_accounting rt value now es :
  let w := session rt value now es in
  generator_calls w = List.length (writes w) /\
  (generator_calls w + List.length (timers w)
   <= clicks es + match value_snapshot value with Some _ => 0 | None => 1 end)%nat.
Proof.
  cbv zeta. split; [apply (steady_calls (steady_session rt value now es)) |].
  unfold session. pose proof (run_budget rt es (mount rt value now)) as H.
  assert (E : (generator_calls (mount rt value now)
               + List.length (timers (mount rt value now))
               = match value_snapshot value with Some _ => 0 | None => 1 end)%nat).
  { unfold mount, mount_effect, first_render. cbn [host_value].
    destruct (value_snapshot value); reflexivity. }
  lia.
Qed.

(** X14: whatever has happened, 800 ms and one turn of the event loop
    later the component is [Ready], with nothing pending. *)
Theorem session_settles rt value now es ms :
  (800 <= ms)%Z ->
  let w := session rt value now (es ++ [Elapse ms; Fire]) in
  exists s, displayState w = Ready s /\ timers w = [] /\
            host_value w = Some (mkValue (Some s)).
Proof.
  intros Hms. cbv zeta. unfold session. rewrite run_app.
  pose proof (steady_session rt value now es) as Hst. unfold session in Hst.
  destruct (@steady_settles rt _ ms Hst Hms) as [Hl Ht].
  pose proof (steady_run rt [Elapse ms; Fire] Hst) as [_ (s & Hs & Hh) _ _ _ _].
  exists s. unfold displayState. rewrite Hs, Hl. repeat split; assumption.
Qed.

Lemma session_settles_witness :
  (800 <= 800)%Z /\
  exists s,
    displayState (session sample_runtime None 0 ([Click] ++ [Elapse 800; Fire]))
    = Ready s.
Proof.
  split; [lia |].
  destruct (@session_settles sample_runtime None 0%Z [Click] 800%Z ltac:(lia))
    as (s & Hs & _).
  exists s. exact Hs.
Defined.

(** X15: a component mounted on what a session has persisted shows the
    snapshot that session had on display, and neither generates nor
    writes. *)
Theorem session_reload rt rt' value now es now' :
  let w := session rt value now es in
  let w' := mount rt' (host_value w) now' in
  shown w' = shown w /\
  (exists s, displayState w' = Ready s) /\
  writes w' = [] /\ generator_calls w' = 0%nat /\
  host_value w' = host_value w.
Proof.
  cbv zeta. destruct (steady_session rt value now es) as [_ (s & Hs & Hh) _ _ _ _].
  rewrite Hh, Hs. unfold mount, mount_effect, first_render. cbn.
  repeat split. exists s. reflexivity.
Qed.

Section Persisted.
Variable rt : Runtime.
Hypothesis Hfl : binary64_rounding (fl rt).
Hypothesis Hrand : unit_interval (random rt).

Lemma host_well_formed_mount value now :
  (forall v, value = Some v -> well_formed_value v) ->
  host_well_formed (mount rt value now).
Proof.
  intro Hv. unfold mount, mount_effect, first_render, host_well_formed.
  cbn [host_value]. destruct (value_snapshot value); cbn.
  - destruct value as [v |]; [apply Hv; reflexivity | exact I].
  - apply generateFakeAnalytics_well_formed; assumption.
Qed.

Lemma host_well_formed_step w e :
  host_well_formed w -> host_well_formed (step rt w e).
Proof.
  intro H. destruct e; cbn [step].
  - destruct (button_enabled w); exact H.
  - exact H.
  - destruct (timers w) as [| due rest]; [exact H |].
    destruct (due <=? clock w)%Z; [| exact H].
    unfold host_well_formed. cbn.
    apply generateFakeAnalytics_well_formed; assumption.
Qed.

Lemma host_well_formed_run es : forall w,
  host_well_formed w -> host_well_formed (run rt w es).
Proof.
  induction es as [| e es IH]; intros w H; [exact H |].
  cbn. apply IH, host_well_formed_step, H.
Qed.

(** X16: when the value it was mounted on is well formed, what a
    session holds for the host is read back by [parseValue]
    from its [JSON.stringify] text, as the very object. *)
Theorem session_value_decodes value now es :
  (forall v, value = Some v -> well_formed_value v) ->
  exists v,
    host_value (session rt value now es) = Some v /\
    parseValue (Some (JSON_stringify (Value_to_json v)))
    = Normal (ParsedValue (Value_to_json v)).
Proof.
  intro Hv.
  pose proof (@host_well_formed_run es _ (host_well_formed_mount now Hv)) as Hw.
  destruct (steady_session rt value now es) as [_ (s & _ & Hh) _ _ _ _].
  unfold session in *. unfold host_well_formed in Hw. rewrite Hh in Hw.
  eexists. split; [exact Hh |].
  rewrite parseValue_unfold.
  rewrite JSON_parse_stringify by (apply Value_to_json_wf; exact Hw).
  reflexivity.
Qed.

End Persisted.

Lemma session_value_decodes_witness :
  binary64_rounding (fl sample_runtime) /\
  unit_interval (random sample_runtime) /\
  (forall v, @None Value = Some v -> well_formed_value v) /\
  exists v,
    host_value (session sample_runtime None 0 [Click; Elapse 800; Fire]) = Some v /\
    parseValue (Some (JSON_stringify (Value_to_json v)))
    = Normal (ParsedValue (Value_to_json v)).
Proof.
  split; [exact sample_runtime_rounding |].
  split; [exact sample_runtime_random |].
  assert (Hv : forall v, @None Value = Some v -> well_formed_value v)
    by (intros v H; discriminate H).
  split; [exact Hv |].
  exact (@session_value_decodes sample_runtime sample_runtime_rounding
           sample_runtime_random None 0%Z [Click; Elapse 800; Fire] Hv).
Defined.

Lemma provenance_mount rt value now : provenance rt value now (mount rt value now).
Proof.
  unfold mount, mount_effect, first_render. cbn [host_value].
  destruct (value_snapshot value) as [s |] eqn:Hv.
  - constructor; cbn.
    + lia.
    + constructor.
    + intros _. rewrite ?Hv. split; reflexivity.
  - constructor; cbn.
    + lia.
    + constructor; [| constructor]. exists now, 0%nat. split; [lia | reflexivity].
    + discriminate.
Qed.

Lemma provenance_step rt value now w e :
  provenance rt value now w -> provenance rt value now (step rt w e).
Proof.
  intros [Hc Hw Hi]. destruct e; cbn [step].
  - destruct (button_enabled w); constructor; assumption.
  - constructor; cbn.
    + lia.
    + eapply Forall_impl; [| exact Hw]. cbn.
      intros v (t & u & Ht & E). exists t, u. split; [lia | exact E].
    + exact Hi.
  - destruct (timers w) as [| due rest]; [constructor; assumption |].
    destruct (due <=? clock w)%Z; [| constructor; assumption].
    constructor; cbn.
    + exact Hc.
    + constructor; [| exact Hw].
      exists (clock w), (random_used w). split; [lia | reflexivity].
    + discriminate.
Qed.

Lemma provenance_run rt value now es : forall w,
  provenance rt value now w -> provenance rt value now (run rt w es).
Proof.
  induction es as [| e es IH]; intros w Hw; [exact Hw |].
  cbn. apply IH, provenance_step, Hw.
Qed.

(** X17: the component shows and persists nothing of its own making:
    until its first write a session shows and holds what it was mounted
    on, and from then on what it shows, and every value it has written,
    is the output of the generator at a time between the mount and the
    present. *)
Theorem session_provenance rt value now es :
  let w := session rt value now es in
  (writes w = [] /\ shown w = value_snapshot value /\ host_value w = value) \/
  (exists t u, (now <= t <= clock w)%Z /\
               shown w = Some (generateFakeAnalytics rt t u)) /\
  Forall (fun v => exists t u, (now <= t <= clock w)%Z /\
                     v = mkValue (Some (generateFakeAnalytics rt t u)))
         (writes w).
Proof.
  cbv zeta.
  destruct (provenance_run es (provenance_mount rt value now)) as [Hc Hw Hi].
  destruct (steady_session rt value now es) as [_ (s & Hs & Hh) _ Hl _ _].
  fold (session rt value now es) in *.
  destruct (writes (session rt value now es)) as [| v older] eqn:E.
  - left. split; [reflexivity |]. apply Hi. reflexivity.
  - right. split; [| exact Hw].
    inversion Hw as [| ? ? (t & u & Ht & Ev) _]; subst.
    exists t, u. split; [exact Ht |].
    rewrite Hh in Hl. injection Hl as Hl. rewrite Hs. congruence.
Qed.

(** ** The days of the history and the labels of the chart *)

Module DateParseFacts.
Import JsDate JsDateParse.
Local Open Scope Z_scope.

Lemma digit_of_char (n : Z) :
  0 <= n <= 9 -> digit_of (Z.to_N (48 + n)) = Some n.
Proof.
  intro H. unfold digit_of.
  assert (E1 : (48 <=? Z.to_N (48 + n))%N = true) by (apply N.leb_le; lia).
  assert (E2 : (Z.to_N (48 + n) <=? 57)%N = true) by (apply N.leb_le; lia).
  rewrite E1, E2. cbn [andb]. f_equal. lia.
Qed.

Lemma digits_number_pad w : forall n acc,
  0 <= n < 10 ^ Z.of_nat w ->
  digits_number acc (pad w n) = Some (acc * 10 ^ Z.of_nat w + n).
Proof.
  induction w as [| w IH]; intros n acc Hn.
  - cbn in *. f_equal. lia.
  - cbn [pad].
    assert (G : forall s acc', digits_number acc' (s ++ [Z.to_N (48 + n mod 10)])
                = match digits_number acc' s with
                  | Some a => Some (10 * a + n mod 10)
                  | None => None
                  end).
    { induction s as [| c s IHs]; intro acc'; cbn [digits_number List.app].
      - rewrite digit_of_char by (pose proof (Z.mod_pos_bound n 10); lia). reflexivity.
      - destruct (digit_of c); [apply IHs | reflexivity]. }
    rewrite G. rewrite Nat2Z.inj_succ, Z.pow_succ_r in * by lia.
    rewrite IH by (Z.to_euclidean_division_equations; nia).
    f_equal. Z.to_euclidean_division_equations. nia.
Qed.

Lemma DayFromYear_succ y :
  DayFromYear (y + 1) = DayFromYear y + 365 + (if is_leap y then 1 else 0).
Proof.
  unfold DayFromYear, is_leap.
  destruct (Z.eqb_spec (y mod 4) 0) as [H4 | H4];
    destruct (Z.eqb_spec (y mod 100) 0) as [H100 | H100];
    destruct (Z.eqb_spec (y mod 400) 0) as [H400 | H400];
    cbn [andb orb negb]; Z.to_euclidean_division_equations; lia.
Qed.

Lemma DayWithinYear_range t :
  0 <= DayWithinYear t < 365 + InLeapYear t.
Proof.
  pose proof (DateFacts.YearFromTime_spec t) as H.
  rewrite DayFromYear_succ in H. unfold DayWithinYear, InLeapYear. lia.
Qed.

Lemma InLeapYear_cases t : InLeapYear t = 0 \/ InLeapYear t = 1.
Proof. unfold InLeapYear. destruct (is_leap _); auto. Qed.

Lemma DateFromTime_range t :
  1 <= DateFromTime t <= DaysInMonth (YearFromTime t) (MonthFromTime t).
Proof.
  pose proof (DayWithinYear_range t) as H.
  unfold DateFromTime, MonthFromTime, DaysInMonth. cbv zeta.
  assert (L : InLeapYear t = if is_leap (YearFromTime t) then 1 else 0) by reflexivity.
  set (d := DayWithinYear t) in *. set (leap := InLeapYear t) in *.
  clearbody d leap.
  destruct (is_leap (YearFromTime t)); subst leap;
    repeat match goal with
           | |- context [if (?a <? ?b) then _ else _] =>
               destruct (Z.ltb_spec a b)
           end; cbn; lia.
Qed.

Lemma MakeDay_time t :
  MakeDay (YearFromTime t) (MonthFromTime t) (DateFromTime t) = Day t.
Proof.
  pose proof (DateFacts.MonthFromTime_range t) as Hm.
  unfold MakeDay. cbv zeta.
  rewrite (Z.div_small (MonthFromTime t) 12) by lia.
  rewrite (Z.mod_small (MonthFromTime t) 12) by lia.
  rewrite Z.add_0_r.
  unfold DateFromTime, DayWithinYear, InLeapYear. lia.
Qed.

(** [Date.parse] reads the date part of [toISOString] back as the
    start of that day, for the years written with four digits. *)
Lemma Date_parse_date_string t :
  0 <= YearFromTime t <= 9999 ->
  Date_parse (date_string t) = Some (Day t * msPerDay).
Proof.
  intro Hy.
  pose proof (DateFacts.MonthFromTime_range t) as Hm.
  pose proof (DateFromTime_range t) as Hd.
  assert (Hd31 : DaysInMonth (YearFromTime t) (MonthFromTime t) <= 31).
  { unfold DaysInMonth.
    repeat match goal with |- context [if ?b then _ else _] => destruct b end; lia. }
  assert (Ey : digits_number 0 (pad 4 (YearFromTime t)) = Some (YearFromTime t)).
  { rewrite digits_number_pad by (cbn; lia). f_equal; lia. }
  assert (Em : digits_number 0 (pad 2 (MonthFromTime t + 1)) = Some (MonthFromTime t + 1)).
  { rewrite digits_number_pad by (cbn; lia). f_equal; lia. }
  assert (Ed : digits_number 0 (pad 2 (DateFromTime t)) = Some (DateFromTime t)).
  { rewrite digits_number_pad by (cbn; lia). f_equal; lia. }
  unfold date_string, year_string.
  assert (E : (0 <=? YearFromTime t) && (YearFromTime t <=? 9999) = true).
  { apply andb_true_iff. split; apply Z.leb_le; lia. }
  rewrite E.
  set (y := YearFromTime t) in *. set (m := MonthFromTime t) in *.
  set (dt := DateFromTime t) in *.
  cbn [pad List.app] in *. unfold Date_parse.
  change (lit "-") with [45%N]. cbn [List.app].
  rewrite Ey, Em, Ed.
  replace (m + 1 - 1) with m by lia.
  assert (C : ((45 =? 45) && (45 =? 45))%N && (1 <=? m + 1) && (m + 1 <=? 12)
              && (1 <=? dt) && (dt <=? DaysInMonth y m) = true).
  { repeat (apply andb_true_iff; split); try reflexivity; apply Z.leb_le; lia. }
  rewrite C. unfold MakeDate. f_equal.
  unfold y, m, dt. rewrite MakeDay_time. lia.
Qed.

Lemma DayFromYear_mono y1 y2 : y1 <= y2 -> DayFromYear y1 <= DayFromYear y2.
Proof. intro H. unfold DayFromYear. Z.to_euclidean_division_equations. lia. Qed.

Lemma YearFromTime_mono t1 t2 :
  Day t1 <= Day t2 -> YearFromTime t1 <= YearFromTime t2.
Proof.
  intro H.
  pose proof (DateFacts.YearFromTime_spec t1) as H1.
  pose proof (DateFacts.YearFromTime_spec t2) as H2.
  destruct (Z_le_gt_dec (YearFromTime t1) (YearFromTime t2)) as [L | G]; [exact L |].
  pose proof (@DayFromYear_mono (YearFromTime t2 + 1) (YearFromTime t1) ltac:(lia)).
  lia.
Qed.

Lemma Date_parse_day_string now k :
  four_digit_years now -> 0 <= k <= 6 ->
  Date_parse (day_string (Day now - k)) = Some ((Day now - k) * msPerDay).
Proof.
  intros [Y0 Y1] Hk. unfold day_string.
  rewrite DateFacts.isoDate_date_string.
  set (d := Day now - k).
  assert (Hd : Day (d * msPerDay) = d)
    by (unfold Day; apply Z.div_mul; unfold msPerDay; lia).
  rewrite Date_parse_date_string; [rewrite Hd; reflexivity |].
  split.
  - eapply Z.le_trans; [exact Y0 |]. apply YearFromTime_mono.
    rewrite Hd. rewrite (DateFacts.Day_shift now 6). unfold d. lia.
  - eapply Z.le_trans; [| exact Y1]. apply YearFromTime_mono.
    rewrite Hd. unfold d. lia.
Qed.

Lemma WeekDay_offset d off :
  (0 <= off < msPerDay -> WeekDay (d * msPerDay + off) = (d + 4) mod 7) /\
  (- msPerDay <= off < 0 -> WeekDay (d * msPerDay + off) = (d + 3) mod 7).
Proof.
  unfold WeekDay, Day, msPerDay. split; intro H.
  - f_equal. Z.to_euclidean_division_equations. lia.
  - replace (d + 3) with (d - 1 + 4) by lia. f_equal.
    Z.to_euclidean_division_equations. lia.
Qed.

End DateParseFacts.



Lemma sample_runtime_offset : forall t b, LocalTZA sample_runtime t b = 0%Z.
Proof. reflexivity. Qed.

Lemma sample_now_years : four_digit_years sample_now.
Proof. split; vm_compute; discriminate. Qed.


(** X19: in any time zone whose offsets differ by less than a day, each
    date of a generated history is at most one day off the day it is
    meant for, the [6 - i]-th day before the day of generation. *)
Theorem history_dates_any_zone rt now used (i : nat) :
  offsets_within_a_day (LocalTZA rt) ->
  exists d,
    date (history_entry rt now used i) = day_string d /\
    (Z.abs (d - (JsDate.Day now - (6 - Z.of_nat i))) <= 1)%Z.
Proof.
  intro Htz. unfold history_entry. cbn [date].
  rewrite DateFacts.setDate_getDate. unfold JsDate.UTC, JsDate.LocalTime.
  rewrite DateFacts.isoDate_Day. eexists. split; [reflexivity |].
  set (k := (Z.of_nat historyDays - 1 - Z.of_nat i)%Z).
  replace (6 - Z.of_nat i)%Z with k by (unfold k, historyDays; lia).
  set (a := LocalTZA rt now true).
  set (b := LocalTZA rt (now + a - k * JsDate.msPerDay)%Z false).
  pose proof (Htz now true (now + a - k * JsDate.msPerDay)%Z false) as H.
  fold a in H. fold b in H.
  replace (now + a - k * JsDate.msPerDay - b)%Z
    with ((now + (a - b)) - k * JsDate.msPerDay)%Z by lia.
  rewrite DateFacts.Day_shift.
  unfold JsDate.Day, JsDate.msPerDay in *.
  Z.to_euclidean_division_equations. lia.
Qed.

Lemma amsterdam_offsets : offsets_within_a_day amsterdam_2026.
Proof.
  intros t b t' b'. unfold amsterdam_2026, JsDate.msPerDay.
  destruct b, b';
    repeat match goal with |- context [if ?c then _ else _] => destruct c end; lia.
Qed.

Lemma history_dates_any_zone_witness :
  offsets_within_a_day (LocalTZA (exact_runtime amsterdam_2026 (1 # 2))) /\
  exists d,
    date (history_entry (exact_runtime amsterdam_2026 (1 # 2)) 1774827000000 0 0)
    = day_string d /\
    (Z.abs (d - (JsDate.Day 1774827000000 - (6 - Z.of_nat 0))) <= 1)%Z.
Proof.
  split; [exact amsterdam_offsets |].
  exact (@history_dates_any_zone (exact_runtime amsterdam_2026 (1 # 2))
           1774827000000%Z 0%nat 0%nat amsterdam_offsets).
Defined.

(** X20: where the offset of local time is constant, the label under the
    [i]-th bar of a generated history is the weekday of the local time
    at the start of its UTC day: the weekday of that day east of
    Greenwich, the one of the day before it west of Greenwich. *)
Theorem chart_labels_fixed_offset rt now used off (i : nat) :
  (forall t b, LocalTZA rt t b = off) ->
  four_digit_years now ->
  (i < 7)%nat ->
  let day := history_entry rt now used i in
  let d := (JsDate.Day now - 6 + Z.of_nat i)%Z in
  In day (pageViewsHistory (generateFakeAnalytics rt now used)) /\
  chart_dayLabel (LocalTZA rt) (date day)
  = Some (weekday_short (JsDateParse.WeekDay (d * JsDate.msPerDay + off))) /\
  ((0 <= off < JsDate.msPerDay)%Z ->
   chart_dayLabel (LocalTZA rt) (date day) = Some (weekday_short ((d + 4) mod 7))) /\
  ((- JsDate.msPerDay <= off < 0)%Z ->
   chart_dayLabel (LocalTZA rt) (date day) = Some (weekday_short ((d + 3) mod 7))).
Proof.
  intros Htz Hy Hi. cbv zeta.
  assert (E : chart_dayLabel (LocalTZA rt) (date (history_entry rt now used i))
              = Some (weekday_short
                        (JsDateParse.WeekDay
                           ((JsDate.Day now - 6 + Z.of_nat i) * JsDate.msPerDay + off)))).
  { unfold chart_dayLabel.
    rewrite (@history_dates_fixed_offset rt now used off i Htz).
    rewrite DateParseFacts.Date_parse_day_string by (assumption || lia).
    unfold JsDate.LocalTime. rewrite Htz. do 4 f_equal. lia. }
  split; [| split; [exact E | split]].
  - unfold generateFakeAnalytics. cbn [pageViewsHistory].
    apply in_map, in_seq. unfold historyDays. lia.
  - intro H. rewrite E.
    rewrite (proj1 (DateParseFacts.WeekDay_offset _ off) H). reflexivity.
  - intro H. rewrite E.
    rewrite (proj2 (DateParseFacts.WeekDay_offset _ off) H). reflexivity.
Qed.

Lemma chart_labels_fixed_offset_witness :
  (forall t b, LocalTZA sample_runtime t b = 0%Z) /\
  four_digit_years sample_now /\
  (6 < 7)%nat /\
  chart_dayLabel (LocalTZA sample_runtime)
    (date (history_entry sample_runtime sample_now 0 6))
  = Some (lit "Wed").
Proof.
  split; [exact sample_runtime_offset |].
  split; [exact sample_now_years |].
  assert (Hi : (6 < 7)%nat) by lia.
  split; [exact Hi |].
  destruct (@chart_labels_fixed_offset sample_runtime sample_now 0%nat 0%Z 6%nat
              sample_runtime_offset sample_now_years Hi) as (_ & H & _).
  rewrite H. reflexivity.
Defined.

(** ** [parseValue]: what it accepts *)

















